(** * recma-jsx-rewrite

    A model of [src/lib/plugin/recma-jsx-rewrite.js]: the pass that walks an
    ESTree program once, routes lowercase JSX tags through an injected
    [_components] object, and injects the declarations that define it.

    The syntax tree is kept as the walker sees it: a node is its own fields
    (its [header]) together with its child nodes in the order the walker
    visits them.  The builders below are the [u(type, props)] calls of the
    source. *)

From Stdlib Require Import Ascii.
From stdpp Require Import base strings list gmap.

Local Open Scope string_scope.
Local Open Scope list_scope.

Set Default Proof Using "Type".

(** ** Syntax trees *)

Inductive fntype : Type :=
| FunctionDeclaration
| FunctionExpression
| ArrowFunctionExpression.

(** The name of a JSX element follows the JSX grammar: the object of a
    [JSXMemberExpression] is an identifier or another member expression, and
    its property is an identifier (kept by its name). *)
Inductive jsxobject : Type :=
| JSXIdentifier (name : string)
| JSXMemberExpression (object : jsxobject) (property : string).

Inductive jsxname : Type :=
| JSXName (n : jsxobject)
| JSXNamespacedName (namespace name : string).

Inductive literal : Type :=
| LString (s : string)
| LNumber (n : Z)
| LUndefined.

(** The fields of a node that are not child nodes.  A flag that the source
    leaves out of a node ([shorthand], [computed]) reads as [false].  For a
    JSX element the header carries the name of the opening element, the name
    of the closing element when there is one, and whether
    [data._xdmExplicitJsx] is set. *)
Inductive header : Type :=
| TFunction (type : fntype) (id : option string)
| TBlockStatement
| TReturnStatement
| TJSXElement (name : jsxname) (closingName : option jsxname) (explicit : bool)
| TVariableDeclaration (kind : string)
| TVariableDeclarator
| TObjectExpression
| TObjectPattern
| TProperty (kind : string) (shorthand : bool)
| TCallExpression
| TNewExpression
| TMemberExpression (computed : bool)
| TBinaryExpression (operator : string)
| TThrowStatement
| TIdentifier (name : string)
| TLiteral (value : literal)
| TImportDeclaration
| TImportSpecifier
| TOther (type : string).

#[local] Unset Elimination Schemes.
Inductive node : Type :=
| Node (h : header) (children : list node).
#[local] Set Elimination Schemes.

Record Program : Type := mkProgram { body : list node }.

Definition Identifier (name : string) : node := Node (TIdentifier name) [].
Definition Literal (value : literal) : node := Node (TLiteral value) [].
Definition Property (kind : string) (shorthand : bool) (key value : node) : node :=
  Node (TProperty kind shorthand) [key; value].
Definition ObjectExpression (properties : list node) : node :=
  Node TObjectExpression properties.
Definition ObjectPattern (properties : list node) : node :=
  Node TObjectPattern properties.
Definition CallExpression (callee : node) (arguments : list node) : node :=
  Node TCallExpression (callee :: arguments).
Definition NewExpression (callee : node) (arguments : list node) : node :=
  Node TNewExpression (callee :: arguments).
Definition MemberExpression (object property : node) (computed : bool) : node :=
  Node (TMemberExpression computed) [object; property].
Definition BinaryExpression (operator : string) (left right : node) : node :=
  Node (TBinaryExpression operator) [left; right].
Definition VariableDeclarator (id init : node) : node :=
  Node TVariableDeclarator [id; init].
Definition VariableDeclaration (kind : string) (declarations : list node) : node :=
  Node (TVariableDeclaration kind) declarations.
Definition BlockStatement (stmts : list node) : node :=
  Node TBlockStatement stmts.
Definition ReturnStatement (argument : node) : node :=
  Node TReturnStatement [argument].
Definition ThrowStatement (argument : node) : node :=
  Node TThrowStatement [argument].
Definition ImportSpecifier (imported local : node) : node :=
  Node TImportSpecifier [imported; local].
Definition ImportDeclaration (specifiers : list node) (source : node) : node :=
  Node TImportDeclaration (specifiers ++ [source]).

(** A function: its parameters, then its body (the last child). *)
Definition Fn (type : fntype) (id : option string) (params : list node)
    (fbody : node) : node :=
  Node (TFunction type id) (params ++ [fbody]).

(** A JSX element: its attributes, then its children. *)
Definition JSXElement (name : jsxname) (attributes : list node)
    (closingName : option jsxname) (explicit : bool) (kids : list node) : node :=
  Node (TJSXElement name closingName explicit) (attributes ++ kids).

(** ** Results of code that can throw *)

Inductive error : Type :=
| TypeError (message : string).

Inductive result (A : Type) : Type :=
| Ok (a : A)
| Throw (e : error).
Arguments Ok {A} a.
Arguments Throw {A} e.

Global Instance result_ret : MRet result := @Ok.
Global Instance result_bind : MBind result := λ A B f m,
  match m with
  | Ok a => f a
  | Throw e => Throw e
  end.

(** ** Scope frames and the state of one run *)

Record scope : Type := Scope {
  objects : list string;
  components : list string;
  tags : list string
}.

Record state : Type := State {
  stack : list scope;
  useMissingComponentHelper : bool;
  importProvider : bool
}.

Record RecmaJsxRewriteOptions : Type := Options {
  outputFormat : option string;
  providerImportSource : option string
}.

(** [Array.prototype.includes] on an array of names. *)
Definition includes (l : list string) (x : string) : bool :=
  bool_decide (x ∈ l).

(** [Array.prototype.pop]: the last element and the array without it. *)
Definition pop {A : Type} (l : list A) : option (A * list A) :=
  match reverse l with
  | [] => None
  | x :: r => Some (x, reverse r)
  end.

(** JavaScript truthiness of an optional string: [undefined] and the empty
    string are falsy. *)
Definition truthy (s : option string) : bool :=
  match s with
  | Some s => negb (bool_decide (s = ""))
  | None => false
  end.

(** [/^[a-z]/.test(s)] *)
Definition startsLowercase (s : string) : bool :=
  match s with
  | String c _ => Ascii.leb "a"%char c && Ascii.leb c "z"%char
  | EmptyString => false
  end.

(** [while (name.type === 'JSXMemberExpression') name = name.object] *)
Fixpoint leftmost (name : jsxobject) : string :=
  match name with
  | JSXIdentifier x => x
  | JSXMemberExpression object _ => leftmost object
  end.

(** The member access [_components.<name>] that replaces a tag's name. *)
Definition viaComponents (name : string) : jsxname :=
  JSXName (JSXMemberExpression (JSXIdentifier "_components") name).

Definition emptyScope : scope := Scope [] [] [].

Definition initialState : state := State [] false false.

(** ** Generated root statements *)

Definition createMissingComponentHelper : node :=
  Fn FunctionDeclaration (Some "_missingComponent") [Identifier "name"]
    (BlockStatement
       [ReturnStatement
          (Fn FunctionExpression None []
             (BlockStatement
                [ThrowStatement
                   (NewExpression (Identifier "Error")
                      [BinaryExpression "+"
                         (BinaryExpression "+"
                            (Literal (LString "Component `"))
                            (Identifier "name"))
                         (Literal
                            (LString "` was not imported, exported, or given"))])]))]).

(** ** Vocabulary of the properties *)

(** Induction on trees, with the hypothesis for every child. *)
Fixpoint node_ind (P : node → Prop)
    (step : ∀ h kids, Forall P kids → P (Node h kids)) (n : node) : P n :=
  match n with
  | Node h kids =>
      step h kids
        ((fix all (l : list node) : Forall P l :=
            match l with
            | [] => List.Forall_nil P
            | k :: l => List.Forall_cons P k l (node_ind P step k) (all l)
            end) kids)
  end.

(** A node that occurs in a tree: the tree itself, or a node that occurs in
    one of its children. *)
Inductive occurs (e : node) : node → Prop :=
| occurs_here : occurs e e
| occurs_child h kids k : k ∈ kids → occurs e k → occurs e (Node h kids).

(** A frame grows: it keeps the names it has. *)
Definition grows (s s' : scope) : Prop :=
  objects s ⊆ objects s' ∧ components s ⊆ components s' ∧ tags s ⊆ tags s'.

(** The node types that entering and leaving do nothing for. *)
Definition inert (h : header) : bool :=
  match h with
  | TFunction _ _ | TJSXElement _ _ _ => false
  | _ => true
  end.

(** A function whose body starts with the declaration of [_components]
    merged from a defaults object and the provider call. *)
Definition providerMerged (m : node) : Prop :=
  ∃ type id params defaults parts more stmts,
    m = Fn type id params
          (BlockStatement
             (VariableDeclaration "const"
                (VariableDeclarator (Identifier "_components")
                   (CallExpression
                      (MemberExpression (Identifier "Object") (Identifier "assign") false)
                      (ObjectExpression defaults
                       :: CallExpression (Identifier "_provideComponents") []
                       :: parts))
                 :: more)
              :: stmts)).

Section recmaJsxRewrite.

(** [name] of estree-util-is-identifier-name, a package outside this
    repository. *)
Variable isIdentifierName : string → bool.

(** [analyze(tree).scope.declarations] of periscopic, a package outside
    this repository: the names bound at the outermost scope of the tree. *)
Variable analyze : Program → gset string.

(** [specifiersToObjectPattern] of
    [lib/util/estree-util-specifiers-to-object-pattern.js]. *)
Variable specifiersToObjectPattern : list node → node.

Variable options : RecmaJsxRewriteOptions.

Definition createImportProvider (source : option string)
    (format : option string) : node :=
  let specifiers :=
    [ImportSpecifier (Identifier "useMDXComponents")
       (Identifier "_provideComponents")] in
  if bool_decide (format = Some "function-body") then
    VariableDeclaration "const"
      [VariableDeclarator (specifiersToObjectPattern specifiers)
         (MemberExpression (Identifier "arguments") (Literal (LNumber 0)) true)]
  else
    ImportDeclaration specifiers
      (Literal (match source with Some s => LString s | None => LUndefined end)).

Section transform.

Variable topScope : gset string.

(** *** Entering a node *)

(** The frame that [stack[0]] holds after an element named by a member
    chain with leftmost identifier [id]. *)
Definition enterObject (id : string) (s : scope) : scope :=
  if negb (includes (objects s) id) && negb (bool_decide (id ∈ topScope))
  then Scope (objects s ++ [id]) (components s) (tags s)
  else s.

Definition enterComponent (name : string) (s : scope) : scope :=
  if negb (includes (components s) name) && negb (bool_decide (name ∈ topScope))
  then Scope (objects s) (components s ++ [name]) (tags s)
  else s.

Definition enterTag (name : string) (s : scope) : scope :=
  if negb (includes (tags s) name)
  then Scope (objects s) (components s) (tags s ++ [name])
  else s.

Definition onenter (h : header) (st : state) : header * state :=
  let st :=
    match h with
    | TFunction _ _ =>
        State (stack st ++ [emptyScope]) (useMissingComponentHelper st)
          (importProvider st)
    | _ => st
    end in
  match h, stack st with
  | TJSXElement name closing explicit, s :: rest =>
      match name with
      | JSXName (JSXMemberExpression object _) =>
          (h,
           State (enterObject (leftmost object) s :: rest)
             (useMissingComponentHelper st) (importProvider st))
      | JSXNamespacedName _ _ => (h, st)
      | JSXName (JSXIdentifier x) =>
          if isIdentifierName x && negb (startsLowercase x) then
            (h,
             State (enterComponent x s :: rest)
               (if negb (includes (components s) x)
                   && negb (bool_decide (x ∈ topScope))
                   && negb (bool_decide (x = "MDXLayout"))
                then true else useMissingComponentHelper st)
               (importProvider st))
          else if explicit then (h, st)
          else
            (TJSXElement (viaComponents x)
               (match closing with
                | Some _ => Some (viaComponents x)
                | None => None
                end)
               explicit,
             State (enterTag x s :: rest) (useMissingComponentHelper st)
               (importProvider st))
      end
  | _, _ => (h, st)
  end.

(** *** Leaving a node *)

(** [defaults]: a string fallback per tag, then a call of the helper per
    component other than [MDXLayout]. *)
Definition defaultsOf (s : scope) : list node :=
  map (λ name, Property "init" false (Identifier name) (Literal (LString name)))
      (tags s)
  ++ map (λ name,
            Property "init" false (Identifier name)
              (CallExpression (Identifier "_missingComponent")
                 [Literal (LString name)]))
         (filter (λ name, name ≠ "MDXLayout") (components s)).

(** [actual]: a binding per component, then one per object. *)
Definition actualOf (s : scope) : list node :=
  map (λ name,
         Property "init" (bool_decide (name ≠ "MDXLayout"))
           (Identifier (if bool_decide (name = "MDXLayout") then "wrapper" else name))
           (Identifier name))
      (components s)
  ++ map (λ name, Property "init" true (Identifier name) (Identifier name))
         (objects s).

(** [defaults.length > 0 || actual.length > 0]: whether leaving a function
    with this frame injects declarations. *)
Definition injects (s : scope) : bool :=
  bool_decide (0 < length (defaultsOf s)) || bool_decide (0 < length (actualOf s)).

(** [node.type === 'FunctionDeclaration' && node.id.name === 'MDXContent'];
    reading [name] off a missing [id] throws. *)
Definition isMDXContent (type : fntype) (id : option string) : result bool :=
  match type, id with
  | FunctionDeclaration, Some name => Ok (bool_decide (name = "MDXContent"))
  | FunctionDeclaration, None =>
      Throw (TypeError "Cannot read properties of null (reading 'name')")
  | _, _ => Ok false
  end.

(** The parts merged into [_components]. *)
Definition parametersOf (defaults : list node) (mdxContent : bool) : list node :=
  [ObjectExpression defaults]
  ++ (if truthy (providerImportSource options)
      then [CallExpression (Identifier "_provideComponents") []] else [])
  ++ (if mdxContent
      then [MemberExpression (Identifier "_props") (Identifier "components") false]
      else []).

Definition initOf (parameters : list node) : node :=
  if bool_decide (1 < length parameters) then
    CallExpression
      (MemberExpression (Identifier "Object") (Identifier "assign") false)
      parameters
  else default (Literal LUndefined) (parameters !! 0).

Definition declarationsOf (parameters actual : list node) : list node :=
  [VariableDeclarator (Identifier "_components") (initOf parameters)]
  ++ (if bool_decide (0 < length actual)
      then [VariableDeclarator (ObjectPattern actual) (Identifier "_components")]
      else []).

(** The statements of a function body, an implied return made explicit. *)
Definition blockOf (fbody : node) : list node :=
  match fbody with
  | Node TBlockStatement stmts => stmts
  | _ => [ReturnStatement fbody]
  end.

Definition onleave (n : node) (st : state) : result (node * state) :=
  match n with
  | Node (TFunction type id) children =>
      match pop (stack st) with
      | None => Throw (TypeError "Cannot read properties of undefined (reading 'tags')")
      | Some (s, stack') =>
          let defaults := defaultsOf s in
          let actual := actualOf s in
          if bool_decide (0 < length defaults) || bool_decide (0 < length actual)
          then
            mdxContent ← isMDXContent type id;
            let parameters := parametersOf defaults mdxContent in
            let declarations := declarationsOf parameters actual in
            match pop children with
            | None =>
                Throw (TypeError "Cannot read properties of undefined (reading 'type')")
            | Some (fbody, params) =>
                Ok (Fn type id params
                      (BlockStatement
                         (VariableDeclaration "const" declarations :: blockOf fbody)),
                    State stack' (useMissingComponentHelper st)
                      (importProvider st || truthy (providerImportSource options)))
            end
          else Ok (n, State stack' (useMissingComponentHelper st) (importProvider st))
      end
  | _ => Ok (n, st)
  end.

(** *** The walk: enter, children in order, leave *)

Fixpoint visit (n : node) (st : state) {struct n} : result (node * state) :=
  match n with
  | Node h kids =>
      let '(h1, st1) := onenter h st in
      '(kids', st2) ←
        (fix visit_list (l : list node) (st : state) {struct l}
           : result (list node * state) :=
           match l with
           | [] => Ok ([], st)
           | k :: l =>
               '(k', st) ← visit k st;
               '(l', st) ← visit_list l st;
               Ok (k' :: l', st)
           end) kids st1;
      onleave (Node h1 kids') st2
  end.

Fixpoint visit_list (l : list node) (st : state) {struct l}
    : result (list node * state) :=
  match l with
  | [] => Ok ([], st)
  | k :: l =>
      '(k', st) ← visit k st;
      '(l', st) ← visit_list l st;
      Ok (k' :: l', st)
  end.

(** *** The states of a walk

    The walk moves from state to state by entering and leaving nodes.  The
    states it can be in are among the ones reached from the initial state
    by such steps. *)

Inductive reachable : state → Prop :=
| reachable_initial : reachable initialState
| reachable_enter h st :
    reachable st → reachable (onenter h st).2
| reachable_leave n st n' st' :
    reachable st → onleave n st = Ok (n', st') → reachable st'.

(** No name of the top scope among the objects and components of a frame. *)
Definition shadowsNothing (s : scope) : Prop :=
  ∀ x, x ∈ topScope → (x ∉ objects s) ∧ (x ∉ components s).

(** While a function is open, the walk of [n] returns: it changes only the
    outermost frame, which grows, and may raise the helper flag. *)
Definition walksOpen (n : node) : Prop :=
  ∀ s rest u i, ∃ n' s' u',
    visit n (State (s :: rest) u i)
    = Ok (n', State (s' :: rest) u' i)
    ∧ grows s s' ∧ (u = true → u' = true).

(** The walk of [n] below an open function returns with [x] among the tags
    of the outermost frame. *)
Definition records (x : string) (n : node) : Prop :=
  ∀ s rest u i, ∃ n' s' u',
    visit n (State (s :: rest) u i)
    = Ok (n', State (s' :: rest) u' i)
    ∧ x ∈ tags s'.

End transform.

Definition transform (tree : Program) : result Program :=
  let topScope := analyze tree in
  '(stmts, st) ← visit_list topScope (body tree) initialState;
  let stmts :=
    if useMissingComponentHelper st
    then createMissingComponentHelper :: stmts else stmts in
  let stmts :=
    if importProvider st
    then createImportProvider (providerImportSource options) (outputFormat options)
         :: stmts
    else stmts in
  Ok (mkProgram stmts).

End recmaJsxRewrite.

(** ** Identifier names on ASCII

    The identifier test of the pass is a parameter of the development.  On
    ASCII names an identifier name is a letter, [$] or [_] followed by
    letters, digits, [$] and [_].  The examples run the pass with this
    test, and the evaluator below accepts a name where JavaScript wants an
    identifier name only if it passes it. *)

Definition asciiStart (c : ascii) : bool :=
  (Ascii.leb "a"%char c && Ascii.leb c "z"%char)
  || (Ascii.leb "A"%char c && Ascii.leb c "Z"%char)
  || Ascii.eqb c "$"%char || Ascii.eqb c "_"%char.

Definition asciiCont (c : ascii) : bool :=
  asciiStart c || (Ascii.leb "0"%char c && Ascii.leb c "9"%char).

Fixpoint asciiAllCont (s : string) : bool :=
  match s with
  | EmptyString => true
  | String c s => asciiCont c && asciiAllCont s
  end.

Definition asciiIdentifierName (s : string) : bool :=
  match s with
  | EmptyString => false
  | String c s => asciiStart c && asciiAllCont s
  end.

(** ** Running generated code

    The meaning of the fragment of JavaScript that the generated statements
    are written in: string literals, identifiers, [+] on strings, object
    literals, member access, calls, [Object.assign], function expressions,
    [new Error(message)], [return], [throw] and blocks.  An object is the
    finite map of its properties.  Evaluation is bounded by [fuel]; [None]
    marks code outside the fragment, or fuel that ran out.  An [Identifier]
    node whose name is no ASCII identifier name is outside the fragment
    wherever it stands, as a variable, a parameter, a property key or the
    property of a member access: printed, it is not an identifier. *)

#[local] Unset Elimination Schemes.
Inductive value : Type :=
| VUndefined
| VString (s : string)
| VError (message : string)
| VObject (properties : gmap string value)
| VFunction (params : list string) (fbody : node) (env : gmap string value).
#[local] Set Elimination Schemes.

Inductive outcome : Type :=
| Value (v : value)
| Raised (v : value).

Inductive completion : Type :=
| Normal
| Return (v : value)
| Thrown (v : value).

Fixpoint paramNames (params : list node) : option (list string) :=
  match params with
  | [] => Some []
  | Node (TIdentifier x) [] :: params =>
      if asciiIdentifierName x then (x ::.) <$> paramNames params else None
  | _ => None
  end.

Fixpoint bindParams (params : list string) (args : list value)
    (env : gmap string value) : gmap string value :=
  match params, args with
  | [], _ => env
  | x :: params, [] => bindParams params [] (<[x := VUndefined]> env)
  | x :: params, v :: args => bindParams params args (<[x := v]> env)
  end.

(** Arguments are evaluated left to right, up to the first that throws. *)
Fixpoint evalAll (ev : node → option outcome) (l : list node)
    : option (list value + value) :=
  match l with
  | [] => Some (inl [])
  | e :: l =>
      match ev e with
      | Some (Value v) =>
          match evalAll ev l with
          | Some (inl vs) => Some (inl (v :: vs))
          | r => r
          end
      | Some (Raised v) => Some (inr v)
      | None => None
      end
  end.

(** The properties of an object literal, a later key overwriting an
    earlier one.  A key that is no identifier name is not evaluated. *)
Fixpoint evalProperties (ev : node → option outcome) (l : list node)
    (o : gmap string value) : option (gmap string value + value) :=
  match l with
  | [] => Some (inl o)
  | Node (TProperty kind _) [Node (TIdentifier key) []; e] :: l =>
      if bool_decide (kind = "init") && asciiIdentifierName key then
        match ev e with
        | Some (Value v) => evalProperties ev l (<[key := v]> o)
        | Some (Raised v) => Some (inr v)
        | None => None
        end
      else None
  | _ => None
  end.

Fixpoint execAll (ex : node → option completion) (l : list node) : option completion :=
  match l with
  | [] => Some Normal
  | s :: l =>
      match ex s with
      | Some Normal => execAll ex l
      | c => c
      end
  end.

(** A source of [Object.assign]: an object, or [undefined], which gives
    nothing. *)
Definition asSource (v : value) : option (gmap string value) :=
  match v with
  | VObject o => Some o
  | VUndefined => Some ∅
  | _ => None
  end.

(** [Object.assign(target, ...sources)]: each source in turn overwrites the
    properties gathered so far. *)
Definition objectAssign (target : gmap string value)
    (sources : list (gmap string value)) : gmap string value :=
  foldl (λ t o, o ∪ t) target sources.

Definition isObjectAssign (callee : node) : bool :=
  match callee with
  | Node (TMemberExpression false) [Node (TIdentifier o) []; Node (TIdentifier p) []] =>
      bool_decide (o = "Object") && bool_decide (p = "assign")
  | _ => false
  end.

Fixpoint eval (fuel : nat) (env : gmap string value) (e : node) {struct fuel}
    : option outcome :=
  match fuel with
  | 0 => None
  | S fuel =>
      match e with
      | Node (TLiteral (LString s)) [] => Some (Value (VString s))
      | Node (TIdentifier x) [] =>
          if asciiIdentifierName x then Value <$> env !! x else None
      | Node (TBinaryExpression op) [l; r] =>
          if bool_decide (op = "+") then
            match eval fuel env l with
            | Some (Value a) =>
                match eval fuel env r with
                | Some (Value b) =>
                    match a, b with
                    | VString a, VString b => Some (Value (VString (a +:+ b)))
                    | _, _ => None
                    end
                | r => r
                end
            | r => r
            end
          else None
      | Node (TFunction FunctionExpression _) kids =>
          match pop kids with
          | Some (fbody, params) =>
              names ← paramNames params; Some (Value (VFunction names fbody env))
          | None => None
          end
      | Node TNewExpression [Node (TIdentifier callee) []; message] =>
          if bool_decide (callee = "Error") && bool_decide (env !! "Error" = None) then
            match eval fuel env message with
            | Some (Value (VString s)) => Some (Value (VError s))
            | Some (Raised v) => Some (Raised v)
            | _ => None
            end
          else None
      | Node TObjectExpression properties =>
          match evalProperties (eval fuel env) properties ∅ with
          | Some (inl o) => Some (Value (VObject o))
          | Some (inr v) => Some (Raised v)
          | None => None
          end
      | Node (TMemberExpression false) [object; Node (TIdentifier property) []] =>
          if asciiIdentifierName property then
            match eval fuel env object with
            | Some (Value (VObject o)) =>
                Some (Value (default VUndefined (o !! property)))
            | Some (Raised v) => Some (Raised v)
            | _ => None
            end
          else None
      | Node TCallExpression (callee :: args) =>
          if isObjectAssign callee && bool_decide (env !! "Object" = None) then
            match evalAll (eval fuel env) args with
            | Some (inl (VObject target :: vs)) =>
                sources ← mapM asSource vs;
                Some (Value (VObject (objectAssign target sources)))
            | Some (inr v) => Some (Raised v)
            | _ => None
            end
          else
            match eval fuel env callee with
            | Some (Value (VFunction params fbody cenv)) =>
                match evalAll (eval fuel env) args with
                | Some (inl vs) =>
                    match exec fuel (bindParams params vs cenv) fbody with
                    | Some Normal => Some (Value VUndefined)
                    | Some (Return v) => Some (Value v)
                    | Some (Thrown v) => Some (Raised v)
                    | None => None
                    end
                | Some (inr v) => Some (Raised v)
                | None => None
                end
            | Some (Raised v) => Some (Raised v)
            | _ => None
            end
      | _ => None
      end
  end
with exec (fuel : nat) (env : gmap string value) (s : node) {struct fuel}
    : option completion :=
  match fuel with
  | 0 => None
  | S fuel =>
      match s with
      | Node TReturnStatement [e] =>
          match eval fuel env e with
          | Some (Value v) => Some (Return v)
          | Some (Raised v) => Some (Thrown v)
          | None => None
          end
      | Node TThrowStatement [e] =>
          match eval fuel env e with
          | Some (Value v) => Some (Thrown v)
          | Some (Raised v) => Some (Thrown v)
          | None => None
          end
      | Node TBlockStatement stmts => execAll (exec fuel env) stmts
      | _ => None
      end
  end.

(** Calling a function value: its body runs with the parameters bound in
    the environment the function was created in. *)
Definition call (fuel : nat) (f : value) (args : list value) : option completion :=
  match f with
  | VFunction params fbody env => exec fuel (bindParams params args env) fbody
  | _ => None
  end.

(** The function value that a function declaration binds at the root. *)
Definition declared (n : node) : option (string * value) :=
  match n with
  | Node (TFunction FunctionDeclaration (Some f)) kids =>
      match pop kids with
      | Some (fbody, params) =>
          if asciiIdentifierName f then
            names ← paramNames params; Some (f, VFunction names fbody ∅)
          else None
      | None => None
      end
  | _ => None
  end.

(** ** Example programs *)

(** [function MDXContent(_props) { return <div><h1>hi</h1><Foo/></div> }],
    with a provider source. *)
Definition scenario : Program :=
  mkProgram
    [Fn FunctionDeclaration (Some "MDXContent") [Identifier "_props"]
       (BlockStatement
          [ReturnStatement
             (JSXElement (JSXName (JSXIdentifier "div")) []
                (Some (JSXName (JSXIdentifier "div"))) false
                [JSXElement (JSXName (JSXIdentifier "h1")) []
                   (Some (JSXName (JSXIdentifier "h1"))) false
                   [Node (TOther "JSXText") []];
                 JSXElement (JSXName (JSXIdentifier "Foo")) [] None false []])])].

Definition scenarioOptions : RecmaJsxRewriteOptions :=
  Options None (Some "@mdx-js/react").

Definition scenarioResult : Program :=
  mkProgram
    [ImportDeclaration
       [ImportSpecifier (Identifier "useMDXComponents") (Identifier "_provideComponents")]
       (Literal (LString "@mdx-js/react"));
     createMissingComponentHelper;
     Fn FunctionDeclaration (Some "MDXContent") [Identifier "_props"]
       (BlockStatement
          [VariableDeclaration "const"
             [VariableDeclarator (Identifier "_components")
                (CallExpression
                   (MemberExpression (Identifier "Object") (Identifier "assign") false)
                   [ObjectExpression
                      [Property "init" false (Identifier "div") (Literal (LString "div"));
                       Property "init" false (Identifier "h1") (Literal (LString "h1"));
                       Property "init" false (Identifier "Foo")
                         (CallExpression (Identifier "_missingComponent")
                            [Literal (LString "Foo")])];
                    CallExpression (Identifier "_provideComponents") [];
                    MemberExpression (Identifier "_props") (Identifier "components")
                      false]);
              VariableDeclarator
                (ObjectPattern
                   [Property "init" true (Identifier "Foo") (Identifier "Foo")])
                (Identifier "_components")];
           ReturnStatement
             (JSXElement (viaComponents "div") [] (Some (viaComponents "div")) false
                [JSXElement (viaComponents "h1") [] (Some (viaComponents "h1")) false
                   [Node (TOther "JSXText") []];
                 JSXElement (JSXName (JSXIdentifier "Foo")) [] None false []])])].

(** The initializer of the scenario, and an environment to run it in: the
    helper as declared at the root, a provider that gives [h1] and [Foo],
    and props whose [components] give [Foo]. *)
Definition scenarioInitializer : node :=
  CallExpression
    (MemberExpression (Identifier "Object") (Identifier "assign") false)
    [ObjectExpression
       [Property "init" false (Identifier "div") (Literal (LString "div"));
        Property "init" false (Identifier "h1") (Literal (LString "h1"));
        Property "init" false (Identifier "Foo")
          (CallExpression (Identifier "_missingComponent") [Literal (LString "Foo")])];
     CallExpression (Identifier "_provideComponents") [];
     MemberExpression (Identifier "_props") (Identifier "components") false].

Definition scenarioEnvironment (helper : value) : gmap string value :=
  <["_missingComponent" := helper]>
    (<["_provideComponents" :=
         VFunction []
           (BlockStatement
              [ReturnStatement
                 (ObjectExpression
                    [Property "init" false (Identifier "h1")
                       (Literal (LString "Heading"));
                     Property "init" false (Identifier "Foo")
                       (Literal (LString "ProvidedFoo"))])])
           ∅]>
       (<["_props" :=
            VObject (<["components" := VObject (<["Foo" := VString "GivenFoo"]> ∅)]> ∅)]>
          ∅)).

(** [function Page() { return <Foo><Foo.Bar/><A-b/><h1/></Foo> }] *)
Definition pageChildren : list node :=
  [Node (TJSXElement (JSXName (JSXMemberExpression (JSXIdentifier "Foo") "Bar")) None
           false) [];
   Node (TJSXElement (JSXName (JSXIdentifier "A-b")) None false) [];
   Node (TJSXElement (JSXName (JSXIdentifier "h1")) None false) []].

Definition h1Element : node :=
  Node (TJSXElement (JSXName (JSXIdentifier "h1")) None false) [].

Definition pageBody : node :=
  BlockStatement
    [ReturnStatement
       (Node (TJSXElement (JSXName (JSXIdentifier "Foo")) None false) pageChildren)].

Definition page : node := Fn FunctionDeclaration (Some "Page") [] pageBody.

(** [function Page() { return <MDXLayout><h1/></MDXLayout> }] *)
Definition layoutBody : node :=
  BlockStatement
    [ReturnStatement
       (Node (TJSXElement (JSXName (JSXIdentifier "MDXLayout")) None false) [h1Element])].

Definition layoutPage : node := Fn FunctionDeclaration (Some "Page") [] layoutBody.

(** ** Vocabulary of the further properties *)

(** Whether a tree holds a function node. *)
Fixpoint hasFunction (n : node) : bool :=
  match n with
  | Node h kids =>
      match h with
      | TFunction _ _ => true
      | _ =>
          (fix any (l : list node) : bool :=
             match l with
             | [] => false
             | k :: l => hasFunction k || any l
             end) kids
      end
  end.

(** Every function that is not inside another function has a body and, if
    it is a declaration, a name. *)
Fixpoint outermostNamed (n : node) : bool :=
  match n with
  | Node h kids =>
      match h with
      | TFunction type id =>
          match type, id with
          | FunctionDeclaration, None => false
          | _, _ => true
          end
          && match kids with
             | [] => false
             | _ :: _ => true
             end
      | _ =>
          (fix all (l : list node) : bool :=
             match l with
             | [] => true
             | k :: l => outermostNamed k && all l
             end) kids
      end
  end.

(** The key of a property whose key is an identifier. *)
Definition propertyKey (p : node) : option string :=
  match p with
  | Node (TProperty _ _) (Node (TIdentifier key) [] :: _) => Some key
  | _ => None
  end.

(** A frame is extended: each of its arrays is a prefix of the new one. *)
Definition extended (s s' : scope) : Prop :=
  objects s `prefix_of` objects s'
  ∧ components s `prefix_of` components s'
  ∧ tags s `prefix_of` tags s'.


(** The helper flag is set only if the frame has a component other than
    [MDXLayout]. *)
Definition helperUsed (s : scope) (u : bool) : Prop :=
  u = true → ∃ x, x ∈ components s ∧ x ≠ "MDXLayout".

(** A function whose body starts with the injected declaration, the
    defaults object of which calls the helper. *)
Definition callsHelper (options : RecmaJsxRewriteOptions) (m : node) : Prop :=
  ∃ type id params f mdx stmts x,
    m = Fn type id params
          (BlockStatement
             (VariableDeclaration "const"
                (declarationsOf (parametersOf options (defaultsOf f) mdx) (actualOf f))
              :: stmts))
    ∧ Property "init" false (Identifier x)
        (CallExpression (Identifier "_missingComponent") [Literal (LString x)])
      ∈ defaultsOf f.

(** The helper flag is set if the outermost frame has a component other
    than [MDXLayout]. *)
Definition helperDue (st : state) : Prop :=
  ∀ s rest x,
    stack st = s :: rest → x ∈ components s → x ≠ "MDXLayout" →
    useMissingComponentHelper st = true.

(** * Properties *)

(** ** Arrays *)

Lemma pop_nil {A : Type} : pop (@nil A) = None.
Proof. reflexivity. Qed.

Lemma pop_snoc {A : Type} (l : list A) (x : A) : pop (l ++ [x]) = Some (x, l).
Proof. unfold pop. rewrite reverse_snoc. simpl. by rewrite reverse_involutive. Qed.

Lemma pop_Some {A : Type} (l r : list A) (x : A) :
  pop l = Some (x, r) → l = r ++ [x].
Proof.
  unfold pop. destruct (reverse l) as [|y t] eqn:E; [done|].
  intros [= -> <-]. rewrite <- (reverse_involutive l), E.
  by rewrite reverse_cons.
Qed.

Lemma includes_true (l : list string) (x : string) : includes l x = true ↔ x ∈ l.
Proof. unfold includes. by rewrite bool_decide_eq_true. Qed.

Lemma includes_false (l : list string) (x : string) : includes l x = false ↔ x ∉ l.
Proof. unfold includes. by rewrite bool_decide_eq_false. Qed.

(** ** Results *)

Lemma bind_Ok {A B : Type} (m : result A) (f : A → result B) (b : B) :
  m ≫= f = Ok b ↔ ∃ a, m = Ok a ∧ f a = Ok b.
Proof.
  destruct m as [a|e]; simpl.
  - split; [eauto|]. by intros (? & [= ->] & ?).
  - split; [done|]. by intros (? & ? & ?).
Qed.

#[local] Arguments onenter : simpl never.
#[local] Arguments onleave : simpl never.
#[local] Arguments visit : simpl never.
#[local] Arguments visit_list : simpl never.

Section properties.

Context (isIdentifierName : string → bool) (options : RecmaJsxRewriteOptions)
  (topScope : gset string).

(** ** The walk, one step at a time *)

Lemma visit_eq (h : header) (kids : list node) (st : state) :
  visit isIdentifierName options topScope (Node h kids) st
  = let '(h1, st1) := onenter isIdentifierName topScope h st in
    '(kids', st2) ← visit_list isIdentifierName options topScope kids st1;
    onleave options (Node h1 kids') st2.
Proof. reflexivity. Qed.

Lemma visit_list_cons (k : node) (l : list node) (st : state) :
  visit_list isIdentifierName options topScope (k :: l) st
  = '(k', st1) ← visit isIdentifierName options topScope k st;
    '(l', st2) ← visit_list isIdentifierName options topScope l st1;
    Ok (k' :: l', st2).
Proof. reflexivity. Qed.

Lemma onleave_other (h : header) (kids : list node) (st : state) :
  (∀ type id, h ≠ TFunction type id) →
  onleave options (Node h kids) st = Ok (Node h kids, st).
Proof. intros H. destruct h; try done. by destruct (H type id). Qed.

Lemma defaultsOf_nil (s : scope) :
  defaultsOf s = [] ↔ tags s = [] ∧ filter (λ x, x ≠ "MDXLayout") (components s) = [].
Proof.
  unfold defaultsOf. split.
  - intros [H1 H2]%app_eq_nil. split; by eapply fmap_nil_inv.
  - by intros [-> ->].
Qed.

Lemma actualOf_nil (s : scope) :
  actualOf s = [] ↔ components s = [] ∧ objects s = [].
Proof.
  unfold actualOf. split.
  - intros [H1 H2]%app_eq_nil. split; by eapply fmap_nil_inv.
  - by intros [-> ->].
Qed.

Lemma injects_false (s : scope) :
  injects s = false ↔ tags s = [] ∧ components s = [] ∧ objects s = [].
Proof.
  unfold injects. rewrite orb_false_iff, !bool_decide_eq_false.
  split.
  - intros [H1 H2].
    assert (defaultsOf s = []) as D by (destruct (defaultsOf s); simpl in *; [done|lia]).
    assert (actualOf s = []) as A by (destruct (actualOf s); simpl in *; [done|lia]).
    apply defaultsOf_nil in D as [? _]. apply actualOf_nil in A as [? ?]. done.
  - intros (Ht & Hc & Ho). unfold defaultsOf, actualOf.
    rewrite Ht, Hc, Ho. simpl. lia.
Qed.

Lemma onleave_function (type : fntype) (id : option string) (kids : list node)
    (stack' : list scope) (s : scope) (u i : bool) :
  onleave options (Node (TFunction type id) kids) (State (stack' ++ [s]) u i)
  = if injects s then
      mdxContent ← isMDXContent type id;
      match pop kids with
      | None => Throw (TypeError "Cannot read properties of undefined (reading 'type')")
      | Some (fbody, params) =>
          Ok (Fn type id params
                (BlockStatement
                   (VariableDeclaration "const"
                      (declarationsOf
                         (parametersOf options (defaultsOf s) mdxContent) (actualOf s))
                    :: blockOf fbody)),
              State stack' u (i || truthy (providerImportSource options)))
      end
    else Ok (Node (TFunction type id) kids, State stack' u i).
Proof. unfold onleave. simpl. by rewrite pop_snoc. Qed.

(** ** Frames only grow *)

Lemma grows_refl (s : scope) : grows s s.
Proof. by repeat split. Qed.

Lemma grows_trans (s1 s2 s3 : scope) : grows s1 s2 → grows s2 s3 → grows s1 s3.
Proof. intros (? & ? & ?) (? & ? & ?). repeat split; by etrans. Qed.

Lemma enterObject_grows (id : string) (s : scope) : grows s (enterObject topScope id s).
Proof.
  unfold enterObject. case_match; [|apply grows_refl].
  repeat split; simpl; set_solver +.
Qed.

Lemma enterComponent_grows (x : string) (s : scope) :
  grows s (enterComponent topScope x s).
Proof.
  unfold enterComponent. case_match; [|apply grows_refl].
  repeat split; simpl; set_solver +.
Qed.

Lemma enterTag_grows (x : string) (s : scope) : grows s (enterTag x s).
Proof.
  unfold enterTag. case_match; [|apply grows_refl].
  repeat split; simpl; set_solver +.
Qed.

Lemma enterTag_records (x : string) (s : scope) : x ∈ tags (enterTag x s).
Proof.
  unfold enterTag. destruct (includes (tags s) x) eqn:E; simpl.
  - by apply includes_true.
  - set_solver +.
Qed.

(** ** Entering a node while a function is open *)

Lemma onenter_inert (h : header) (st : state) :
  inert h = true → onenter isIdentifierName topScope h st = (h, st).
Proof. destruct h; try done; intros _; unfold onenter; by destruct (stack st). Qed.

Lemma onleave_inert (h : header) (kids : list node) (st : state) :
  inert h = true → onleave options (Node h kids) st = Ok (Node h kids, st).
Proof. by destruct h. Qed.

Lemma onenter_function (type : fntype) (id : option string) (st : state) :
  onenter isIdentifierName topScope (TFunction type id) st
  = (TFunction type id,
     State (stack st ++ [emptyScope]) (useMissingComponentHelper st) (importProvider st)).
Proof. unfold onenter. simpl. by destruct (stack st ++ [emptyScope]). Qed.

Lemma onenter_element_open (name : jsxname) (closing : option jsxname)
    (explicit : bool) (s : scope) (rest : list scope) (u i : bool) :
  ∃ name1 closing1 s1 u1,
    onenter isIdentifierName topScope (TJSXElement name closing explicit)
      (State (s :: rest) u i)
    = (TJSXElement name1 closing1 explicit, State (s1 :: rest) u1 i)
    ∧ grows s s1 ∧ (u = true → u1 = true).
Proof.
  unfold onenter. simpl.
  destruct name as [[x|object property]|ns nm].
  - destruct (isIdentifierName x && negb (startsLowercase x)).
    + eexists _, _, _, _. split; [done|]. split; [apply enterComponent_grows|].
      intros ->. by case_match.
    + destruct explicit.
      * eexists _, _, _, _. split; [done|]. split; [apply grows_refl|done].
      * eexists _, _, _, _. split; [done|]. split; [apply enterTag_grows|done].
  - eexists _, _, _, _. split; [done|]. split; [apply enterObject_grows|done].
  - eexists _, _, _, _. split; [done|]. split; [apply grows_refl|done].
Qed.

(** ** Walking below an open function *)

Lemma visit_list_open (l : list node) :
  Forall (walksOpen isIdentifierName options topScope) l →
  ∀ s rest u i, ∃ l' s' u',
    visit_list isIdentifierName options topScope l (State (s :: rest) u i)
    = Ok (l', State (s' :: rest) u' i)
    ∧ grows s s' ∧ (u = true → u' = true) ∧ length l' = length l.
Proof.
  induction 1 as [|k l Hk _ IH]; intros s rest u i.
  - exists [], s, u. split; [done|]. split; [apply grows_refl|done].
  - destruct (Hk s rest u i) as (k' & s1 & u1 & E1 & G1 & U1).
    destruct (IH s1 rest u1 i) as (l' & s2 & u2 & E2 & G2 & U2 & L2).
    exists (k' :: l'), s2, u2. rewrite visit_list_cons, E1. simpl. rewrite E2. simpl.
    split; [done|]. split; [by eapply grows_trans|]. split; [auto|]. by rewrite L2.
Qed.

Lemma injects_emptyScope : injects emptyScope = false.
Proof. reflexivity. Qed.

Lemma visit_open (n : node) : walksOpen isIdentifierName options topScope n.
Proof.
  induction n as [h kids IH] using node_ind. intros s rest u i. rewrite visit_eq.
  destruct (inert h) eqn:Hh.
  - rewrite onenter_inert by done.
    destruct (visit_list_open kids IH s rest u i) as (l' & s' & u' & -> & G & U & _).
    simpl. rewrite onleave_inert by done. by eexists _, _, _.
  - destruct h; try done.
    + rewrite onenter_function. simpl.
      destruct (visit_list_open kids IH s (rest ++ [emptyScope]) u i)
        as (l' & s' & u' & -> & G & U & _).
      simpl. rewrite (onleave_function type id l' (s' :: rest) emptyScope).
      rewrite injects_emptyScope. by eexists _, _, _.
    + destruct (onenter_element_open name closingName explicit s rest u i)
        as (name1 & closing1 & s1 & u1 & -> & G1 & U1).
      destruct (visit_list_open kids IH s1 rest u1 i) as (l' & s' & u' & -> & G & U & _).
      simpl. eexists _, _, _. split; [done|]. split; [by eapply grows_trans|auto].
Qed.

Lemma visit_list_app (l1 l2 : list node) (st : state) :
  visit_list isIdentifierName options topScope (l1 ++ l2) st
  = '(l1', st1) ← visit_list isIdentifierName options topScope l1 st;
    '(l2', st2) ← visit_list isIdentifierName options topScope l2 st1;
    Ok (l1' ++ l2', st2).
Proof.
  revert st. induction l1 as [|k l1 IH]; intros st.
  - simpl.
    change (visit_list isIdentifierName options topScope [] st)
      with (Ok ([] : list node, st)).
    simpl. by destruct (visit_list _ _ _ l2 st) as [[??]|].
  - simpl. rewrite !visit_list_cons.
    destruct (visit _ _ _ k st) as [[k' st1]|]; simpl; [|done].
    rewrite IH.
    destruct (visit_list _ _ _ l1 st1) as [[l1' st2]|]; simpl; [|done].
    by destruct (visit_list _ _ _ l2 st2) as [[l2' st3]|].
Qed.

Lemma visit_list_length (l : list node) :
  ∀ st l' st',
    visit_list isIdentifierName options topScope l st = Ok (l', st') →
    length l' = length l.
Proof.
  induction l as [|k l IH]; intros st l' st'.
  - by intros [= <- _].
  - rewrite visit_list_cons.
    intros ([k' st1] & _ & ([l1 st2] & E2 & [= <- _])%bind_Ok)%bind_Ok.
    simpl. f_equal. by eapply IH.
Qed.

(** ** Elements outside every function *)

(** C10: a JSX element met while no function frame is open is neither
    classified nor changed: entering it returns the element and the state as
    they were, and after the walk of its attributes and children the element
    still has its opening and closing names. *)
Theorem element_outside_functions (name : jsxname) (attributes kids : list node)
    (closing : option jsxname) (explicit u i : bool) :
  onenter isIdentifierName topScope (TJSXElement name closing explicit) (State [] u i)
  = (TJSXElement name closing explicit, State [] u i)
  ∧ ∀ n' st',
      visit isIdentifierName options topScope
        (JSXElement name attributes closing explicit kids) (State [] u i)
      = Ok (n', st') →
      ∃ attributes' kids' st1,
        n' = JSXElement name attributes' closing explicit kids'
        ∧ visit_list isIdentifierName options topScope attributes (State [] u i)
          = Ok (attributes', st1)
        ∧ visit_list isIdentifierName options topScope kids st1 = Ok (kids', st').
Proof.
  split; [reflexivity|].
  intros n' st'. unfold JSXElement. rewrite visit_eq.
  change (onenter isIdentifierName topScope (TJSXElement name closing explicit)
            (State [] u i))
    with (TJSXElement name closing explicit, State [] u i).
  cbv beta iota. rewrite visit_list_app.
  destruct (visit_list _ _ _ attributes _) as [[attributes' st1]|]; simpl; [|done].
  destruct (visit_list _ _ _ kids st1) as [[kids' st2]|] eqn:E2; simpl; [|done].
  rewrite onleave_other by done. intros [= <- <-]. by exists attributes', kids', st1.
Qed.

(** ** Leaving a function *)

(** C7: leaving a function whose popped frame has empty tags, components
    and objects returns the function as it was, the frame popped and the
    flags untouched.  Whenever leaving a function returns, either the
    function is unchanged, or its frame is non-empty and its body is a
    block that starts with the injected declaration, followed by the old
    statements, or by an explicit return of the old expression body. *)
Theorem no_injection_without_names (type : fntype) (id : option string)
    (params : list node) (fbody : node) (stack' : list scope) (u i : bool) :
  onleave options (Fn type id params fbody) (State (stack' ++ [Scope [] [] []]) u i)
  = Ok (Fn type id params fbody, State stack' u i)
  ∧ ∀ s n' st',
      onleave options (Fn type id params fbody) (State (stack' ++ [s]) u i)
      = Ok (n', st') →
      (n' = Fn type id params fbody ∧ tags s = [] ∧ components s = [] ∧ objects s = [])
      ∨ (¬ (tags s = [] ∧ components s = [] ∧ objects s = [])
         ∧ ∃ declaration,
             n' = Fn type id params
                    (BlockStatement
                       (declaration ::
                        match fbody with
                        | Node TBlockStatement stmts => stmts
                        | _ => [ReturnStatement fbody]
                        end))).
Proof.
  unfold Fn at 1 3. rewrite !onleave_function. split; [reflexivity|].
  intros s n' st'. rewrite onleave_function.
  destruct (injects s) eqn:E.
  - intros (mdx & _ & H)%bind_Ok. rewrite pop_snoc in H. injection H as <- <-.
    right. split; [|by eexists].
    intros H%injects_false. congruence.
  - intros [= <- <-]. left. by apply injects_false in E as (? & ? & ?).
Qed.

Lemma injects_true (s : scope) :
  injects s = true ↔ tags s ≠ [] ∨ components s ≠ [] ∨ objects s ≠ [].
Proof.
  rewrite <- not_false_iff_true, injects_false.
  split.
  - intros H. destruct (tags s); [|by left]. destruct (components s); [|by right; left].
    destruct (objects s); [|by right; right]. by destruct H.
  - by intros [H|[H|H]] (? & ? & ?).
Qed.

(** ** The merge of the parts *)

Lemma objectAssign_snoc (target : gmap string value)
    (sources : list (gmap string value)) (o : gmap string value) (k : string) :
  objectAssign target (sources ++ [o]) !! k
  = match o !! k with
    | Some v => Some v
    | None => objectAssign target sources !! k
    end.
Proof.
  unfold objectAssign. rewrite foldl_snoc, lookup_union.
  destruct (o !! k) as [v|]; [|by rewrite (left_id None _)].
  by destruct (foldl _ target sources !! k).
Qed.

Lemma eval_Object_assign (fuel : nat) (env : gmap string value) (parts : list node)
    (target : gmap string value) (values : list value)
    (sources : list (gmap string value)) :
  env !! "Object" = None →
  evalAll (eval fuel env) parts = Some (inl (VObject target :: values)) →
  mapM asSource values = Some sources →
  eval (S fuel) env
    (CallExpression
       (MemberExpression (Identifier "Object") (Identifier "assign") false) parts)
  = Some (Value (VObject (objectAssign target sources))).
Proof.
  intros HO Hparts Hsources. simpl. rewrite HO. simpl.
  by rewrite Hparts, Hsources.
Qed.

(** C9: the initializer of the injected [_components], for every function
    that receives one.  Its parts are, in this order, the defaults object,
    the provider call when a provider source is configured, and the props
    access when the function is a declaration named [MDXContent].  One part
    alone is the initializer itself.  Several parts are the arguments, in
    that order, of a call of [Object.assign]: where the parts evaluate to
    objects (or, after the first, to [undefined]), the initializer evaluates
    to their merge, in which a property has the value that the last part
    with that property gives it. *)
Theorem components_initializer (type : fntype) (id : option string)
    (params : list node) (fbody : node) (stack' : list scope) (s : scope)
    (u i mdxContent : bool) :
  tags s ≠ [] ∨ components s ≠ [] ∨ objects s ≠ [] →
  isMDXContent type id = Ok mdxContent →
  ∃ parts init more,
    parts
    = [ObjectExpression (defaultsOf s)]
      ++ (if truthy (providerImportSource options)
          then [CallExpression (Identifier "_provideComponents") []] else [])
      ++ (if mdxContent
          then [MemberExpression (Identifier "_props") (Identifier "components") false]
          else [])
    ∧ init
      = match parts with
        | [part] => part
        | _ =>
            CallExpression
              (MemberExpression (Identifier "Object") (Identifier "assign") false)
              parts
        end
    ∧ onleave options (Fn type id params fbody) (State (stack' ++ [s]) u i)
      = Ok (Fn type id params
              (BlockStatement
                 (VariableDeclaration "const"
                    (VariableDeclarator (Identifier "_components") init :: more)
                  :: blockOf fbody)),
            State stack' u (i || truthy (providerImportSource options)))
    ∧ (∀ fuel env target values sources,
         1 < length parts →
         env !! "Object" = None →
         evalAll (eval fuel env) parts = Some (inl (VObject target :: values)) →
         mapM asSource values = Some sources →
         eval (S fuel) env init
         = Some (Value (VObject (objectAssign target sources))))
    ∧ (∀ target sources o k,
         objectAssign target (sources ++ [o]) !! k
         = match o !! k with
           | Some v => Some v
           | None => objectAssign target sources !! k
           end).
Proof.
  intros Hs%injects_true Hm. eexists _, _, _. split; [reflexivity|].
  split; [reflexivity|]. split; [|split].
  - unfold Fn at 1. rewrite onleave_function, Hs, Hm. simpl. rewrite pop_snoc.
    unfold declarationsOf, parametersOf, initOf. simpl.
    by destruct (truthy (providerImportSource options)), mdxContent.
  - intros fuel env target values sources Hlen HO Hparts Hsources.
    destruct (truthy (providerImportSource options)), mdxContent;
      simpl in Hlen; try lia; by eapply eval_Object_assign.
  - apply objectAssign_snoc.
Qed.

(** C5, as the code has it: leaving a function declaration named
    [MDXContent] with a non-empty frame makes the initializer a call of
    [Object.assign] whose last argument is the member access
    [_props.components]: the property [components] of the identifier
    [_props], whatever the parameters of the function are. *)
Theorem mdxcontent_props_last (params : list node) (fbody : node)
    (stack' : list scope) (s : scope) (u i : bool) :
  tags s ≠ [] ∨ components s ≠ [] ∨ objects s ≠ [] →
  ∃ parts more,
    onleave options (Fn FunctionDeclaration (Some "MDXContent") params fbody)
      (State (stack' ++ [s]) u i)
    = Ok (Fn FunctionDeclaration (Some "MDXContent") params
            (BlockStatement
               (VariableDeclaration "const"
                  (VariableDeclarator (Identifier "_components")
                     (CallExpression
                        (MemberExpression (Identifier "Object")
                           (Identifier "assign") false)
                        (parts
                         ++ [MemberExpression (Identifier "_props")
                               (Identifier "components") false]))
                   :: more)
                :: blockOf fbody)),
          State stack' u (i || truthy (providerImportSource options))).
Proof.
  intros Hs%injects_true.
  unfold Fn at 1. rewrite onleave_function, Hs. simpl. rewrite pop_snoc.
  unfold declarationsOf, parametersOf, initOf. simpl.
  destruct (truthy (providerImportSource options)); simpl.
  - by eexists [_; _], _.
  - by eexists [_], _.
Qed.

End properties.

(** ** The missing-component helper *)

(** C4: the helper is a function of the one parameter [name].  Calling it
    returns (it does not throw) a function of no parameters that has
    captured [name]; calling that function, with any arguments, throws an
    [Error] whose message is ["Component `"], then the value of [name],
    then ["` was not imported, exported, or given"].  Fuel 3 is enough for
    the first call and fuel 6 for the second. *)
Theorem missing_component_helper (name : string) (fuel : nat) :
  ∃ fbody inner,
    createMissingComponentHelper
    = Fn FunctionDeclaration (Some "_missingComponent") [Identifier "name"] fbody
    ∧ declared createMissingComponentHelper
      = Some ("_missingComponent", VFunction ["name"] fbody ∅)
    ∧ call (3 + fuel) (VFunction ["name"] fbody ∅) [VString name]
      = Some (Return (VFunction [] inner (<["name" := VString name]> ∅)))
    ∧ ∀ args,
        call (6 + fuel) (VFunction [] inner (<["name" := VString name]> ∅)) args
        = Some (Thrown
                  (VError (("Component `" +:+ name)
                           +:+ "` was not imported, exported, or given"))).
Proof.
  eexists _, _. split; [reflexivity|]. split; [reflexivity|].
  split; [reflexivity|]. intros args. reflexivity.
Qed.

Section frames.

Context (isIdentifierName : string → bool) (options : RecmaJsxRewriteOptions)
  (topScope : gset string).

(** ** Invariants of the frames *)

Section frame_invariant.

Variable P : scope → Prop.
Hypothesis P_empty : P emptyScope.
Hypothesis P_object : ∀ x s, P s → P (enterObject topScope x s).
Hypothesis P_component : ∀ x s, P s → P (enterComponent topScope x s).
Hypothesis P_tag : ∀ x s, P s → P (enterTag x s).

Lemma onenter_frames (h : header) (st : state) :
  Forall P (stack st) →
  Forall P (stack (onenter isIdentifierName topScope h st).2).
Proof using Type*.
  intros H. destruct (inert h) eqn:Hh.
  - by rewrite onenter_inert.
  - destruct h; try done.
    + rewrite onenter_function. simpl. apply Forall_app. split; [done|].
      by constructor.
    + destruct st as [[|s rest] u i]; [done|].
      apply Forall_cons in H as [Hs Hrest].
      unfold onenter. simpl.
      destruct name as [[x|object property]|ns nm]; simpl.
      * destruct (isIdentifierName x && negb (startsLowercase x)); simpl.
        { constructor; auto. }
        destruct explicit; simpl; constructor; auto.
      * constructor; auto.
      * constructor; auto.
Qed.

Lemma onleave_frames (n : node) (st : state) (n' : node) (st' : state) :
  onleave options n st = Ok (n', st') →
  Forall P (stack st) → Forall P (stack st').
Proof using Type*.
  destruct n as [h kids]. destruct (inert h) eqn:Hh.
  - rewrite onleave_inert by done. by intros [= _ <-].
  - destruct h; try done.
    + unfold onleave. destruct (pop (stack st)) as [[s stack']|] eqn:E; [|done].
      apply pop_Some in E. rewrite E. intros H [H' _]%Forall_app.
      destruct (_ || _) in H.
      * apply bind_Ok in H as (mdx & _ & H).
        destruct (pop kids) as [[??]|]; [|done]. by injection H as _ <-.
      * by injection H as _ <-.
    + rewrite onleave_other by done. by intros [= _ <-].
Qed.

Lemma reachable_frames (st : state) :
  reachable isIdentifierName options topScope st → Forall P (stack st).
Proof using Type*.
  induction 1 as [|h st _ IH|n st n' st' _ IH E].
  - constructor.
  - by apply onenter_frames.
  - by eapply onleave_frames.
Qed.

End frame_invariant.

Lemma enterObject_objects (x : string) (s : scope) :
  objects (enterObject topScope x s)
  = (if includes (objects s) x || bool_decide (x ∈ topScope)
     then objects s else objects s ++ [x])
  ∧ components (enterObject topScope x s) = components s
  ∧ tags (enterObject topScope x s) = tags s.
Proof.
  unfold enterObject.
  by destruct (includes (objects s) x), (bool_decide (x ∈ topScope)).
Qed.

Lemma enterComponent_components (x : string) (s : scope) :
  components (enterComponent topScope x s)
  = (if includes (components s) x || bool_decide (x ∈ topScope)
     then components s else components s ++ [x])
  ∧ objects (enterComponent topScope x s) = objects s
  ∧ tags (enterComponent topScope x s) = tags s.
Proof.
  unfold enterComponent.
  by destruct (includes (components s) x), (bool_decide (x ∈ topScope)).
Qed.

Lemma enterTag_tags (x : string) (s : scope) :
  tags (enterTag x s) = (if includes (tags s) x then tags s else tags s ++ [x])
  ∧ objects (enterTag x s) = objects s
  ∧ components (enterTag x s) = components s.
Proof. unfold enterTag. by destruct (includes (tags s) x). Qed.

(** C2, as the code has it.  In every state of a walk, no frame holds a name
    of the top scope among its objects or its components: entering an
    element named by a component name that the top scope binds, or by a
    member chain whose leftmost identifier the top scope binds, changes
    neither the element nor the state.  Tags are not filtered: entering an
    element, not marked as explicit JSX, whose name is an identifier that
    is no component name appends the name to the tags of the outermost
    frame unless it is there, whether or not the top scope binds it. *)
Theorem top_scope_names_not_tracked :
  (∀ st s x,
     reachable isIdentifierName options topScope st → s ∈ stack st → x ∈ topScope →
     (x ∉ objects s) ∧ (x ∉ components s))
  ∧ (∀ x closing explicit st,
       x ∈ topScope → isIdentifierName x && negb (startsLowercase x) = true →
       onenter isIdentifierName topScope
         (TJSXElement (JSXName (JSXIdentifier x)) closing explicit) st
       = (TJSXElement (JSXName (JSXIdentifier x)) closing explicit, st))
  ∧ (∀ object property closing explicit st,
       leftmost object ∈ topScope →
       onenter isIdentifierName topScope
         (TJSXElement (JSXName (JSXMemberExpression object property)) closing explicit) st
       = (TJSXElement (JSXName (JSXMemberExpression object property)) closing explicit,
          st))
  ∧ (∀ x closing s rest u i,
       isIdentifierName x && negb (startsLowercase x) = false →
       ∃ h1,
         onenter isIdentifierName topScope
           (TJSXElement (JSXName (JSXIdentifier x)) closing false)
           (State (s :: rest) u i)
         = (h1,
            State
              (Scope (objects s) (components s)
                 (if includes (tags s) x then tags s else tags s ++ [x])
               :: rest)
              u i)
         ∧ x ∈ (if includes (tags s) x then tags s else tags s ++ [x])).
Proof.
  split; [|split; [|split]].
  - intros st s x Hr Hs Hx.
    assert (Forall (shadowsNothing topScope) (stack st)) as H.
    { apply reachable_frames; [| | | |done].
      - intros y _. split; apply not_elem_of_nil.
      - intros y f Hf z Hz. destruct (enterObject_objects y f) as (-> & -> & _).
        destruct (Hf z Hz) as [Ho Hc]. split; [|done].
        destruct (includes (objects f) y) eqn:Ei; [done|]. simpl.
        case_bool_decide as Ey; [done|].
        apply not_elem_of_app. split; [done|]. apply not_elem_of_cons.
        split; [congruence|apply not_elem_of_nil].
      - intros y f Hf z Hz. destruct (enterComponent_components y f) as (-> & -> & _).
        destruct (Hf z Hz) as [Ho Hc]. split; [done|].
        destruct (includes (components f) y) eqn:Ei; [done|]. simpl.
        case_bool_decide as Ey; [done|].
        apply not_elem_of_app. split; [done|]. apply not_elem_of_cons.
        split; [congruence|apply not_elem_of_nil].
      - intros y f Hf z Hz. destruct (enterTag_tags y f) as (_ & -> & ->). auto. }
    rewrite Forall_forall in H. by apply (H s Hs x).
  - intros x closing explicit [[|s rest] u i] Hx Hc; [done|].
    unfold onenter. simpl. rewrite Hc. unfold enterComponent.
    rewrite (bool_decide_eq_true_2 (x ∈ topScope)) by done.
    rewrite !andb_false_r. simpl. by destruct s.
  - intros object property closing explicit [[|s rest] u i] Hx; [done|].
    unfold onenter. simpl. unfold enterObject.
    rewrite (bool_decide_eq_true_2 (leftmost object ∈ topScope)) by done.
    by rewrite andb_false_r.
  - intros x closing s rest u i Hc. unfold onenter. simpl. rewrite Hc.
    eexists. split.
    + unfold enterTag. destruct s as [o c t]. simpl. by destruct (includes t x).
    + destruct (includes (tags s) x) eqn:E; [by apply includes_true|].
      apply elem_of_app. right. apply list_elem_of_here.
Qed.

(** ** The walk stays among the reachable states *)

Section preserved.

Variable R : state → state → Prop.
Hypothesis R_refl : ∀ st, R st st.
Hypothesis R_trans : ∀ a b c, R a b → R b c → R a c.
Hypothesis R_enter : ∀ h st, R st (onenter isIdentifierName topScope h st).2.
Hypothesis R_leave : ∀ n st n' st', onleave options n st = Ok (n', st') → R st st'.

Lemma visit_list_preserves (l : list node) :
  Forall (λ k, ∀ st k' st',
            visit isIdentifierName options topScope k st = Ok (k', st') → R st st') l →
  ∀ st l' st',
    visit_list isIdentifierName options topScope l st = Ok (l', st') → R st st'.
Proof using R_refl R_trans.
  induction 1 as [|k l Hk _ IH]; intros st l' st'.
  - intros [= _ <-]. apply R_refl.
  - rewrite visit_list_cons.
    intros ([k' st1] & E1 & ([l1 st2] & E2 & [= _ <-])%bind_Ok)%bind_Ok.
    eapply R_trans; [by eapply Hk|by eapply IH].
Qed.

Lemma visit_preserves (n : node) :
  ∀ st n' st',
    visit isIdentifierName options topScope n st = Ok (n', st') → R st st'.
Proof using Type*.
  induction n as [h kids IH] using node_ind. intros st n' st'. rewrite visit_eq.
  pose proof (R_enter h st) as He.
  destruct (onenter isIdentifierName topScope h st) as [h1 st1]. simpl in He.
  intros ([l' st2] & E1 & E2)%bind_Ok.
  eapply R_trans; [exact He|]. eapply R_trans; [|by eapply R_leave].
  by eapply visit_list_preserves.
Qed.

End preserved.

Lemma visit_reachable (n : node) (st : state) (n' : node) (st' : state) :
  visit isIdentifierName options topScope n st = Ok (n', st') →
  reachable isIdentifierName options topScope st → reachable isIdentifierName options topScope st'.
Proof.
  apply (visit_preserves (λ a b, reachable isIdentifierName options topScope a
                  → reachable isIdentifierName options topScope b)); clear; auto.
  - intros h st. apply reachable_enter.
  - intros n st n' st' E H. by eapply reachable_leave.
Qed.

Lemma visit_list_reachable (l : list node) (st : state) (l' : list node) (st' : state) :
  visit_list isIdentifierName options topScope l st = Ok (l', st') →
  reachable isIdentifierName options topScope st → reachable isIdentifierName options topScope st'.
Proof.
  apply (visit_list_preserves (λ a b, reachable isIdentifierName options topScope a
                  → reachable isIdentifierName options topScope b)); auto.
  apply Forall_forall. intros k _ st0 k' st0'. apply visit_reachable.
Qed.

(** ** The walk of one node below an open function, in detail *)

Lemma visit_open_eq (h : header) (kids : list node) (s : scope)
    (rest : list scope) (u i : bool) :
  ∃ h1 s1 u1 extra kids' s' u',
    onenter isIdentifierName topScope h (State (s :: rest) u i)
    = (h1, State (s1 :: rest ++ extra) u1 i)
    ∧ visit_list isIdentifierName options topScope kids
        (State (s1 :: rest ++ extra) u1 i)
      = Ok (kids', State (s' :: rest ++ extra) u' i)
    ∧ visit isIdentifierName options topScope (Node h kids) (State (s :: rest) u i)
      = Ok (Node h1 kids', State (s' :: rest) u' i)
    ∧ grows s s1 ∧ grows s1 s' ∧ length kids' = length kids.
Proof.
  assert (Forall (walksOpen isIdentifierName options topScope) kids) as IH.
  { apply Forall_forall. intros k _. apply visit_open. }
  rewrite visit_eq. destruct (inert h) eqn:Hh.
  - rewrite onenter_inert by done.
    destruct (visit_list_open _ _ _ kids IH s rest u i) as (l' & s' & u' & E & G & U & L).
    exists h, s, u, [], l', s', u'. rewrite app_nil_r, E. simpl.
    rewrite onleave_inert by done. split; [done|]. split; [done|]. split; [done|].
    split; [apply grows_refl|done].
  - destruct h; try done.
    + rewrite onenter_function. simpl.
      destruct (visit_list_open _ _ _ kids IH s (rest ++ [emptyScope]) u i)
        as (l' & s' & u' & E & G & U & L).
      exists (TFunction type id), s, u, [emptyScope], l', s', u'. rewrite E. simpl.
      rewrite (onleave_function options type id l' (s' :: rest) emptyScope).
      rewrite injects_emptyScope. split; [done|]. split; [done|]. split; [done|].
      split; [apply grows_refl|done].
    + destruct (onenter_element_open isIdentifierName topScope name closingName
                  explicit s rest u i) as (name1 & closing1 & s1 & u1 & E0 & G1 & U1).
      rewrite E0.
      destruct (visit_list_open _ _ _ kids IH s1 rest u1 i)
        as (l' & s' & u' & E & G & U & L).
      exists (TJSXElement name1 closing1 explicit), s1, u1, [], l', s', u'.
      rewrite app_nil_r, E. simpl. rewrite onleave_other by done. done.
Qed.

(** ** Names that are never rewritten *)

(** C8, as the code has it: an element named by a namespaced name or by a
    member-access chain keeps its opening and closing names, on entering it
    and after the walk of its subtree.  For a chain, the leftmost
    identifier is appended to the objects of the outermost frame unless
    that frame already has it or the top scope binds it; nothing else
    changes.  In every state of a walk, no frame holds an object twice. *)
Theorem member_and_namespaced_names (object : jsxobject) (property ns nm : string)
    (closing : option jsxname) (explicit : bool) (kids : list node)
    (s : scope) (rest : list scope) (u i : bool) :
  (∀ st,
     onenter isIdentifierName topScope
       (TJSXElement (JSXNamespacedName ns nm) closing explicit) st
     = (TJSXElement (JSXNamespacedName ns nm) closing explicit, st))
  ∧ onenter isIdentifierName topScope
      (TJSXElement (JSXName (JSXMemberExpression object property)) closing explicit)
      (State (s :: rest) u i)
    = (TJSXElement (JSXName (JSXMemberExpression object property)) closing explicit,
       State
         (Scope
            (if includes (objects s) (leftmost object)
                || bool_decide (leftmost object ∈ topScope)
             then objects s else objects s ++ [leftmost object])
            (components s) (tags s)
          :: rest) u i)
  ∧ (∀ name,
       name = JSXNamespacedName ns nm
       ∨ name = JSXName (JSXMemberExpression object property) →
       ∃ kids' s' u',
         visit isIdentifierName options topScope
           (Node (TJSXElement name closing explicit) kids) (State (s :: rest) u i)
         = Ok (Node (TJSXElement name closing explicit) kids', State (s' :: rest) u' i))
  ∧ (∀ st f, reachable isIdentifierName options topScope st → f ∈ stack st → NoDup (objects f)).
Proof.
  assert (∀ st,
     onenter isIdentifierName topScope
       (TJSXElement (JSXNamespacedName ns nm) closing explicit) st
     = (TJSXElement (JSXNamespacedName ns nm) closing explicit, st)) as Hns.
  { intros st. unfold onenter. by destruct (stack st). }
  assert (onenter isIdentifierName topScope
      (TJSXElement (JSXName (JSXMemberExpression object property)) closing explicit)
      (State (s :: rest) u i)
    = (TJSXElement (JSXName (JSXMemberExpression object property)) closing explicit,
       State (enterObject topScope (leftmost object) s :: rest) u i)) as Hm
    by reflexivity.
  split; [done|]. split.
  { rewrite Hm. do 3 f_equal.
    destruct (enterObject_objects (leftmost object) s) as (Ho & Hc & Ht).
    destruct (enterObject topScope (leftmost object) s) as [o c t]. simpl in *.
    by rewrite Ho, Hc, Ht. }
  split.
  - intros name Hname.
    destruct (visit_open_eq (TJSXElement name closing explicit) kids s rest u i)
      as (h1 & s1 & u1 & extra & kids' & s' & u' & E0 & _ & E & _).
    exists kids', s', u'. rewrite E. do 3 f_equal.
    destruct Hname as [-> | ->].
    + rewrite Hns in E0. by injection E0 as <-.
    + rewrite Hm in E0. by injection E0 as <-.
  - intros st f Hr Hf.
    assert (Forall (λ f, NoDup (objects f)) (stack st)) as H.
    { apply reachable_frames; [| | | |done].
      - intros. apply NoDup_nil_2.
      - intros y g Hg. destruct (enterObject_objects y g) as (-> & _ & _).
        destruct (includes (objects g) y) eqn:Ei; [done|]. simpl.
        case_bool_decide; [done|].
        apply NoDup_app. split; [done|]. split; [|apply NoDup_singleton].
        intros z Hz ->%list_elem_of_singleton. by apply includes_false in Ei.
      - intros y g Hg. by destruct (enterComponent_components y g) as (_ & -> & _).
      - intros y g Hg. by destruct (enterTag_tags y g) as (_ & -> & _). }
    rewrite Forall_forall in H. by apply H.
Qed.

(** ** Tags *)

Lemma onenter_tag (x : string) (closing : option jsxname) (s : scope)
    (rest : list scope) (u i : bool) :
  startsLowercase x = true →
  onenter isIdentifierName topScope
    (TJSXElement (JSXName (JSXIdentifier x)) closing false) (State (s :: rest) u i)
  = (TJSXElement (viaComponents x) ((λ _, viaComponents x) <$> closing) false,
     State (enterTag x s :: rest) u i).
Proof.
  intros H. unfold onenter. simpl. rewrite H, andb_false_r. by destruct closing.
Qed.

Lemma visit_list_records (x : string) (k : node) (l : list node) :
  k ∈ l → records isIdentifierName options topScope x k →
  ∀ s rest u i, ∃ l' s' u',
    visit_list isIdentifierName options topScope l (State (s :: rest) u i)
    = Ok (l', State (s' :: rest) u' i)
    ∧ x ∈ tags s' ∧ length l' = length l.
Proof.
  intros Hk Hrec.
  assert (∀ l, Forall (walksOpen isIdentifierName options topScope) l) as Hopen.
  { intros l0. apply Forall_forall. intros n _. apply visit_open. }
  induction l as [|a l IH]; [by apply elem_of_nil in Hk|].
  intros s rest u i. rewrite visit_list_cons.
  apply elem_of_cons in Hk as [<-|Hk].
  - destruct (Hrec s rest u i) as (k' & s1 & u1 & -> & Hx). simpl.
    destruct (visit_list_open isIdentifierName options topScope l (Hopen l) s1 rest u1 i)
      as (l' & s2 & u2 & -> & (_ & _ & Ht) & _ & L).
    simpl. exists (k' :: l'), s2, u2. split; [done|]. split; [by apply Ht|].
    simpl. by rewrite L.
  - destruct (visit_open isIdentifierName options topScope a s rest u i)
      as (a' & s1 & u1 & -> & _ & _). simpl.
    destruct (IH Hk s1 rest u1 i) as (l' & s2 & u2 & -> & Hx & L). simpl.
    exists (a' :: l'), s2, u2. split; [done|]. split; [done|]. simpl. by rewrite L.
Qed.

Lemma visit_tag (x : string) (closing : option jsxname) (kids : list node)
    (s : scope) (rest : list scope) (u i : bool) :
  startsLowercase x = true →
  ∃ kids' s' u',
    visit isIdentifierName options topScope
      (Node (TJSXElement (JSXName (JSXIdentifier x)) closing false) kids)
      (State (s :: rest) u i)
    = Ok (Node (TJSXElement (viaComponents x) ((λ _, viaComponents x) <$> closing) false)
            kids',
          State (s' :: rest) u' i)
    ∧ x ∈ tags s' ∧ length kids' = length kids.
Proof.
  intros Hx.
  destruct (visit_open_eq (TJSXElement (JSXName (JSXIdentifier x)) closing false)
              kids s rest u i)
    as (h1 & s1 & u1 & extra & kids' & s' & u' & E0 & _ & E & _ & (_ & _ & Ht) & L).
  rewrite onenter_tag in E0 by done. injection E0 as <- <- Hrest <-.
  exists kids', s', u'. split; [done|]. split; [|done].
  apply Ht, enterTag_records.
Qed.

Lemma occurs_records (x : string) (closing : option jsxname) (kids : list node)
    (n : node) :
  startsLowercase x = true →
  occurs (Node (TJSXElement (JSXName (JSXIdentifier x)) closing false) kids) n →
  records isIdentifierName options topScope x n.
Proof.
  intros Hx. induction 1 as [|h l k Hk _ IH]; intros s rest u i.
  - destruct (visit_tag x closing kids s rest u i Hx) as (kids' & s' & u' & E & H & _).
    by eexists _, _, _.
  - destruct (visit_open_eq h l s rest u i)
      as (h1 & s1 & u1 & extra & l' & s' & u' & E0 & E1 & E & _ & _ & L).
    destruct (visit_list_records x k l Hk IH s1 (rest ++ extra) u1 i)
      as (l2 & s2 & u2 & E2 & H2 & _).
    rewrite E1 in E2. injection E2 as _ <- _.
    by eexists _, _, _.
Qed.

Lemma length_snoc_inv {A : Type} (l params : list A) (x : A) :
  length l = length (params ++ [x]) →
  ∃ params' x', l = params' ++ [x'] ∧ length params' = length params.
Proof.
  rewrite length_app. simpl. intros H.
  destruct (pop l) as [[x' params']|] eqn:E.
  - apply pop_Some in E as ->. exists params', x'. split; [done|].
    rewrite length_app in H. simpl in H. lia.
  - unfold pop in E. destruct (reverse l) eqn:Er; [|done].
    apply (f_equal length) in Er. rewrite length_reverse in Er. simpl in Er. lia.
Qed.

Lemma visit_list_elem (k : node) (l : list node) :
  k ∈ l →
  ∀ s rest u i l' st',
    visit_list isIdentifierName options topScope l (State (s :: rest) u i) = Ok (l', st') →
    ∃ k' s1 u1 st1,
      k' ∈ l'
      ∧ visit isIdentifierName options topScope k (State (s1 :: rest) u1 i) = Ok (k', st1).
Proof.
  induction l as [|a l IH]; intros Hk s rest u i l' st'; [by apply elem_of_nil in Hk|].
  rewrite visit_list_cons.
  destruct (visit_open isIdentifierName options topScope a s rest u i)
    as (a' & s1 & u1 & Ea & _).
  rewrite Ea. simpl.
  intros ([l1 st2] & El & [= <- <-])%bind_Ok.
  apply elem_of_cons in Hk as [->|Hk].
  - exists a', s, u, (State (s1 :: rest) u1 i). split; [apply list_elem_of_here|done].
  - destruct (IH Hk _ _ _ _ _ _ El) as (k' & s2 & u2 & st1 & Hk' & E).
    exists k', s2, u2, st1. split; [by apply list_elem_of_further|done].
Qed.

Lemma occurs_renamed (x : string) (closing : option jsxname) (kids : list node)
    (n : node) :
  startsLowercase x = true →
  occurs (Node (TJSXElement (JSXName (JSXIdentifier x)) closing false) kids) n →
  ∀ s rest u i n' st',
    visit isIdentifierName options topScope n (State (s :: rest) u i) = Ok (n', st') →
    ∃ kids',
      occurs
        (Node
           (TJSXElement (JSXName (JSXMemberExpression (JSXIdentifier "_components") x))
              (match closing with
               | Some _ =>
                   Some (JSXName (JSXMemberExpression (JSXIdentifier "_components") x))
               | None => None
               end)
              false)
           kids')
        n'
      ∧ length kids' = length kids.
Proof.
  intros Hx. induction 1 as [|h l k Hk _ IH]; intros s rest u i n' st' E.
  - destruct (visit_tag x closing kids s rest u i Hx) as (kids' & s' & u' & E' & _ & L).
    rewrite E' in E. injection E as <- _. exists kids'. split; [|done].
    destruct closing; apply occurs_here.
  - destruct (visit_open_eq h l s rest u i)
      as (h1 & s1 & u1 & extra & l' & s' & u' & E0 & E1 & E' & _).
    rewrite E' in E. injection E as <- _.
    destruct (visit_list_elem k l Hk _ _ _ _ _ _ E1) as (k' & s2 & u2 & st2 & Hk' & Ek).
    destruct (IH _ _ _ _ _ _ Ek) as (kids' & Hocc & L).
    exists kids'. split; [by eapply occurs_child|done].
Qed.

Lemma occurs_blockOf (name : jsxname) (closing : option jsxname) (explicit : bool)
    (kids : list node) (type : fntype) (id : option string) (params : list node)
    (fbody d : node) :
  occurs (Node (TJSXElement name closing explicit) kids) (Fn type id params fbody) →
  occurs (Node (TJSXElement name closing explicit) kids)
    (Fn type id params (BlockStatement (d :: blockOf fbody))).
Proof.
  intros H. inversion H as [Heq|h l k Hk Hinner [Hh Hl]].
  subst h l. apply elem_of_app in Hk as [Hk|Hk%list_elem_of_singleton].
  - eapply occurs_child; [|exact Hinner]. apply elem_of_app. by left.
  - subst k. eapply occurs_child; [apply elem_of_app; right; apply list_elem_of_here|].
    destruct fbody as [h l].
    assert (h = TBlockStatement ∨ blockOf (Node h l) = [ReturnStatement (Node h l)])
      as [->|Hb] by (destruct h; auto).
    + inversion Hinner as [Heq|h0 l0 k Hk Hk' [Hh Hl]].
      eapply occurs_child; [|exact Hk']. by apply list_elem_of_further.
    + rewrite Hb. eapply occurs_child; [apply list_elem_of_further, list_elem_of_here|].
      eapply occurs_child; [apply list_elem_of_here|done].
Qed.

(** C1: an element whose name is an identifier that starts with a lowercase
    letter and that is not marked as explicit JSX, met while a function is
    open.  Entering it rewrites its opening name, and its closing name when
    it has one, to the member access of [x] on [_components], and appends
    the name to the tags of the outermost frame unless it is there; the
    walk of the element returns it under these names around its walked
    attributes and children, with the name still recorded; a frame with the
    name among its tags yields the entry [<name>: "<name>"] in the defaults
    object.  For the outermost function that the element occurs in: the
    walk of its parameters and body returns a frame with the name among its
    tags; unless the function is a declaration without a name, the walk of
    the function returns it with these parameters and a body that starts
    with the declaration of [_components], whose defaults object has that
    entry, followed by the walked body, and the element occurs in it under
    its new names; for a declaration without a name the walk throws. *)
Theorem tag_routed_through_components (x : string) (attributes kids : list node)
    (closing : option jsxname) (s : scope) (rest : list scope) (u i : bool) :
  startsLowercase x = true →
  onenter isIdentifierName topScope
    (TJSXElement (JSXName (JSXIdentifier x)) closing false) (State (s :: rest) u i)
  = (TJSXElement (JSXName (JSXMemberExpression (JSXIdentifier "_components") x))
       (match closing with
        | Some _ => Some (JSXName (JSXMemberExpression (JSXIdentifier "_components") x))
        | None => None
        end)
       false,
     State
       (Scope (objects s) (components s)
          (if includes (tags s) x then tags s else tags s ++ [x])
        :: rest)
       u i)
  ∧ (∃ attributes' kids' s' u',
       visit isIdentifierName options topScope
         (JSXElement (JSXName (JSXIdentifier x)) attributes closing false kids)
         (State (s :: rest) u i)
       = Ok (JSXElement (JSXName (JSXMemberExpression (JSXIdentifier "_components") x))
               attributes'
               (match closing with
                | Some _ =>
                    Some (JSXName (JSXMemberExpression (JSXIdentifier "_components") x))
                | None => None
                end)
               false kids',
             State (s' :: rest) u' i)
       ∧ visit_list isIdentifierName options topScope (attributes ++ kids)
           (State
              (Scope (objects s) (components s)
                 (if includes (tags s) x then tags s else tags s ++ [x])
               :: rest)
              u i)
         = Ok (attributes' ++ kids', State (s' :: rest) u' i)
       ∧ x ∈ tags s'
       ∧ length attributes' = length attributes ∧ length kids' = length kids)
  ∧ (∀ f, x ∈ tags f →
       Property "init" false (Identifier x) (Literal (LString x)) ∈ defaultsOf f)
  ∧ (∀ type id params fbody u0 i0,
       occurs (JSXElement (JSXName (JSXIdentifier x)) attributes closing false kids)
         (Fn type id params fbody) →
       ∃ params' fbody' f u',
         visit_list isIdentifierName options topScope (params ++ [fbody])
           (State [emptyScope] u0 i0)
         = Ok (params' ++ [fbody'], State [f] u' i0)
         ∧ length params' = length params
         ∧ x ∈ tags f
         ∧ Property "init" false (Identifier x) (Literal (LString x)) ∈ defaultsOf f
         ∧ ((type = FunctionDeclaration → id ≠ None) →
            ∃ parts more kids',
              visit isIdentifierName options topScope (Fn type id params fbody)
                (State [] u0 i0)
              = Ok (Fn type id params'
                      (BlockStatement
                         (VariableDeclaration "const"
                            (VariableDeclarator (Identifier "_components")
                               (match parts with
                                | [] => ObjectExpression (defaultsOf f)
                                | _ =>
                                    CallExpression
                                      (MemberExpression (Identifier "Object")
                                         (Identifier "assign") false)
                                      (ObjectExpression (defaultsOf f) :: parts)
                                end)
                             :: more)
                          :: blockOf fbody')),
                    State [] u' (i0 || truthy (providerImportSource options)))
              ∧ occurs
                  (Node
                     (TJSXElement
                        (JSXName (JSXMemberExpression (JSXIdentifier "_components") x))
                        (match closing with
                         | Some _ =>
                             Some
                               (JSXName
                                  (JSXMemberExpression (JSXIdentifier "_components") x))
                         | None => None
                         end)
                        false)
                     kids')
                  (Fn type id params'
                     (BlockStatement
                        (VariableDeclaration "const"
                           (VariableDeclarator (Identifier "_components")
                              (match parts with
                               | [] => ObjectExpression (defaultsOf f)
                               | _ =>
                                   CallExpression
                                     (MemberExpression (Identifier "Object")
                                        (Identifier "assign") false)
                                     (ObjectExpression (defaultsOf f) :: parts)
                               end)
                            :: more)
                         :: blockOf fbody')))
              ∧ length kids' = length (attributes ++ kids))
         ∧ (type = FunctionDeclaration → id = None →
            visit isIdentifierName options topScope (Fn type id params fbody)
              (State [] u0 i0)
            = Throw (TypeError "Cannot read properties of null (reading 'name')"))).
Proof.
  intros Hx.
  assert (∀ f, x ∈ tags f →
       Property "init" false (Identifier x) (Literal (LString x)) ∈ defaultsOf f)
    as Hdefaults.
  { intros f Hf. apply elem_of_app. left. apply list_elem_of_fmap. by exists x. }
  assert (∀ f,
            enterTag x f
            = Scope (objects f) (components f)
                (if includes (tags f) x then tags f else tags f ++ [x])) as Htag.
  { intros f. unfold enterTag. destruct f as [o c t]. simpl.
    by destruct (includes t x). }
  split; [|split; [|split; [done|]]].
  - rewrite onenter_tag, Htag by done. by destruct closing.
  - destruct (visit_open_eq (TJSXElement (JSXName (JSXIdentifier x)) closing false)
                (attributes ++ kids) s rest u i)
      as (h1 & s1 & u1 & extra & l' & s' & u' & E0 & E1 & E & _ & (_ & _ & Ht) & L).
    rewrite onenter_tag in E0 by done. injection E0 as <- <- Hrest <-.
    rewrite <- Hrest in E1.
    exists (take (length attributes) l'), (drop (length attributes) l'), s', u'.
    unfold JSXElement. rewrite take_drop, <- Htag.
    split; [rewrite E; by destruct closing|]. split; [done|].
    split; [apply Ht, enterTag_records|].
    rewrite length_app in L. rewrite length_take, length_drop. lia.
  - intros type id params fbody u0 i0 Hocc.
    inversion Hocc as [Heq|h l k Hk Hinner [Hh Hl]].
    subst h l.
    pose proof (occurs_records x closing (attributes ++ kids) k Hx Hinner) as Hrec.
    destruct (visit_list_records x k (params ++ [fbody]) Hk Hrec emptyScope [] u0 i0)
      as (l' & f & u' & E & Hf & L).
    apply length_snoc_inv in L as (params' & fbody' & -> & L).
    exists params', fbody', f, u'.
    split; [done|]. split; [done|]. split; [done|]. split; [by apply Hdefaults|].
    assert (injects f = true) as Hinj.
    { apply injects_true. left. intros Ht. rewrite Ht in Hf. by apply elem_of_nil in Hf. }
    assert (visit isIdentifierName options topScope (Fn type id params fbody)
              (State [] u0 i0)
            = onleave options (Node (TFunction type id) (params' ++ [fbody']))
                (State ([] ++ [f]) u' i0)) as Ev.
    { unfold Fn at 1. rewrite visit_eq, onenter_function. simpl. by rewrite E. }
    rewrite Ev, (onleave_function options type id _ [] f), Hinj.
    split.
    + intros Hid.
      assert (∃ mdx, isMDXContent type id = Ok mdx) as [mdx Hmdx].
      { destruct type; simpl; eauto. destruct id; [eauto|]. by destruct Hid. }
      rewrite Hmdx. simpl. rewrite pop_snoc.
      assert (∃ kids',
                occurs
                  (Node
                     (TJSXElement
                        (JSXName (JSXMemberExpression (JSXIdentifier "_components") x))
                        (match closing with
                         | Some _ =>
                             Some
                               (JSXName
                                  (JSXMemberExpression (JSXIdentifier "_components") x))
                         | None => None
                         end)
                        false)
                     kids')
                  (Fn type id params' fbody')
                ∧ length kids' = length (attributes ++ kids)) as (kids' & Hres & Lk).
      { destruct (visit_list_elem k (params ++ [fbody]) Hk _ _ _ _ _ _ E)
          as (k' & s2 & u2 & st2 & Hk' & Ek).
        destruct (occurs_renamed x closing (attributes ++ kids) k Hx Hinner
                    _ _ _ _ _ _ Ek) as (kids' & Hres & Lk).
        exists kids'. split; [by eapply occurs_child|done]. }
      unfold declarationsOf, parametersOf, initOf. simpl.
      destruct (truthy (providerImportSource options)), mdx; simpl;
        [eexists [_; _], _, kids'|eexists [_], _, kids'|eexists [_], _, kids'
        |eexists [], _, kids'];
        (split; [reflexivity|]; split; [by apply occurs_blockOf|done]).
    + by intros -> ->.
Qed.

End frames.

Section root.

Context (isIdentifierName : string → bool) (analyze : Program → gset string)
  (specifiersToObjectPattern : list node → node)
  (options : RecmaJsxRewriteOptions).

(** ** The provider flag *)

Lemma onenter_importProvider (topScope : gset string) (h : header) (st : state) :
  importProvider (onenter isIdentifierName topScope h st).2 = importProvider st.
Proof.
  destruct (inert h) eqn:Hh; [by rewrite onenter_inert|].
  destruct h; try done.
  destruct st as [[|s rest] u i]; [done|].
  by destruct (onenter_element_open isIdentifierName topScope name closingName
                 explicit s rest u i) as (? & ? & ? & ? & -> & _).
Qed.

Lemma onleave_cases (n : node) (st : state) (n' : node) (st' : state) :
  onleave options n st = Ok (n', st') →
  (n' = n ∧ importProvider st' = importProvider st)
  ∨ ∃ type id params fbody s mdx,
      n = Fn type id params fbody
      ∧ n' = Fn type id params
               (BlockStatement
                  (VariableDeclaration "const"
                     (declarationsOf (parametersOf options (defaultsOf s) mdx)
                        (actualOf s))
                   :: blockOf fbody))
      ∧ importProvider st' = importProvider st || truthy (providerImportSource options).
Proof.
  destruct n as [h kids]. destruct h;
    try (intros [= <- <-]; by left).
  unfold onleave. destruct (pop (stack st)) as [[s stack']|]; [|done].
  destruct (_ || _).
  - intros (mdx & _ & H)%bind_Ok.
    destruct (pop kids) as [[fbody params]|] eqn:E; [|done].
    apply pop_Some in E as ->. injection H as <- <-. right.
    by exists type, id, params, fbody, s, mdx.
  - intros [= <- <-]. by left.
Qed.

Lemma provider_needs_source (topScope : gset string) (n : node) (st : state)
    (n' : node) (st' : state) :
  visit isIdentifierName options topScope n st = Ok (n', st') →
  importProvider st' = true →
  importProvider st = true ∨ truthy (providerImportSource options) = true.
Proof.
  revert st n' st'.
  apply (visit_preserves isIdentifierName options topScope
           (λ a b, importProvider b = true →
                   importProvider a = true
                   ∨ truthy (providerImportSource options) = true)).
  - auto.
  - intros a b c Hab Hbc Hc. destruct (Hbc Hc) as [Hb|]; auto.
  - intros h st. rewrite onenter_importProvider. auto.
  - intros m st m' st' [[_ ->]|(? & ? & ? & ? & ? & ? & _ & _ & ->)]%onleave_cases;
      [auto|].
    by intros ?%orb_true_iff.
Qed.

Lemma declarations_merged (type : fntype) (id : option string) (params stmts : list node)
    (s : scope) (mdx : bool) :
  truthy (providerImportSource options) = true →
  providerMerged
    (Fn type id params
       (BlockStatement
          (VariableDeclaration "const"
             (declarationsOf (parametersOf options (defaultsOf s) mdx) (actualOf s))
           :: stmts))).
Proof.
  intros H. unfold declarationsOf, parametersOf, initOf. rewrite H. simpl.
  by eexists type, id, params, _, _, _, stmts.
Qed.

Lemma visit_provider (topScope : gset string) (n : node) :
  ∀ st n' st',
    visit isIdentifierName options topScope n st = Ok (n', st') →
    importProvider st = false → importProvider st' = true →
    ∃ m, occurs m n' ∧ providerMerged m.
Proof.
  induction n as [h kids IH] using node_ind. intros st n' st' E Hst Hst'.
  destruct (provider_needs_source topScope _ _ _ _ E Hst') as [?|Ht]; [congruence|].
  rewrite visit_eq in E.
  pose proof (onenter_importProvider topScope h st) as He.
  destruct (onenter isIdentifierName topScope h st) as [h1 st1]. simpl in He.
  apply bind_Ok in E as ([l' st2] & E1 & E2).
  apply onleave_cases in E2
    as [[-> Hi]|(type & id & params & fbody & s & mdx & _ & -> & _)].
  - assert (∃ k m, k ∈ l' ∧ occurs m k ∧ providerMerged m) as (k & m & Hk & Hm & Hp).
    { rewrite Hi in Hst'. rewrite <- He in Hst. clear He Hi h h1 Ht.
      revert st1 l' st2 E1 Hst Hst'.
      induction IH as [|a l Ha _ IHl]; intros st1 l' st2.
      - intros [= <- <-]. congruence.
      - rewrite visit_list_cons.
        intros ([a' sta] & Ea & ([l1 stb] & El & [= <- <-])%bind_Ok)%bind_Ok Hst Hst'.
        destruct (importProvider sta) eqn:Hsta.
        + destruct (Ha _ _ _ Ea Hst Hsta) as (m & Hm & Hp).
          exists a', m. split; [apply elem_of_cons; by left|done].
        + destruct (IHl _ _ _ El Hsta Hst') as (k & m & Hk & Hm & Hp).
          exists k, m. split; [apply elem_of_cons; by right|done]. }
    exists m. split; [by eapply occurs_child|done].
  - eexists. split; [apply occurs_here|]. by apply declarations_merged.
Qed.

Lemma visit_list_provider (topScope : gset string) (l : list node) :
  ∀ st l' st',
    visit_list isIdentifierName options topScope l st = Ok (l', st') →
    importProvider st = false → importProvider st' = true →
    ∃ k m, k ∈ l' ∧ occurs m k ∧ providerMerged m.
Proof.
  induction l as [|a l IHl]; intros st l' st'.
  - intros [= <- <-]. congruence.
  - rewrite visit_list_cons.
    intros ([a' sta] & Ea & ([l1 stb] & El & [= <- <-])%bind_Ok)%bind_Ok Hst Hst'.
    destruct (importProvider sta) eqn:Hsta.
    + destruct (visit_provider topScope a _ _ _ Ea Hst Hsta) as (m & Hm & Hp).
      exists a', m. split; [apply elem_of_cons; by left|done].
    + destruct (IHl _ _ _ El Hsta Hst') as (k & m & Hk & Hm & Hp).
      exists k, m. split; [apply elem_of_cons; by right|done].
Qed.

Lemma visit_list_provider_source (topScope : gset string) (l : list node)
    (st : state) (l' : list node) (st' : state) :
  visit_list isIdentifierName options topScope l st = Ok (l', st') →
  importProvider st' = true →
  importProvider st = true ∨ truthy (providerImportSource options) = true.
Proof.
  revert st l' st'.
  apply (visit_list_preserves isIdentifierName options topScope
           (λ a b, importProvider b = true →
                   importProvider a = true
                   ∨ truthy (providerImportSource options) = true)).
  - auto.
  - intros a b c Hab Hbc Hc. destruct (Hbc Hc) as [Hb|]; auto.
  - apply Forall_forall. intros k _ st k' st'. apply provider_needs_source.
Qed.

(** ** The statements at the root *)

(** C6: when the pass returns, the root holds the statements that the walk
    returns, one for each statement of the input; before them the helper
    declaration, once, exactly when the helper flag is set after the walk;
    and before that the provider import, once, exactly when the provider
    flag is set after the walk.  The provider flag is set only if a
    provider source is configured and some function of the result merges
    the provider call into its [_components]. *)
Theorem root_statements (tree tree' : Program) :
  transform isIdentifierName analyze specifiersToObjectPattern options tree = Ok tree' →
  ∃ stmts st,
    visit_list isIdentifierName options (analyze tree) (body tree) initialState
    = Ok (stmts, st)
    ∧ length stmts = length (body tree)
    ∧ body tree'
      = (if importProvider st
         then [createImportProvider specifiersToObjectPattern
                 (providerImportSource options) (outputFormat options)]
         else [])
        ++ (if useMissingComponentHelper st then [createMissingComponentHelper] else [])
        ++ stmts
    ∧ (importProvider st = true →
       truthy (providerImportSource options) = true
       ∧ ∃ k m, k ∈ stmts ∧ occurs m k ∧ providerMerged m).
Proof.
  unfold transform. intros ([stmts st] & E & [= <-])%bind_Ok.
  exists stmts, st. split; [done|]. split; [by eapply visit_list_length|].
  split; [simpl; by destruct (importProvider st), (useMissingComponentHelper st)|].
  intros Hi. split.
  - by destruct (visit_list_provider_source _ _ _ _ _ E Hi).
  - by eapply visit_list_provider.
Qed.

End root.

(** * Further properties *)

Section further.

Context (isIdentifierName : string → bool) (options : RecmaJsxRewriteOptions)
  (topScope : gset string).

(** ** The order of the names in a frame *)

Section open_walk.

Variable G : scope → bool → scope → bool → Prop.
Hypothesis G_refl : ∀ s u, G s u s u.
Hypothesis G_trans : ∀ a u b v c w, G a u b v → G b v c w → G a u c w.
Hypothesis G_object : ∀ x s u, G s u (enterObject topScope x s) u.
Hypothesis G_component : ∀ x s u,
  G s u (enterComponent topScope x s)
    (if negb (includes (components s) x) && negb (bool_decide (x ∈ topScope))
        && negb (bool_decide (x = "MDXLayout"))
     then true else u).
Hypothesis G_tag : ∀ x s u, G s u (enterTag x s) u.

Lemma visit_list_open_rel (l : list node) :
  Forall (λ n, ∀ s rest u i, ∃ n' s' u',
            visit isIdentifierName options topScope n (State (s :: rest) u i)
            = Ok (n', State (s' :: rest) u' i)
            ∧ G s u s' u') l →
  ∀ s rest u i, ∃ l' s' u',
    visit_list isIdentifierName options topScope l (State (s :: rest) u i)
    = Ok (l', State (s' :: rest) u' i)
    ∧ G s u s' u'.
Proof using G_refl G_trans.
  induction 1 as [|k l Hk _ IH]; intros s rest u i.
  - exists [], s, u. by split.
  - destruct (Hk s rest u i) as (k' & s1 & u1 & E1 & G1).
    destruct (IH s1 rest u1 i) as (l' & s2 & u2 & E2 & G2).
    exists (k' :: l'), s2, u2. rewrite visit_list_cons, E1. simpl. rewrite E2. simpl.
    split; [done|]. by eapply G_trans.
Qed.

Lemma visit_open_rel (n : node) :
  ∀ s rest u i, ∃ n' s' u',
    visit isIdentifierName options topScope n (State (s :: rest) u i)
    = Ok (n', State (s' :: rest) u' i)
    ∧ G s u s' u'.
Proof using Type*.
  induction n as [h kids IH] using node_ind. intros s rest u i. rewrite visit_eq.
  destruct (inert h) eqn:Hh.
  - rewrite onenter_inert by done.
    destruct (visit_list_open_rel kids IH s rest u i) as (l' & s' & u' & -> & Hg).
    simpl. rewrite onleave_inert by done. by eexists _, _, _.
  - destruct h; try done.
    + rewrite onenter_function. simpl.
      destruct (visit_list_open_rel kids IH s (rest ++ [emptyScope]) u i)
        as (l' & s' & u' & -> & Hg).
      simpl. rewrite (onleave_function options type id l' (s' :: rest) emptyScope).
      rewrite injects_emptyScope. by eexists _, _, _.
    + assert (∃ h1 s1 u1,
                onenter isIdentifierName topScope (TJSXElement name closingName explicit)
                  (State (s :: rest) u i)
                = (h1, State (s1 :: rest) u1 i)
                ∧ G s u s1 u1 ∧ ∀ type id, h1 ≠ TFunction type id)
        as (h1 & s1 & u1 & -> & G1 & Hh1).
      { unfold onenter. simpl. destruct name as [[x|object property]|ns nm].
        - destruct (isIdentifierName x && negb (startsLowercase x));
            [by eexists _, _, _|].
          destruct explicit; by eexists _, _, _.
        - by eexists _, _, _.
        - by eexists _, _, _. }
      destruct (visit_list_open_rel kids IH s1 rest u1 i) as (l' & s' & u' & -> & Hg).
      simpl. rewrite onleave_other by done. eexists _, _, _. split; [done|].
      by eapply G_trans.
Qed.

End open_walk.

Lemma extended_refl (s : scope) : extended s s.
Proof. by repeat split. Qed.

Lemma extended_trans (a b c : scope) : extended a b → extended b c → extended a c.
Proof. intros (? & ? & ?) (? & ? & ?). repeat split; by etrans. Qed.

(** X12: while a function is open the walk of any tree returns, and it only
    appends to the arrays of the outermost frame: the objects, components
    and tags it had are a prefix of the ones it has afterwards, so every
    name keeps the place of its first occurrence. *)
Theorem names_keep_their_order (n : node) (s : scope) (rest : list scope) (u i : bool) :
  ∃ n' s' u',
    visit isIdentifierName options topScope n (State (s :: rest) u i)
    = Ok (n', State (s' :: rest) u' i)
    ∧ extended s s'.
Proof.
  apply (visit_open_rel (λ a _ b _, extended a b)).
  - intros f _. apply extended_refl.
  - intros a _ b _ c _. apply extended_trans.
  - intros x f _. unfold enterObject. case_match; [|apply extended_refl].
    repeat split; simpl; try done. by apply prefix_app_r.
  - intros x f _. unfold enterComponent. case_match; [|apply extended_refl].
    repeat split; simpl; try done. by apply prefix_app_r.
  - intros x f _. unfold enterTag. case_match; [|apply extended_refl].
    repeat split; simpl; try done. by apply prefix_app_r.
Qed.

(** ** The frames of nested functions *)

Lemma onleave_stack (n : node) (st : state) (n' : node) (st' : state) :
  onleave options n st = Ok (n', st') →
  (stack st' = stack st ∨ ∃ s, stack st = stack st' ++ [s])
  ∧ useMissingComponentHelper st' = useMissingComponentHelper st.
Proof.
  destruct n as [h kids]. destruct h; try (intros [= _ <-]; by auto).
  unfold onleave. destruct (pop (stack st)) as [[s stack']|] eqn:E; [|done].
  apply pop_Some in E. intros H.
  assert (stack st' = stack' ∧ useMissingComponentHelper st' = useMissingComponentHelper st)
    as [-> ->].
  { destruct (_ || _) in H.
    - apply bind_Ok in H as (mdx & _ & H).
      destruct (pop kids) as [[??]|]; [|done]. by injection H as _ <-.
    - by injection H as _ <-. }
  split; [right; by exists s|done].
Qed.

(** X1: in every state of a walk, every frame but the outermost is empty:
    what is found inside a nested function is recorded in the frame of the
    outermost open function, never in the nested function's own frame. *)
Theorem inner_frames_stay_empty (st : state) (k : nat) (f : scope) :
  reachable isIdentifierName options topScope st →
  stack st !! S k = Some f →
  f = emptyScope.
Proof.
  intros Hr.
  assert (Forall (λ f, f = emptyScope) (tail (stack st))) as H.
  { induction Hr as [|h st _ IH|n st n' st' _ IH E].
    - constructor.
    - destruct (inert h) eqn:Hh; [by rewrite onenter_inert|].
      destruct h; try done.
      + rewrite onenter_function. simpl. destruct (stack st) as [|a l]; simpl.
        * constructor.
        * apply Forall_app. split; [done|]. by constructor.
      + destruct st as [[|s rest] u i]; [done|].
        by destruct (onenter_element_open isIdentifierName topScope name closingName
                       explicit s rest u i) as (? & ? & ? & ? & -> & _).
    - apply onleave_stack in E as [[->|[s Hs]] _]; [done|].
      rewrite Hs in IH. destruct (stack st') as [|a l]; [constructor|].
      simpl in IH. by apply Forall_app in IH as [? _]. }
  intros Hk. rewrite Forall_forall in H. apply H.
  destruct (stack st) as [|a l]; [done|]. simpl in *.
  by eapply list_elem_of_lookup_2.
Qed.

(** X2: a function met while another function is open comes out of the walk
    with its parameters and body walked and nothing else changed: no
    declaration is put into its body, whatever is found inside it, and this
    holds for a declaration without a name as well.  Only the outermost
    frame changes. *)
Theorem nested_function_left_alone (type : fntype) (id : option string)
    (params : list node) (fbody : node) (s : scope) (rest : list scope) (u i : bool) :
  ∃ params' fbody' s' u',
    visit isIdentifierName options topScope (Fn type id params fbody)
      (State (s :: rest) u i)
    = Ok (Fn type id params' fbody', State (s' :: rest) u' i)
    ∧ visit_list isIdentifierName options topScope (params ++ [fbody])
        (State (s :: rest ++ [emptyScope]) u i)
      = Ok (params' ++ [fbody'], State (s' :: rest ++ [emptyScope]) u' i)
    ∧ length params' = length params
    ∧ grows s s'.
Proof.
  destruct (visit_open_eq isIdentifierName options topScope (TFunction type id)
              (params ++ [fbody]) s rest u i)
    as (h1 & s1 & u1 & extra & kids' & s' & u' & E0 & E1 & E & _ & Hg & L).
  rewrite onenter_function in E0. simpl in E0.
  injection E0 as <- <- Hextra <-. apply app_inv_head in Hextra as <-.
  apply length_snoc_inv in L as (params' & fbody' & -> & L).
  by exists params', fbody', s', u'.
Qed.

(** ** Walking outside every function *)

Lemma visit_list_closed (l : list node) :
  Forall (λ k, ∀ u i k' st',
            visit isIdentifierName options topScope k (State [] u i) = Ok (k', st') →
            stack st' = []) l →
  ∀ u i l' st',
    visit_list isIdentifierName options topScope l (State [] u i) = Ok (l', st') →
    stack st' = [].
Proof.
  induction 1 as [|k l Hk _ IH]; intros u i l' st'.
  - by intros [= _ <-].
  - rewrite visit_list_cons.
    intros ([k' st1] & E1 & ([l1 st2] & E2 & [= _ <-])%bind_Ok)%bind_Ok.
    apply Hk in E1. destruct st1 as [stack1 u1 i1]. simpl in E1. subst stack1.
    by eapply IH.
Qed.

Lemma visit_closed (n : node) :
  ∀ u i n' st',
    visit isIdentifierName options topScope n (State [] u i) = Ok (n', st') →
    stack st' = [].
Proof.
  induction n as [h kids IH] using node_ind. intros u i n' st'. rewrite visit_eq.
  destruct (inert h) eqn:Hh.
  - rewrite onenter_inert by done.
    intros ([l' st2] & E1 & E2)%bind_Ok. rewrite onleave_inert in E2 by done.
    injection E2 as _ <-. by eapply visit_list_closed.
  - destruct h; try done.
    + rewrite onenter_function. simpl.
      assert (Forall (walksOpen isIdentifierName options topScope) kids) as Hopen.
      { apply Forall_forall. intros k _. apply visit_open. }
      destruct (visit_list_open isIdentifierName options topScope kids Hopen
                  emptyScope [] u i) as (l' & s' & u' & -> & _).
      simpl. rewrite (onleave_function options type id l' [] s').
      destruct (injects s').
      * intros (mdx & _ & H)%bind_Ok.
        destruct (pop l') as [[??]|]; [|done]. by injection H as _ <-.
      * by intros [= _ <-].
    + change (onenter isIdentifierName topScope (TJSXElement name closingName explicit)
                (State [] u i))
        with (TJSXElement name closingName explicit, State [] u i).
      intros ([l' st2] & E1 & E2)%bind_Ok. rewrite onleave_other in E2 by done.
      injection E2 as _ <-. by eapply visit_list_closed.
Qed.

Lemma outermostNamed_kids (h : header) (kids : list node) :
  (∀ type id, h ≠ TFunction type id) →
  outermostNamed (Node h kids) = true →
  Forall (λ k, outermostNamed k = true) kids.
Proof.
  intros Hh H.
  assert ((fix all (l : list node) : bool :=
             match l with
             | [] => true
             | k :: l => outermostNamed k && all l
             end) kids = true) as Hall.
  { destruct h; try done. by destruct (Hh type id). }
  clear H. induction kids as [|k l IH]; [constructor|].
  apply andb_true_iff in Hall as [Hk Hl]. constructor; auto.
Qed.

Lemma visit_list_outermost (l : list node) :
  Forall (λ k, outermostNamed k = true →
            ∀ u i, ∃ k' u' i',
              visit isIdentifierName options topScope k (State [] u i)
              = Ok (k', State [] u' i')) l →
  Forall (λ k, outermostNamed k = true) l →
  ∀ u i, ∃ l' u' i',
    visit_list isIdentifierName options topScope l (State [] u i)
    = Ok (l', State [] u' i').
Proof.
  induction 1 as [|k l Hk _ IH]; intros Hall u i.
  - by exists [], u, i.
  - apply Forall_cons in Hall as [Hnamed Hall].
    destruct (Hk Hnamed u i) as (k' & u1 & i1 & E1).
    destruct (IH Hall u1 i1) as (l' & u2 & i2 & E2).
    exists (k' :: l'), u2, i2. rewrite visit_list_cons, E1. simpl. by rewrite E2.
Qed.

Lemma visit_outermost (n : node) :
  outermostNamed n = true →
  ∀ u i, ∃ n' u' i',
    visit isIdentifierName options topScope n (State [] u i)
    = Ok (n', State [] u' i').
Proof.
  induction n as [h kids IH] using node_ind. intros Hn u i. rewrite visit_eq.
  destruct (inert h) eqn:Hh.
  - rewrite onenter_inert by done.
    assert (∀ type id, h ≠ TFunction type id) as Hf by (intros ??; by destruct h).
    destruct (visit_list_outermost kids IH (outermostNamed_kids h kids Hf Hn) u i)
      as (l' & u' & i' & ->).
    simpl. rewrite onleave_inert by done. by eexists _, _, _.
  - destruct h; try done.
    + rewrite onenter_function. simpl.
      assert (Forall (walksOpen isIdentifierName options topScope) kids) as Hopen.
      { apply Forall_forall. intros k _. apply visit_open. }
      destruct (visit_list_open isIdentifierName options topScope kids Hopen
                  emptyScope [] u i) as (l' & s' & u' & -> & _ & _ & L).
      simpl. rewrite (onleave_function options type id l' [] s').
      simpl in Hn. apply andb_true_iff in Hn as [Hid Hkids].
      destruct (injects s'); [|by eexists _, _, _].
      assert (∃ mdx, isMDXContent type id = Ok mdx) as [mdx ->].
      { destruct type; simpl; eauto. destruct id; [eauto|done]. }
      simpl.
      destruct (pop l') as [[fbody params]|] eqn:Epop; [by eexists _, _, _|].
      unfold pop in Epop. destruct (reverse l') eqn:Er; [|done].
      apply (f_equal length) in Er. rewrite length_reverse, L in Er.
      by destruct kids.
    + change (onenter isIdentifierName topScope (TJSXElement name closingName explicit)
                (State [] u i))
        with (TJSXElement name closingName explicit, State [] u i).
      cbv beta iota.
      assert (∀ type id, TJSXElement name closingName explicit ≠ TFunction type id)
        as Hf by done.
      destruct (visit_list_outermost kids IH (outermostNamed_kids _ kids Hf Hn) u i)
        as (l' & u' & i' & ->).
      simpl. rewrite onleave_other by done. by eexists _, _, _.
Qed.

(** X14: the frames are pushed and popped in pairs: whenever the walk of a
    tree returns, the stack is as high as it was before, and every frame
    but the outermost is the frame it was before.  A walk that starts
    outside every function ends outside every function. *)
Theorem walk_is_balanced (n : node) (st : state) (n' : node) (st' : state) :
  visit isIdentifierName options topScope n st = Ok (n', st') →
  length (stack st') = length (stack st) ∧ tail (stack st') = tail (stack st).
Proof.
  destruct st as [[|s rest] u i]; intros E.
  - apply visit_closed in E. by rewrite E.
  - destruct (visit_open isIdentifierName options topScope n s rest u i)
      as (n1 & s1 & u1 & E1 & _).
    rewrite E1 in E. by injection E as _ <-.
Qed.

(** X4: leaving a function declaration that has no name throws when it is
    not inside another function and a tag occurs in it: the test for
    [MDXContent] reads the name of its missing [id]. *)
Theorem unnamed_declaration_with_tag_throws (x : string) (closing : option jsxname)
    (kids params : list node) (fbody : node) (u i : bool) :
  startsLowercase x = true →
  occurs (Node (TJSXElement (JSXName (JSXIdentifier x)) closing false) kids)
    (Fn FunctionDeclaration None params fbody) →
  visit isIdentifierName options topScope (Fn FunctionDeclaration None params fbody)
    (State [] u i)
  = Throw (TypeError "Cannot read properties of null (reading 'name')").
Proof.
  intros Hx Hocc.
  inversion Hocc as [Heq|h l k Hk Hinner [Hh Hl]]. subst h l.
  pose proof (occurs_records isIdentifierName options topScope x closing kids k
                Hx Hinner) as Hrec.
  destruct (visit_list_records isIdentifierName options topScope x k
              (params ++ [fbody]) Hk Hrec emptyScope [] u i)
    as (l' & f & u' & E & Hf & L).
  unfold Fn at 1. rewrite visit_eq, onenter_function. simpl. rewrite E. simpl.
  rewrite (onleave_function options FunctionDeclaration None l' [] f).
  assert (injects f = true) as ->; [|done].
  apply injects_true. left. intros Ht. rewrite Ht in Hf. by apply elem_of_nil in Hf.
Qed.

(** ** Trees without functions *)

Lemma hasFunction_kids (h : header) (kids : list node) :
  hasFunction (Node h kids) = false →
  (∀ type id, h ≠ TFunction type id)
  ∧ Forall (λ k, hasFunction k = false) kids.
Proof.
  intros H. split; [intros type id ->; done|].
  assert ((fix any (l : list node) : bool :=
             match l with
             | [] => false
             | k :: l => hasFunction k || any l
             end) kids = false) as Hany by (by destruct h).
  clear H. induction kids as [|k l IH]; [constructor|].
  apply orb_false_iff in Hany as [Hk Hl]. constructor; auto.
Qed.

Lemma visit_list_unchanged (l : list node) (st : state) :
  Forall (λ k, visit isIdentifierName options topScope k st = Ok (k, st)) l →
  visit_list isIdentifierName options topScope l st = Ok (l, st).
Proof.
  induction 1 as [|k l Hk _ IH]; [done|].
  rewrite visit_list_cons, Hk. simpl. by rewrite IH.
Qed.

Lemma visit_without_function (n : node) (u i : bool) :
  hasFunction n = false →
  visit isIdentifierName options topScope n (State [] u i) = Ok (n, State [] u i).
Proof.
  induction n as [h kids IH] using node_ind. intros [Hh Hkids]%hasFunction_kids.
  rewrite visit_eq.
  assert (onenter isIdentifierName topScope h (State [] u i) = (h, State [] u i)) as ->.
  { destruct h; try done. by destruct (Hh type id). }
  rewrite visit_list_unchanged.
  - simpl. by rewrite onleave_other.
  - rewrite Forall_forall in IH, Hkids. apply Forall_forall. intros k Hk. auto.
Qed.

(** ** Names that settle in the outermost frame *)

Section settles.

Variable Q : scope → Prop.
Hypothesis Q_grows : ∀ s s', Q s → grows s s' → Q s'.

Lemma visit_list_settles (k : node) (l : list node) :
  k ∈ l →
  (∀ s rest u i, ∃ k' s' u',
     visit isIdentifierName options topScope k (State (s :: rest) u i)
     = Ok (k', State (s' :: rest) u' i) ∧ Q s') →
  ∀ s rest u i, ∃ l' s' u',
    visit_list isIdentifierName options topScope l (State (s :: rest) u i)
    = Ok (l', State (s' :: rest) u' i)
    ∧ Q s' ∧ length l' = length l.
Proof using Q_grows.
  intros Hk Hset.
  assert (∀ l, Forall (walksOpen isIdentifierName options topScope) l) as Hopen.
  { intros l0. apply Forall_forall. intros n _. apply visit_open. }
  induction l as [|a l IH]; [by apply elem_of_nil in Hk|].
  intros s rest u i. rewrite visit_list_cons.
  apply elem_of_cons in Hk as [<-|Hk].
  - destruct (Hset s rest u i) as (k' & s1 & u1 & -> & Hq). simpl.
    destruct (visit_list_open isIdentifierName options topScope l (Hopen l) s1 rest u1 i)
      as (l' & s2 & u2 & -> & Hg & _ & L).
    simpl. exists (k' :: l'), s2, u2. split; [done|]. split; [by eapply Q_grows|].
    simpl. by rewrite L.
  - destruct (visit_open isIdentifierName options topScope a s rest u i)
      as (a' & s1 & u1 & -> & _ & _). simpl.
    destruct (IH Hk s1 rest u1 i) as (l' & s2 & u2 & -> & Hq & L). simpl.
    exists (a' :: l'), s2, u2. split; [done|]. split; [done|]. simpl. by rewrite L.
Qed.

Lemma occurs_settles (h : header) (kids : list node) (n : node) :
  (∀ s rest u i, ∃ h1 s1 u1,
     onenter isIdentifierName topScope h (State (s :: rest) u i)
     = (h1, State (s1 :: rest) u1 i) ∧ Q s1) →
  occurs (Node h kids) n →
  ∀ s rest u i, ∃ n' s' u',
    visit isIdentifierName options topScope n (State (s :: rest) u i)
    = Ok (n', State (s' :: rest) u' i) ∧ Q s'.
Proof using Q_grows.
  intros Hh Hocc.
  remember (Node h kids) as e eqn:He.
  induction Hocc as [|h0 l k Hk _ IH]; intros s rest u i.
  - subst e.
    destruct (visit_open_eq isIdentifierName options topScope h kids s rest u i)
      as (h1 & s1 & u1 & extra & kids' & s' & u' & E0 & _ & E & _ & Hg & _).
    destruct (Hh s rest u i) as (h2 & s2 & u2 & E2 & Hq).
    rewrite E2 in E0. injection E0 as _ -> _ _.
    exists (Node h1 kids'), s', u'. split; [done|]. by eapply Q_grows.
  - destruct (visit_open_eq isIdentifierName options topScope h0 l s rest u i)
      as (h1 & s1 & u1 & extra & l' & s' & u' & E0 & E1 & E & _).
    destruct (visit_list_settles k l Hk IH s1 (rest ++ extra) u1 i)
      as (l2 & s2 & u2 & E2 & H2 & _).
    rewrite E1 in E2. injection E2 as _ <- _.
    by eexists _, _, _.
Qed.

Lemma visit_function_settles (type : fntype) (id : option string)
    (params : list node) (fbody : node) (h : header) (kids : list node) (u i : bool) :
  (∀ s, Q s → injects s = true) →
  (∀ s rest u i, ∃ h1 s1 u1,
     onenter isIdentifierName topScope h (State (s :: rest) u i)
     = (h1, State (s1 :: rest) u1 i) ∧ Q s1) →
  occurs (Node h kids) (Fn type id params fbody) →
  ∃ params' fbody' f u',
    visit isIdentifierName options topScope (Fn type id params fbody) (State [] u i)
    = (mdx ← isMDXContent type id;
       Ok (Fn type id params'
             (BlockStatement
                (VariableDeclaration "const"
                   (declarationsOf (parametersOf options (defaultsOf f) mdx)
                      (actualOf f))
                 :: blockOf fbody')),
           State [] u' (i || truthy (providerImportSource options))))
    ∧ visit_list isIdentifierName options topScope (params ++ [fbody])
        (State [emptyScope] u i)
      = Ok (params' ++ [fbody'], State [f] u' i)
    ∧ length params' = length params
    ∧ Q f.
Proof using Q_grows.
  intros Hinj Hh Hocc.
  inversion Hocc as [Heq|h0 l k Hk Hinner [Hh0 Hl]].
  { exfalso. assert (h = TFunction type id) as -> by (unfold Fn in *; congruence).
    destruct (Hh emptyScope [] u i) as (h1 & s1 & u1 & E & _).
    rewrite onenter_function in E. simpl in E. by injection E. }
  subst h0 l.
  destruct (visit_list_settles k (params ++ [fbody]) Hk
              (occurs_settles h kids k Hh Hinner) emptyScope [] u i)
    as (l' & f & u' & E & Hf & L).
  apply length_snoc_inv in L as (params' & fbody' & -> & L).
  exists params', fbody', f, u'.
  unfold Fn at 1. rewrite visit_eq, onenter_function. simpl. rewrite E. simpl.
  rewrite (onleave_function options type id _ [] f), (Hinj f Hf).
  split; [|done].
  destruct (isMDXContent type id); simpl; [by rewrite pop_snoc|done].
Qed.

End settles.

(** ** The helper flag *)

Lemma onenter_helperDue (h : header) (st : state) :
  helperDue st → helperDue (onenter isIdentifierName topScope h st).2.
Proof.
  intros K. destruct (inert h) eqn:Hh; [by rewrite onenter_inert|].
  destruct h; try done.
  - rewrite onenter_function. simpl. intros s rest x Hs Hx Hn. simpl in *.
    destruct (stack st) as [|a l] eqn:Est.
    + injection Hs as <- <-. by apply elem_of_nil in Hx.
    + injection Hs as <- <-. by eapply K.
  - destruct st as [[|f rest] u i]; [done|].
    unfold onenter. simpl.
    destruct name as [[x|object property]|ns nm]; simpl; [| |done].
    + destruct (isIdentifierName x && negb (startsLowercase x)); simpl.
      * intros s rest' y [= <- <-] Hy Hn. simpl.
        destruct (enterComponent_components topScope x f) as (Hc & _ & _).
        rewrite Hc in Hy. clear Hc.
        destruct (includes (components f) x); simpl in *; [by eapply K|].
        destruct (bool_decide (x ∈ topScope)); simpl in *; [by eapply K|].
        case_bool_decide as Hx; simpl; [|done].
        apply elem_of_app in Hy as [Hy|Hy]; [by eapply K|].
        apply list_elem_of_singleton in Hy. congruence.
      * destruct explicit; simpl; [done|].
        intros s rest' y [= <- <-] Hy Hn. simpl.
        destruct (enterTag_tags x f) as (_ & _ & Hc). rewrite Hc in Hy. by eapply K.
    + intros s rest' y [= <- <-] Hy Hn. simpl.
      destruct (enterObject_objects topScope (leftmost object) f) as (_ & Hc & _).
      rewrite Hc in Hy. by eapply K.
Qed.

Lemma onleave_helperDue (n : node) (st : state) (n' : node) (st' : state) :
  onleave options n st = Ok (n', st') → helperDue st → helperDue st'.
Proof.
  intros [[E|[f E]] Hu]%onleave_stack K s rest x Hs Hx Hn; rewrite Hu.
  - rewrite E in Hs. by eapply K.
  - rewrite Hs in E. simpl in E. by eapply K.
Qed.

Lemma visit_list_helperDue (l : list node) (st : state) (l' : list node) (st' : state) :
  visit_list isIdentifierName options topScope l st = Ok (l', st') →
  helperDue st → helperDue st'.
Proof.
  revert st l' st'.
  apply (visit_list_preserves isIdentifierName options topScope
           (λ a b, helperDue a → helperDue b)); [auto|auto|].
  apply Forall_forall. intros k _.
  apply (visit_preserves isIdentifierName options topScope
           (λ a b, helperDue a → helperDue b)); [auto|auto| |].
  - apply onenter_helperDue.
  - apply onleave_helperDue.
Qed.

(** X8: in every state of a walk, if the outermost frame holds a component
    other than [MDXLayout], the helper flag is set. *)
Theorem helper_flag_follows_components (st : state) (s : scope) (rest : list scope)
    (x : string) :
  reachable isIdentifierName options topScope st →
  stack st = s :: rest → x ∈ components s → x ≠ "MDXLayout" →
  useMissingComponentHelper st = true.
Proof.
  intros Hr. revert s rest x. change (helperDue st).
  induction Hr as [|h st _ IH|n st n' st' _ IH E].
  - by intros s rest x.
  - by apply onenter_helperDue.
  - by eapply onleave_helperDue.
Qed.

(** ** Components, objects and tags of an outermost function *)

Lemma declarationsOf_actual (parameters actual : list node) :
  actual ≠ [] →
  declarationsOf parameters actual
  = [VariableDeclarator (Identifier "_components") (initOf parameters);
     VariableDeclarator (ObjectPattern actual) (Identifier "_components")].
Proof. intros H. unfold declarationsOf. by destruct actual. Qed.

Lemma onenter_component (x : string) (closing : option jsxname) (explicit : bool)
    (s : scope) (rest : list scope) (u i : bool) :
  isIdentifierName x = true → startsLowercase x = false → x ∉ topScope →
  ∃ u1,
    onenter isIdentifierName topScope
      (TJSXElement (JSXName (JSXIdentifier x)) closing explicit) (State (s :: rest) u i)
    = (TJSXElement (JSXName (JSXIdentifier x)) closing explicit,
       State (enterComponent topScope x s :: rest) u1 i)
    ∧ x ∈ components (enterComponent topScope x s).
Proof.
  intros Hi Hl Ht. unfold onenter. simpl. rewrite Hi, Hl. simpl.
  eexists. split; [done|].
  destruct (enterComponent_components topScope x s)
    as (-> & _ & _).
  destruct (includes (components s) x) eqn:E; simpl.
  - by apply includes_true.
  - rewrite bool_decide_eq_false_2 by done. apply elem_of_app. right.
    by apply list_elem_of_singleton.
Qed.

Lemma onenter_object (object : jsxobject) (property : string)
    (closing : option jsxname) (explicit : bool)
    (s : scope) (rest : list scope) (u i : bool) :
  leftmost object ∉ topScope →
  onenter isIdentifierName topScope
    (TJSXElement (JSXName (JSXMemberExpression object property)) closing explicit)
    (State (s :: rest) u i)
  = (TJSXElement (JSXName (JSXMemberExpression object property)) closing explicit,
     State (enterObject topScope (leftmost object) s :: rest) u i)
  ∧ leftmost object ∈ objects (enterObject topScope (leftmost object) s).
Proof.
  intros Ht. split; [done|].
  destruct (enterObject_objects topScope (leftmost object) s)
    as (-> & _ & _).
  destruct (includes (objects s) (leftmost object)) eqn:E; simpl.
  - by apply includes_true.
  - rewrite bool_decide_eq_false_2 by done. apply elem_of_app. right.
    by apply list_elem_of_singleton.
Qed.

Lemma isMDXContent_named (type : fntype) (id : option string) :
  (type = FunctionDeclaration → id ≠ None) → ∃ mdx, isMDXContent type id = Ok mdx.
Proof.
  intros Hid. destruct type; simpl; eauto. destruct id; [eauto|]. by destruct Hid.
Qed.

Lemma visit_function_component (x : string) (closing : option jsxname)
    (explicit : bool) (kids : list node) (type : fntype) (id : option string)
    (params : list node) (fbody : node) (u i : bool) :
  isIdentifierName x = true → startsLowercase x = false → x ∉ topScope →
  occurs (Node (TJSXElement (JSXName (JSXIdentifier x)) closing explicit) kids)
    (Fn type id params fbody) →
  ∃ params' fbody' f u',
    visit isIdentifierName options topScope (Fn type id params fbody) (State [] u i)
    = (mdx ← isMDXContent type id;
       Ok (Fn type id params'
             (BlockStatement
                (VariableDeclaration "const"
                   [VariableDeclarator (Identifier "_components")
                      (initOf (parametersOf options (defaultsOf f) mdx));
                    VariableDeclarator (ObjectPattern (actualOf f))
                      (Identifier "_components")]
                 :: blockOf fbody')),
           State [] u' (i || truthy (providerImportSource options))))
    ∧ visit_list isIdentifierName options topScope (params ++ [fbody])
        (State [emptyScope] u i)
      = Ok (params' ++ [fbody'], State [f] u' i)
    ∧ length params' = length params
    ∧ x ∈ components f
    ∧ (x ≠ "MDXLayout" → u' = true).
Proof.
  intros Hi Hl Ht Hocc.
  destruct (visit_function_settles (λ s, x ∈ components s)) with
    (type := type) (id := id) (params := params) (fbody := fbody)
    (h := TJSXElement (JSXName (JSXIdentifier x)) closing explicit) (kids := kids)
    (u := u) (i := i)
    as (params' & fbody' & f & u' & E & El & L & Hf); [| | |done|].
  - intros a b Ha (_ & Hc & _). by apply Hc.
  - intros a Ha. apply injects_true. right. left. intros Hn. rewrite Hn in Ha.
    by apply elem_of_nil in Ha.
  - intros s rest u0 i0.
    destruct (onenter_component x closing explicit s rest u0 i0 Hi Hl Ht) as (u1 & E & H).
    by eexists _, _, _.
  - exists params', fbody', f, u'. split; [|split; [done|split; [done|split; [done|]]]].
    + rewrite E. destruct (isMDXContent type id); simpl; [|done].
      rewrite declarationsOf_actual; [done|].
      intros [Hc _]%actualOf_nil. rewrite Hc in Hf. by apply elem_of_nil in Hf.
    + intros Hn.
      apply (visit_list_helperDue _ _ _ _ El) with (s := f) (rest := []) (x := x);
        try done.
      intros a b y [= <- <-] Hy. by apply elem_of_nil in Hy.
Qed.

(** X6: an element named by an identifier that is a valid identifier name
    and does not start with a lowercase letter, other than [MDXLayout] and
    not bound in the top scope, inside an outermost function.  The walk of
    the parameters and body of the function returns a frame out of which
    the defaults object gives the name a call of the helper as its
    fallback and the pattern binds the name by a shorthand property, with
    the helper flag set.  Unless the function is a declaration without a
    name, it comes out of the walk with the declaration of [_components]
    and of the pattern read from it; for a declaration without a name the
    walk throws. *)
Theorem component_bound_from_components (x : string) (closing : option jsxname)
    (explicit : bool) (kids : list node) (type : fntype) (id : option string)
    (params : list node) (fbody : node) (u i : bool) :
  isIdentifierName x = true → startsLowercase x = false →
  x ∉ topScope → x ≠ "MDXLayout" →
  occurs (Node (TJSXElement (JSXName (JSXIdentifier x)) closing explicit) kids)
    (Fn type id params fbody) →
  ∃ params' fbody' f,
    visit_list isIdentifierName options topScope (params ++ [fbody])
      (State [emptyScope] u i)
    = Ok (params' ++ [fbody'], State [f] true i)
    ∧ length params' = length params
    ∧ Property "init" false (Identifier x)
        (CallExpression (Identifier "_missingComponent") [Literal (LString x)])
      ∈ defaultsOf f
    ∧ Property "init" true (Identifier x) (Identifier x) ∈ actualOf f
    ∧ ((type = FunctionDeclaration → id ≠ None) →
       ∃ mdx,
         visit isIdentifierName options topScope (Fn type id params fbody) (State [] u i)
         = Ok (Fn type id params'
                 (BlockStatement
                    (VariableDeclaration "const"
                       [VariableDeclarator (Identifier "_components")
                          (initOf (parametersOf options (defaultsOf f) mdx));
                        VariableDeclarator (ObjectPattern (actualOf f))
                          (Identifier "_components")]
                     :: blockOf fbody')),
               State [] true (i || truthy (providerImportSource options))))
    ∧ (type = FunctionDeclaration → id = None →
       visit isIdentifierName options topScope (Fn type id params fbody) (State [] u i)
       = Throw (TypeError "Cannot read properties of null (reading 'name')")).
Proof.
  intros Hi Hl Ht Hn Hocc.
  destruct (visit_function_component x closing explicit kids type id params fbody u i
              Hi Hl Ht Hocc)
    as (params' & fbody' & f & u' & E & El & L & Hf & Hu).
  rewrite (Hu Hn) in E, El. exists params', fbody', f.
  split; [done|]. split; [done|]. split; [|split; [|split]].
  - apply elem_of_app. right. apply list_elem_of_fmap. exists x. split; [done|].
    by apply list_elem_of_filter.
  - apply elem_of_app. left. apply list_elem_of_fmap. exists x. split; [|done].
    by rewrite bool_decide_eq_true_2, bool_decide_eq_false_2.
  - intros [mdx Hmdx]%isMDXContent_named. exists mdx. by rewrite E, Hmdx.
  - intros -> ->. by rewrite E.
Qed.

Lemma visit_function_object (object : jsxobject) (property : string)
    (closing : option jsxname)
    (explicit : bool) (kids : list node) (type : fntype) (id : option string)
    (params : list node) (fbody : node) (u i : bool) :
  leftmost object ∉ topScope →
  occurs (Node (TJSXElement (JSXName (JSXMemberExpression object property)) closing
                  explicit) kids)
    (Fn type id params fbody) →
  ∃ params' fbody' f u',
    visit isIdentifierName options topScope (Fn type id params fbody) (State [] u i)
    = (mdx ← isMDXContent type id;
       Ok (Fn type id params'
             (BlockStatement
                (VariableDeclaration "const"
                   [VariableDeclarator (Identifier "_components")
                      (initOf (parametersOf options (defaultsOf f) mdx));
                    VariableDeclarator (ObjectPattern (actualOf f))
                      (Identifier "_components")]
                 :: blockOf fbody')),
           State [] u' (i || truthy (providerImportSource options))))
    ∧ visit_list isIdentifierName options topScope (params ++ [fbody])
        (State [emptyScope] u i)
      = Ok (params' ++ [fbody'], State [f] u' i)
    ∧ length params' = length params
    ∧ leftmost object ∈ objects f.
Proof.
  intros Ht Hocc.
  destruct (visit_function_settles (λ s, leftmost object ∈ objects s)) with
    (type := type) (id := id) (params := params) (fbody := fbody)
    (h := TJSXElement (JSXName (JSXMemberExpression object property)) closing explicit)
    (kids := kids) (u := u) (i := i)
    as (params' & fbody' & f & u' & E & El & L & Hf); [| | |done|].
  - intros a b Ha (Hc & _ & _). by apply Hc.
  - intros a Ha. apply injects_true. right. right. intros Hn. rewrite Hn in Ha.
    by apply elem_of_nil in Ha.
  - intros s rest u0 i0.
    destruct (onenter_object object property closing explicit s rest u0 i0 Ht) as [E H].
    by eexists _, _, _.
  - exists params', fbody', f, u'. split; [|done].
    rewrite E. destruct (isMDXContent type id); simpl; [|done].
    rewrite declarationsOf_actual; [done|].
    intros [_ Hc]%actualOf_nil. rewrite Hc in Hf. by apply elem_of_nil in Hf.
Qed.

(** X7: an element named by a member chain whose leftmost identifier is not
    bound in the top scope, inside an outermost function.  The walk of the
    parameters and body of the function returns a frame out of which the
    pattern binds the leftmost identifier by a shorthand property.  Unless
    the function is a declaration without a name, it comes out of the walk
    with the declaration of [_components] and of the pattern read from it;
    for a declaration without a name the walk throws. *)
Theorem object_bound_from_components (object : jsxobject) (property : string)
    (closing : option jsxname)
    (explicit : bool) (kids : list node) (type : fntype) (id : option string)
    (params : list node) (fbody : node) (u i : bool) :
  leftmost object ∉ topScope →
  occurs (Node (TJSXElement (JSXName (JSXMemberExpression object property)) closing
                  explicit) kids)
    (Fn type id params fbody) →
  ∃ params' fbody' f u',
    visit_list isIdentifierName options topScope (params ++ [fbody])
      (State [emptyScope] u i)
    = Ok (params' ++ [fbody'], State [f] u' i)
    ∧ length params' = length params
    ∧ Property "init" true (Identifier (leftmost object)) (Identifier (leftmost object))
      ∈ actualOf f
    ∧ ((type = FunctionDeclaration → id ≠ None) →
       ∃ mdx,
         visit isIdentifierName options topScope (Fn type id params fbody) (State [] u i)
         = Ok (Fn type id params'
                 (BlockStatement
                    (VariableDeclaration "const"
                       [VariableDeclarator (Identifier "_components")
                          (initOf (parametersOf options (defaultsOf f) mdx));
                        VariableDeclarator (ObjectPattern (actualOf f))
                          (Identifier "_components")]
                     :: blockOf fbody')),
               State [] u' (i || truthy (providerImportSource options))))
    ∧ (type = FunctionDeclaration → id = None →
       visit isIdentifierName options topScope (Fn type id params fbody) (State [] u i)
       = Throw (TypeError "Cannot read properties of null (reading 'name')")).
Proof.
  intros Ht Hocc.
  destruct (visit_function_object object property closing explicit kids type id
              params fbody u i Ht Hocc)
    as (params' & fbody' & f & u' & E & El & L & Hf).
  exists params', fbody', f, u'. split; [done|]. split; [done|]. split; [|split].
  - apply elem_of_app. right. apply list_elem_of_fmap. by exists (leftmost object).
  - intros [mdx Hmdx]%isMDXContent_named. exists mdx. by rewrite E, Hmdx.
  - intros -> ->. by rewrite E.
Qed.

(** X16: a name used both as a component and as the leftmost identifier of
    a member chain in the same outermost function, and not bound in the top
    scope.  The walk of the parameters and body of the function returns a
    frame out of which the pattern binds the name twice: at two places of
    the pattern there is a property whose value is the name.  Unless the
    function is a declaration without a name, it comes out of the walk with
    that pattern in its body; for a declaration without a name the walk
    throws. *)
Theorem component_and_object_bound_twice (x : string) (object : jsxobject)
    (property : string) (closing1 closing2 : option jsxname)
    (explicit1 explicit2 : bool) (kids1 kids2 : list node)
    (type : fntype) (id : option string)
    (params : list node) (fbody : node) (u i : bool) :
  isIdentifierName x = true → startsLowercase x = false → x ∉ topScope →
  leftmost object = x →
  occurs (Node (TJSXElement (JSXName (JSXIdentifier x)) closing1 explicit1) kids1)
    (Fn type id params fbody) →
  occurs (Node (TJSXElement (JSXName (JSXMemberExpression object property)) closing2
                  explicit2) kids2)
    (Fn type id params fbody) →
  ∃ params' fbody' f u' j k shorthand key,
    visit_list isIdentifierName options topScope (params ++ [fbody])
      (State [emptyScope] u i)
    = Ok (params' ++ [fbody'], State [f] u' i)
    ∧ length params' = length params
    ∧ j < k
    ∧ actualOf f !! j = Some (Property "init" shorthand (Identifier key) (Identifier x))
    ∧ actualOf f !! k = Some (Property "init" true (Identifier x) (Identifier x))
    ∧ ((type = FunctionDeclaration → id ≠ None) →
       ∃ mdx,
         visit isIdentifierName options topScope (Fn type id params fbody) (State [] u i)
         = Ok (Fn type id params'
                 (BlockStatement
                    (VariableDeclaration "const"
                       [VariableDeclarator (Identifier "_components")
                          (initOf (parametersOf options (defaultsOf f) mdx));
                        VariableDeclarator (ObjectPattern (actualOf f))
                          (Identifier "_components")]
                     :: blockOf fbody')),
               State [] u' (i || truthy (providerImportSource options))))
    ∧ (type = FunctionDeclaration → id = None →
       visit isIdentifierName options topScope (Fn type id params fbody) (State [] u i)
       = Throw (TypeError "Cannot read properties of null (reading 'name')")).
Proof.
  intros Hi Hl Ht Hx Hocc1 Hocc2.
  destruct (visit_function_component x closing1 explicit1 kids1 type id params fbody u i
              Hi Hl Ht Hocc1)
    as (params' & fbody' & f & u' & E & El & L & Hf & _).
  rewrite <- Hx in Ht.
  destruct (visit_function_object object property closing2 explicit2 kids2 type id
              params fbody u i Ht Hocc2)
    as (params2 & fbody2 & f2 & u2 & _ & El2 & _ & Hf2).
  rewrite El in El2. injection El2 as _ <- _. rewrite Hx in Hf2.
  apply list_elem_of_lookup in Hf as [j Hj].
  apply list_elem_of_lookup in Hf2 as [k Hk].
  exists params', fbody', f, u', j, (length (components f) + k).
  eexists _, _. split; [done|]. split; [done|].
  apply lookup_lt_Some in Hj as Hlt. split; [lia|]. unfold actualOf.
  split; [|split; [|split]].
  - rewrite lookup_app_l by (by rewrite length_fmap).
    rewrite list_lookup_fmap, Hj. reflexivity.
  - rewrite lookup_app_r by (rewrite length_fmap; lia).
    rewrite length_fmap, list_lookup_fmap.
    replace (length (components f) + k - length (components f)) with k by lia.
    by rewrite Hk.
  - intros [mdx Hmdx]%isMDXContent_named. exists mdx. by rewrite E, Hmdx.
  - intros -> ->. by rewrite E.
Qed.

(** X11: a name that is not a valid identifier name is a tag, whatever its
    first character.  Entering an element of that name that is not marked
    as explicit JSX renames it, and its closing name when it has one, to
    the member access of the name on [_components], and appends the name to
    the tags of the outermost frame unless it is there.  The walk of the
    parameters and body of the outermost function it occurs in returns a
    frame out of which the defaults object has an entry whose key is the
    identifier of that name.  Unless the function is a declaration without
    a name, it comes out of the walk with the declaration of
    [_components]; for a declaration without a name the walk throws. *)
Theorem name_that_is_no_identifier_is_a_tag (x : string) (closing : option jsxname)
    (kids : list node) (type : fntype) (id : option string)
    (params : list node) (fbody : node) (u i : bool) :
  isIdentifierName x = false →
  occurs (Node (TJSXElement (JSXName (JSXIdentifier x)) closing false) kids)
    (Fn type id params fbody) →
  (∀ s rest u0 i0,
     onenter isIdentifierName topScope
       (TJSXElement (JSXName (JSXIdentifier x)) closing false) (State (s :: rest) u0 i0)
     = (TJSXElement (JSXName (JSXMemberExpression (JSXIdentifier "_components") x))
          (match closing with
           | Some _ =>
               Some (JSXName (JSXMemberExpression (JSXIdentifier "_components") x))
           | None => None
           end)
          false,
        State
          (Scope (objects s) (components s)
             (if includes (tags s) x then tags s else tags s ++ [x])
           :: rest)
          u0 i0))
  ∧ ∃ params' fbody' f u',
      visit_list isIdentifierName options topScope (params ++ [fbody])
        (State [emptyScope] u i)
      = Ok (params' ++ [fbody'], State [f] u' i)
      ∧ length params' = length params
      ∧ Property "init" false (Identifier x) (Literal (LString x)) ∈ defaultsOf f
      ∧ ((type = FunctionDeclaration → id ≠ None) →
         ∃ parts more,
           visit isIdentifierName options topScope (Fn type id params fbody)
             (State [] u i)
           = Ok (Fn type id params'
                   (BlockStatement
                      (VariableDeclaration "const"
                         (VariableDeclarator (Identifier "_components")
                            (match parts with
                             | [] => ObjectExpression (defaultsOf f)
                             | _ =>
                                 CallExpression
                                   (MemberExpression (Identifier "Object")
                                      (Identifier "assign") false)
                                   (ObjectExpression (defaultsOf f) :: parts)
                             end)
                          :: more)
                       :: blockOf fbody')),
                 State [] u' (i || truthy (providerImportSource options))))
      ∧ (type = FunctionDeclaration → id = None →
         visit isIdentifierName options topScope (Fn type id params fbody) (State [] u i)
         = Throw (TypeError "Cannot read properties of null (reading 'name')")).
Proof.
  intros Hi Hocc.
  assert (∀ s rest u0 i0,
     onenter isIdentifierName topScope
       (TJSXElement (JSXName (JSXIdentifier x)) closing false) (State (s :: rest) u0 i0)
     = (TJSXElement (JSXName (JSXMemberExpression (JSXIdentifier "_components") x))
          (match closing with
           | Some _ =>
               Some (JSXName (JSXMemberExpression (JSXIdentifier "_components") x))
           | None => None
           end)
          false,
        State (enterTag x s :: rest) u0 i0)) as He.
  { intros s rest u0 i0. unfold onenter. simpl. by rewrite Hi. }
  split.
  { intros s rest u0 i0. rewrite He. do 3 f_equal.
    unfold enterTag. destruct s as [o c t]. simpl. by destruct (includes t x). }
  destruct (visit_function_settles (λ s, x ∈ tags s)) with
    (type := type) (id := id) (params := params) (fbody := fbody)
    (h := TJSXElement (JSXName (JSXIdentifier x)) closing false) (kids := kids)
    (u := u) (i := i)
    as (params' & fbody' & f & u' & E & El & L & Hf); [| | |done|].
  - intros a b Ha (_ & _ & Hc). by apply Hc.
  - intros a Ha. apply injects_true. left. intros Hn. rewrite Hn in Ha.
    by apply elem_of_nil in Ha.
  - intros s rest u0 i0. rewrite He. eexists _, _, _. split; [done|].
    apply enterTag_records.
  - exists params', fbody', f, u'. split; [done|]. split; [done|]. split; [|split].
    + apply elem_of_app. left. apply list_elem_of_fmap. by exists x.
    + intros [mdx Hmdx]%isMDXContent_named. rewrite E, Hmdx. simpl.
      unfold declarationsOf, parametersOf, initOf. simpl.
      destruct (truthy (providerImportSource options)), mdx; simpl;
        [by eexists [_; _], _|by eexists [_], _|by eexists [_], _|by eexists [], _].
    + intros -> ->. by rewrite E.
Qed.

(** ** What entering a node leaves alone *)

(** X10: an element marked as explicit JSX whose name is an identifier that
    is not a component name is walked like any other node: entering it
    changes nothing, and the walk returns it under its own names around its
    walked children. *)
Theorem explicit_tag_left_alone (x : string) (closing : option jsxname)
    (kids : list node) (st : state) :
  isIdentifierName x && negb (startsLowercase x) = false →
  onenter isIdentifierName topScope
    (TJSXElement (JSXName (JSXIdentifier x)) closing true) st
  = (TJSXElement (JSXName (JSXIdentifier x)) closing true, st)
  ∧ visit isIdentifierName options topScope
      (Node (TJSXElement (JSXName (JSXIdentifier x)) closing true) kids) st
    = '(kids', st') ← visit_list isIdentifierName options topScope kids st;
      Ok (Node (TJSXElement (JSXName (JSXIdentifier x)) closing true) kids', st').
Proof.
  intros Hx.
  assert (onenter isIdentifierName topScope
            (TJSXElement (JSXName (JSXIdentifier x)) closing true) st
          = (TJSXElement (JSXName (JSXIdentifier x)) closing true, st)) as He.
  { unfold onenter. destruct st as [[|s rest] u i]; [done|]. simpl. by rewrite Hx. }
  split; [done|]. rewrite visit_eq, He.
  destruct (visit_list _ _ _ kids st) as [[kids' st']|]; [|done].
  simpl. by rewrite onleave_other.
Qed.

(** X18: entering a node changes the node only when it is an element, not
    marked as explicit JSX, named by an identifier that is not a component
    name, met while a function is open; the element is then renamed to
    [_components.<name>]. *)
Theorem only_tags_are_renamed (h : header) (st : state) :
  (onenter isIdentifierName topScope h st).1 ≠ h →
  ∃ x closing,
    h = TJSXElement (JSXName (JSXIdentifier x)) closing false
    ∧ isIdentifierName x && negb (startsLowercase x) = false
    ∧ stack st ≠ []
    ∧ (onenter isIdentifierName topScope h st).1
      = TJSXElement (viaComponents x) ((λ _, viaComponents x) <$> closing) false.
Proof.
  destruct (inert h) eqn:Hh; [by rewrite onenter_inert|].
  destruct h; try done.
  destruct st as [[|s rest] u i]; [done|].
  unfold onenter. simpl. destruct name as [[x|object property]|ns nm]; [|done|done].
  destruct (isIdentifierName x && negb (startsLowercase x)) eqn:E; [done|].
  destruct explicit; [done|]. intros _. exists x, closingName.
  split; [done|]. split; [done|]. split; [done|]. by destruct closingName.
Qed.

(** ** The keys of the defaults object *)

Lemma onenter_classified (P : scope → Prop) (h : header) (st : state) :
  P emptyScope →
  (∀ x s, P s → P (enterObject topScope x s)) →
  (∀ x s, isIdentifierName x && negb (startsLowercase x) = true →
          P s → P (enterComponent topScope x s)) →
  (∀ x s, isIdentifierName x && negb (startsLowercase x) = false →
          P s → P (enterTag x s)) →
  Forall P (stack st) →
  Forall P (stack (onenter isIdentifierName topScope h st).2).
Proof.
  intros P_empty P_object P_component P_tag H. destruct (inert h) eqn:Hh.
  - by rewrite onenter_inert.
  - destruct h; try done.
    + rewrite onenter_function. simpl. apply Forall_app. split; [done|].
      by constructor.
    + destruct st as [[|s rest] u i]; [done|].
      apply Forall_cons in H as [Hs Hrest].
      unfold onenter. simpl.
      destruct name as [[x|object property]|ns nm]; simpl.
      * destruct (isIdentifierName x && negb (startsLowercase x)) eqn:E; simpl.
        { constructor; auto. }
        destruct explicit; simpl; constructor; auto.
      * constructor; auto.
      * constructor; auto.
Qed.

Lemma propertyKey_fmap (g : string → node) (l : list string) :
  (∀ x, propertyKey (g x) = Some x) → omap propertyKey (g <$> l) = l.
Proof.
  intros Hg. induction l as [|x l IH]; [done|].
  rewrite fmap_cons. simpl. rewrite Hg. simpl. by f_equal.
Qed.

Lemma defaultsOf_keys (s : scope) :
  omap propertyKey (defaultsOf s)
  = tags s ++ filter (λ name, name ≠ "MDXLayout") (components s).
Proof.
  unfold defaultsOf. rewrite omap_app.
  by rewrite !propertyKey_fmap.
Qed.

(** X9: in every state of a walk, no frame holds a tag twice or a component
    twice, and no name is both a tag and a component of a frame; so the
    keys of the defaults object made from a frame are pairwise distinct. *)
Theorem defaults_keys_distinct (st : state) (s : scope) :
  reachable isIdentifierName options topScope st → s ∈ stack st →
  NoDup (tags s) ∧ NoDup (components s)
  ∧ (∀ x, x ∈ tags s → x ∉ components s)
  ∧ NoDup (omap propertyKey (defaultsOf s)).
Proof.
  intros Hr Hs.
  pose (P := λ f : scope,
          NoDup (tags f) ∧ NoDup (components f)
          ∧ (∀ x, x ∈ tags f → isIdentifierName x && negb (startsLowercase x) = false)
          ∧ (∀ x, x ∈ components f →
                  isIdentifierName x && negb (startsLowercase x) = true)).
  assert (Forall P (stack st)) as H.
  { clear Hs. induction Hr as [|h st _ IH|n st n' st' _ IH E].
    - constructor.
    - apply onenter_classified; [| | | |done].
      + split; [apply NoDup_nil_2|]. split; [apply NoDup_nil_2|].
        split; intros x Hx; by apply elem_of_nil in Hx.
      + intros x f (H1 & H2 & H3 & H4).
        destruct (enterObject_objects topScope x f)
          as (_ & Hc & Ht).
        unfold P. by rewrite Hc, Ht.
      + intros x f Hx (H1 & H2 & H3 & H4).
        destruct (enterComponent_components topScope x f)
          as (Hc & _ & Ht).
        unfold P. rewrite Hc, Ht. split; [done|].
        destruct (includes (components f) x) eqn:Ei; simpl; [done|].
        destruct (bool_decide (x ∈ topScope)); [done|].
        split; [|split; [done|]].
        * apply NoDup_app. split; [done|]. split; [|apply NoDup_singleton].
          intros z Hz ->%list_elem_of_singleton. by apply includes_false in Ei.
        * intros z [Hz|Hz%list_elem_of_singleton]%elem_of_app; [auto|by subst z].
      + intros x f Hx (H1 & H2 & H3 & H4).
        destruct (enterTag_tags x f)
          as (Ht & _ & Hc).
        unfold P. rewrite Hc, Ht. 
        destruct (includes (tags f) x) eqn:Ei; simpl; [done|].
        split; [|split; [done|split; [|done]]].
        * apply NoDup_app. split; [done|]. split; [|apply NoDup_singleton].
          intros z Hz ->%list_elem_of_singleton. by apply includes_false in Ei.
        * intros z [Hz|Hz%list_elem_of_singleton]%elem_of_app; [auto|by subst z].
    - apply onleave_stack in E as [[->|[f Hf]] _]; [done|].
      rewrite Hf in IH. by apply Forall_app in IH as [? _]. }
  rewrite Forall_forall in H. destruct (H s Hs) as (H1 & H2 & H3 & H4).
  assert (∀ x, x ∈ tags s → x ∉ components s) as Hd.
  { intros x Ht Hc. apply H3 in Ht. apply H4 in Hc. congruence. }
  split; [done|]. split; [done|]. split; [done|].
  rewrite defaultsOf_keys. apply NoDup_app. split; [done|]. split.
  - intros x Ht [_ Hc]%list_elem_of_filter. by apply (Hd x).
  - by apply NoDup_filter.
Qed.

(** ** The helper is declared only where it is called *)

Lemma visit_list_helperUsed (l : list node) (s : scope) (rest : list scope)
    (u i : bool) :
  ∃ l' s' u',
    visit_list isIdentifierName options topScope l (State (s :: rest) u i)
    = Ok (l', State (s' :: rest) u' i)
    ∧ (helperUsed s u → helperUsed s' u').
Proof.
  apply (visit_list_open_rel (λ a u b v, helperUsed a u → helperUsed b v));
    [done|intros a u0 b v c w; auto|].
  apply Forall_forall. intros k _.
  apply (visit_open_rel (λ a u b v, helperUsed a u → helperUsed b v)).
  - done.
  - intros a u0 b v c w. auto.
  - intros x f u0 H Hu. destruct (H Hu) as (y & Hy & Hn). exists y. split; [|done].
    by destruct (enterObject_objects topScope x f) as (_ & -> & _).
  - intros x f u0 H.
    destruct (enterComponent_components topScope x f) as (Hc & _ & _).
    unfold helperUsed. rewrite Hc.
    destruct (includes (components f) x); simpl; [done|].
    destruct (bool_decide (x ∈ topScope)); simpl; [done|].
    case_bool_decide as Hx; simpl.
    + intros Hu. destruct (H Hu) as (y & Hy & Hn). exists y. split; [|done].
      apply elem_of_app. by left.
    + intros _. exists x. split; [|done]. apply elem_of_app. right.
      by apply list_elem_of_singleton.
  - intros x f u0 H Hu. destruct (H Hu) as (y & Hy & Hn). exists y. split; [|done].
    by destruct (enterTag_tags x f) as (_ & _ & ->).
Qed.

Lemma visit_list_helper (l : list node) :
  Forall (λ k, ∀ i k' st',
            visit isIdentifierName options topScope k (State [] false i) = Ok (k', st') →
            useMissingComponentHelper st' = true →
            ∃ m, occurs m k' ∧ callsHelper options m) l →
  ∀ i l' st',
    visit_list isIdentifierName options topScope l (State [] false i) = Ok (l', st') →
    useMissingComponentHelper st' = true →
    ∃ k m, k ∈ l' ∧ occurs m k ∧ callsHelper options m.
Proof.
  induction 1 as [|a l Ha _ IH]; intros i l' st'.
  - intros [= <- <-]. done.
  - rewrite visit_list_cons.
    intros ([a' sta] & Ea & ([l1 stb] & El & [= <- <-])%bind_Ok)%bind_Ok Hst'.
    destruct (useMissingComponentHelper sta) eqn:Hsta.
    + destruct (Ha _ _ _ Ea Hsta) as (m & Hm & Hc).
      exists a', m. split; [apply elem_of_cons; by left|done].
    + pose proof (visit_closed _ _ _ _ _ Ea) as Hstack.
      destruct sta as [stack1 u1 i1]. simpl in *. subst stack1 u1.
      destruct (IH _ _ _ El Hst') as (k & m & Hk & Hm & Hc).
      exists k, m. split; [apply elem_of_cons; by right|done].
Qed.

Lemma visit_helper (n : node) :
  ∀ i n' st',
    visit isIdentifierName options topScope n (State [] false i) = Ok (n', st') →
    useMissingComponentHelper st' = true →
    ∃ m, occurs m n' ∧ callsHelper options m.
Proof.
  induction n as [h kids IH] using node_ind. intros i n' st'. rewrite visit_eq.
  destruct (inert h) eqn:Hh.
  - rewrite onenter_inert by done.
    intros ([l' st2] & E1 & E2)%bind_Ok Hst'. rewrite onleave_inert in E2 by done.
    injection E2 as <- <-.
    destruct (visit_list_helper kids IH _ _ _ E1 Hst') as (k & m & Hk & Hm & Hc).
    exists m. split; [by eapply occurs_child|done].
  - destruct h; try done.
    + rewrite onenter_function. simpl.
      destruct (visit_list_helperUsed kids emptyScope [] false i)
        as (l' & f & u' & -> & Hused).
      simpl. rewrite (onleave_function options type id l' [] f).
      destruct (injects f) eqn:Hf.
      * intros (mdx & _ & H)%bind_Ok Hst'.
        destruct (pop l') as [[fbody params]|]; [|done].
        injection H as <- <-. simpl in Hst'. subst u'.
        destruct Hused as (x & Hx & Hn); [done|done|].
        eexists. split; [apply occurs_here|].
        exists type, id, params, f, mdx, (blockOf fbody), x. split; [done|].
        apply elem_of_app. right. apply list_elem_of_fmap. exists x. split; [done|].
        by apply list_elem_of_filter.
      * intros [= <- <-] Hst'. simpl in Hst'. subst u'.
        destruct Hused as (x & Hx & Hn); [done|done|].
        apply injects_false in Hf as (_ & Hc & _). rewrite Hc in Hx.
        by apply elem_of_nil in Hx.
    + change (onenter isIdentifierName topScope (TJSXElement name closingName explicit)
                (State [] false i))
        with (TJSXElement name closingName explicit, State [] false i).
      cbv beta iota.
      intros ([l' st2] & E1 & E2)%bind_Ok Hst'. rewrite onleave_other in E2 by done.
      injection E2 as <- <-.
      destruct (visit_list_helper kids IH _ _ _ E1 Hst') as (k & m & Hk & Hm & Hc).
      exists m. split; [by eapply occurs_child|done].
Qed.

(** ** The layout component *)

(** X21: an element named [MDXLayout], a valid identifier name that the top
    scope does not bind, inside an outermost function.  The walk of the
    parameters and body of the function returns a frame out of which the
    pattern binds [MDXLayout] from the key [wrapper], not shorthand, and no
    entry of the defaults object calls the helper for it or gives a call
    to its key.  If the function has no other component, the walk leaves
    the helper flag as it was.  Unless the function is a declaration
    without a name, it comes out of the walk with the declaration of
    [_components] and of that pattern; for a declaration without a name
    the walk throws. *)
Theorem mdxlayout_read_from_wrapper (closing : option jsxname)
    (explicit : bool) (kids : list node) (type : fntype) (id : option string)
    (params : list node) (fbody : node) (u i : bool) :
  isIdentifierName "MDXLayout" = true → "MDXLayout" ∉ topScope →
  occurs (Node (TJSXElement (JSXName (JSXIdentifier "MDXLayout")) closing explicit) kids)
    (Fn type id params fbody) →
  ∃ params' fbody' f u',
    visit_list isIdentifierName options topScope (params ++ [fbody])
      (State [emptyScope] u i)
    = Ok (params' ++ [fbody'], State [f] u' i)
    ∧ length params' = length params
    ∧ Property "init" false (Identifier "wrapper") (Identifier "MDXLayout") ∈ actualOf f
    ∧ (∀ kind shorthand callee args,
         Property kind shorthand (Identifier "MDXLayout") (CallExpression callee args)
         ∉ defaultsOf f)
    ∧ (∀ kind shorthand key,
         Property kind shorthand key
           (CallExpression (Identifier "_missingComponent")
              [Literal (LString "MDXLayout")])
         ∉ defaultsOf f)
    ∧ ((∀ y, y ∈ components f → y = "MDXLayout") → u' = u)
    ∧ ((type = FunctionDeclaration → id ≠ None) →
       ∃ mdx,
         visit isIdentifierName options topScope (Fn type id params fbody) (State [] u i)
         = Ok (Fn type id params'
                 (BlockStatement
                    (VariableDeclaration "const"
                       [VariableDeclarator (Identifier "_components")
                          (initOf (parametersOf options (defaultsOf f) mdx));
                        VariableDeclarator (ObjectPattern (actualOf f))
                          (Identifier "_components")]
                     :: blockOf fbody')),
               State [] u' (i || truthy (providerImportSource options))))
    ∧ (type = FunctionDeclaration → id = None →
       visit isIdentifierName options topScope (Fn type id params fbody) (State [] u i)
       = Throw (TypeError "Cannot read properties of null (reading 'name')")).
Proof.
  intros Hi Ht Hocc.
  destruct (visit_function_component "MDXLayout" closing explicit kids type id params
              fbody u i Hi eq_refl Ht Hocc)
    as (params' & fbody' & f & u' & E & El & L & Hf & _).
  exists params', fbody', f, u'. split; [done|]. split; [done|].
  split; [|split; [|split; [|split; [|split]]]].
  - apply elem_of_app. left. apply list_elem_of_fmap. by exists "MDXLayout".
  - intros kind shorthand callee args [H|H]%elem_of_app.
    + by apply list_elem_of_fmap in H as (y & [=] & _).
    + apply list_elem_of_fmap in H as (y & [= _ _ <-] & [Hy _]%list_elem_of_filter).
      done.
  - intros kind shorthand key [H|H]%elem_of_app.
    + by apply list_elem_of_fmap in H as (y & [=] & _).
    + apply list_elem_of_fmap in H as (y & [= _ _ _ <-] & [Hy _]%list_elem_of_filter).
      done.
  - intros Hall.
    destruct (visit_list_helperUsed (params ++ [fbody]) emptyScope [] u i)
      as (l2 & f2 & u2 & El2 & Hused).
    assert (Forall (walksOpen isIdentifierName options topScope) (params ++ [fbody]))
      as Hopen.
    { apply Forall_forall. intros n _. apply visit_open. }
    destruct (visit_list_open isIdentifierName options topScope (params ++ [fbody])
                Hopen emptyScope [] u i) as (l3 & f3 & u3 & El3 & _ & Hmono & _).
    rewrite El in El2, El3. injection El2 as _ <- <-. injection El3 as _ _ <-.
    destruct u; [by rewrite Hmono|].
    destruct u'; [|done].
    destruct Hused as (y & Hy & Hn); [done|done|]. by destruct (Hn (Hall y Hy)).
  - intros [mdx Hmdx]%isMDXContent_named. exists mdx. by rewrite E, Hmdx.
  - intros -> ->. by rewrite E.
Qed.

End further.

Section further_root.

Context (isIdentifierName : string → bool) (analyze : Program → gset string)
  (specifiersToObjectPattern : list node → node)
  (options : RecmaJsxRewriteOptions).

(** X5: a program that holds no function comes out as it went in: JSX
    outside every function is not rewritten, and neither the helper nor the
    provider import is put at the root. *)
Theorem program_without_functions_unchanged (tree : Program) :
  Forall (λ k, hasFunction k = false) (body tree) →
  transform isIdentifierName analyze specifiersToObjectPattern options tree = Ok tree.
Proof.
  intros H. unfold transform.
  rewrite visit_list_unchanged.
  - simpl. by destruct tree.
  - eapply Forall_impl; [exact H|]. intros k Hk. by apply visit_without_function.
Qed.

(** X3: the pass returns on every program in which each function that is
    not inside another function has a body and, if it is a declaration, a
    name; the walk then ends outside every function. *)
Theorem transform_returns (tree : Program) :
  Forall (λ k, outermostNamed k = true) (body tree) →
  ∃ stmts u i,
    visit_list isIdentifierName options (analyze tree) (body tree) initialState
    = Ok (stmts, State [] u i)
    ∧ transform isIdentifierName analyze specifiersToObjectPattern options tree
      = Ok (mkProgram
              ((if i
                then [createImportProvider specifiersToObjectPattern
                        (providerImportSource options) (outputFormat options)]
                else [])
               ++ (if u then [createMissingComponentHelper] else [])
               ++ stmts)).
Proof.
  intros H.
  destruct (visit_list_outermost isIdentifierName options (analyze tree) (body tree))
    with (u := false) (i := false) as (stmts & u & i & E).
  - apply Forall_forall. intros k _ Hk. by apply visit_outermost.
  - done.
  - exists stmts, u, i. split; [done|]. unfold transform.
    change initialState with (State [] false false). rewrite E. simpl.
    by destruct u, i.
Qed.

(** ** Flags that stay set *)

Lemma visit_list_flags (topScope : gset string) (l : list node) (st : state)
    (l' : list node) (st' : state) :
  visit_list isIdentifierName options topScope l st = Ok (l', st') →
  (useMissingComponentHelper st = true → useMissingComponentHelper st' = true)
  ∧ (importProvider st = true → importProvider st' = true).
Proof.
  revert st l' st'.
  apply (visit_list_preserves isIdentifierName options topScope
           (λ a b, (useMissingComponentHelper a = true
                    → useMissingComponentHelper b = true)
                   ∧ (importProvider a = true → importProvider b = true)));
    [done|intros a b c [? ?] [? ?]; split; auto|].
  apply Forall_forall. intros k _.
  apply (visit_preserves isIdentifierName options topScope
           (λ a b, (useMissingComponentHelper a = true
                    → useMissingComponentHelper b = true)
                   ∧ (importProvider a = true → importProvider b = true)));
    [done|intros a b c [? ?] [? ?]; split; auto| |].
  - intros h st. rewrite onenter_importProvider. split; [|done].
    destruct (inert h) eqn:Hh; [by rewrite onenter_inert|].
    destruct h; try done.
    destruct st as [[|s rest] u i]; [done|].
    by destruct (onenter_element_open isIdentifierName topScope name closingName
                   explicit s rest u i) as (? & ? & ? & ? & -> & _ & ?).
  - intros n st n' st' E. split.
    + apply onleave_stack in E as [_ ->]. done.
    + apply onleave_cases in E as [[_ ->]|(? & ? & ? & ? & ? & ? & _ & _ & ->)];
        [done|].
      by intros ->.
Qed.

Lemma walk_after_function (topScope : gset string) (U I : Prop) (k : node)
    (l : list node) :
  Forall (λ k, outermostNamed k = true) l →
  k ∈ l →
  (∀ u i, ∃ k' u' i',
     visit isIdentifierName options topScope k (State [] u i)
     = Ok (k', State [] u' i') ∧ (U → u' = true) ∧ (I → i' = true)) →
  ∀ u i, ∃ l' u' i',
    visit_list isIdentifierName options topScope l (State [] u i)
    = Ok (l', State [] u' i') ∧ (U → u' = true) ∧ (I → i' = true).
Proof.
  intros Hall Hk Hvisit.
  assert (∀ l, Forall (λ k, outermostNamed k = true →
            ∀ u i, ∃ k' u' i',
              visit isIdentifierName options topScope k (State [] u i)
              = Ok (k', State [] u' i')) l) as Hout.
  { intros l0. apply Forall_forall. intros n _. apply visit_outermost. }
  induction l as [|a l IH]; [by apply elem_of_nil in Hk|].
  apply Forall_cons in Hall as [Ha Hall]. intros u i. rewrite visit_list_cons.
  apply elem_of_cons in Hk as [<-|Hk].
  - destruct (Hvisit u i) as (k' & u1 & i1 & -> & Hu & Hi). simpl.
    destruct (visit_list_outermost isIdentifierName options topScope l (Hout l) Hall
                u1 i1) as (l' & u2 & i2 & E).
    rewrite E. simpl. exists (k' :: l'), u2, i2. split; [done|].
    apply visit_list_flags in E as [Hu2 Hi2]. simpl in *. split; auto.
  - destruct (visit_outermost isIdentifierName options topScope a Ha u i)
      as (a' & u1 & i1 & ->). simpl.
    destruct (IH Hall Hk u1 i1) as (l' & u2 & i2 & -> & Hu & Hi). simpl.
    by exists (a' :: l'), u2, i2.
Qed.

Lemma outermostNamed_function (type : fntype) (id : option string)
    (params : list node) (fbody : node) :
  outermostNamed (Fn type id params fbody) = true →
  type = FunctionDeclaration → id ≠ None.
Proof. intros H -> ->. done. Qed.

(** X15: the helper is declared at the root of every program that has,
    among its statements, a function in which an element is named by a
    component name other than [MDXLayout] that the top scope does not bind:
    the pass returns, and the helper declaration is the first statement of
    the result, or the second after the provider import. *)
Theorem helper_declared_at_root (tree : Program) (x : string)
    (closing : option jsxname) (explicit : bool) (kids : list node)
    (type : fntype) (id : option string) (params : list node) (fbody : node) :
  Forall (λ k, outermostNamed k = true) (body tree) →
  Fn type id params fbody ∈ body tree →
  isIdentifierName x = true → startsLowercase x = false →
  x ∉ analyze tree → x ≠ "MDXLayout" →
  occurs (Node (TJSXElement (JSXName (JSXIdentifier x)) closing explicit) kids)
    (Fn type id params fbody) →
  ∃ pre stmts,
    transform isIdentifierName analyze specifiersToObjectPattern options tree
    = Ok (mkProgram (pre ++ createMissingComponentHelper :: stmts))
    ∧ length stmts = length (body tree)
    ∧ (pre = []
       ∨ pre = [createImportProvider specifiersToObjectPattern
                  (providerImportSource options) (outputFormat options)]).
Proof.
  intros Hall Hk Hi Hl Ht Hn Hocc.
  assert (outermostNamed (Fn type id params fbody) = true) as Hnamed.
  { rewrite Forall_forall in Hall. by apply Hall. }
  destruct (walk_after_function (analyze tree) True False (Fn type id params fbody)
              (body tree) Hall Hk) with (u := false) (i := false)
    as (stmts & u & i & E & Hu & _).
  { intros u i.
    destruct (visit_function_component isIdentifierName options (analyze tree)
                x closing explicit kids type id params fbody u i Hi Hl Ht Hocc)
      as (params' & fbody' & f & u' & E & _ & _ & _ & Hu).
    destruct (isMDXContent_named type id
                (outermostNamed_function type id params fbody Hnamed)) as [mdx Hmdx].
    rewrite Hmdx in E. eexists _, _, _. split; [exact E|]. split; [auto|done]. }
  rewrite (Hu Logic.I) in E. unfold transform.
  change initialState with (State [] false false). rewrite E. simpl.
  apply visit_list_length in E.
  destruct i; [eexists [_], stmts|exists [], stmts]; split; auto.
Qed.

(** X17: with a provider source configured, the provider import is the
    first statement of the result for every program that has, among its
    statements, a function in which a tag occurs. *)
Theorem provider_imported_at_root (tree : Program) (x : string)
    (closing : option jsxname) (kids : list node)
    (type : fntype) (id : option string) (params : list node) (fbody : node) :
  truthy (providerImportSource options) = true →
  Forall (λ k, outermostNamed k = true) (body tree) →
  Fn type id params fbody ∈ body tree →
  startsLowercase x = true →
  occurs (Node (TJSXElement (JSXName (JSXIdentifier x)) closing false) kids)
    (Fn type id params fbody) →
  ∃ stmts,
    transform isIdentifierName analyze specifiersToObjectPattern options tree
    = Ok (mkProgram
            (createImportProvider specifiersToObjectPattern
               (providerImportSource options) (outputFormat options)
             :: stmts)).
Proof.
  intros Hp Hall Hk Hx Hocc.
  assert (outermostNamed (Fn type id params fbody) = true) as Hnamed.
  { rewrite Forall_forall in Hall. by apply Hall. }
  destruct (walk_after_function (analyze tree) False True (Fn type id params fbody)
              (body tree) Hall Hk) with (u := false) (i := false)
    as (stmts & u & i & E & _ & Hi).
  { intros u i.
    destruct (visit_function_settles isIdentifierName options (analyze tree)
                (λ s, x ∈ tags s)) with
      (type := type) (id := id) (params := params) (fbody := fbody)
      (h := TJSXElement (JSXName (JSXIdentifier x)) closing false) (kids := kids)
      (u := u) (i := i)
      as (params' & fbody' & f & u' & E & _); [| | |done|].
    - intros a b Ha (_ & _ & Hc). by apply Hc.
    - intros a Ha. apply injects_true. left. intros Hn. rewrite Hn in Ha.
      by apply elem_of_nil in Ha.
    - intros s rest u0 i0. rewrite onenter_tag by done. eexists _, _, _.
      split; [done|]. apply enterTag_records.
    - destruct (isMDXContent_named type id
                  (outermostNamed_function type id params fbody Hnamed)) as [mdx Hmdx].
      rewrite Hmdx in E. eexists _, _, _. split; [exact E|]. split; [done|]. intros _.
      rewrite Hp. by destruct i. }
  rewrite (Hi Logic.I) in E. unfold transform.
  change initialState with (State [] false false). rewrite E. simpl.
  destruct u; by eexists.
Qed.

(** X20: when the pass returns with the helper declared at the root, some
    function of the result starts with the declaration of [_components]
    whose defaults object calls the helper: the helper is never declared
    without a use. *)
Theorem helper_declared_only_when_called (tree tree' : Program) :
  transform isIdentifierName analyze specifiersToObjectPattern options tree = Ok tree' →
  ∃ stmts st,
    visit_list isIdentifierName options (analyze tree) (body tree) initialState
    = Ok (stmts, st)
    ∧ body tree'
      = (if importProvider st
         then [createImportProvider specifiersToObjectPattern
                 (providerImportSource options) (outputFormat options)]
         else [])
        ++ (if useMissingComponentHelper st then [createMissingComponentHelper] else [])
        ++ stmts
    ∧ (useMissingComponentHelper st = true →
       ∃ k m type id params f mdx rest x,
         k ∈ stmts ∧ occurs m k
         ∧ m = Fn type id params
                 (BlockStatement
                    (VariableDeclaration "const"
                       (VariableDeclarator (Identifier "_components")
                          (initOf (parametersOf options (defaultsOf f) mdx))
                        :: [VariableDeclarator (ObjectPattern (actualOf f))
                              (Identifier "_components")])
                     :: rest))
         ∧ Property "init" false (Identifier x)
             (CallExpression (Identifier "_missingComponent") [Literal (LString x)])
           ∈ defaultsOf f
         ∧ Property "init" true (Identifier x) (Identifier x) ∈ actualOf f).
Proof.
  unfold transform. intros ([stmts st] & E & [= <-])%bind_Ok.
  exists stmts, st. split; [done|].
  split; [simpl; by destruct (importProvider st), (useMissingComponentHelper st)|].
  intros Hu.
  destruct (visit_list_helper isIdentifierName options (analyze tree) (body tree))
    with (i := false) (l' := stmts) (st' := st)
    as (k & m & Hk & Hm & (type & id & params & f & mdx & rest & x & Em & Hx));
    [|done|done|].
  { apply Forall_forall. intros n _. apply visit_helper. }
  apply elem_of_app in Hx as [Hx|Hx];
    [by apply list_elem_of_fmap in Hx as (y & [=] & _)|].
  apply list_elem_of_fmap in Hx as (y & [= <-] & [Hn Hc]%list_elem_of_filter).
  assert (Property "init" true (Identifier x) (Identifier x) ∈ actualOf f) as Ha.
  { apply elem_of_app. left. apply list_elem_of_fmap. exists x. split; [|done].
    by rewrite bool_decide_eq_true_2, bool_decide_eq_false_2. }
  exists k, m, type, id, params, f, mdx, rest, x.
  split; [done|]. split; [done|]. split.
  - rewrite Em, declarationsOf_actual; [done|].
    intros Hnil. rewrite Hnil in Ha. by apply elem_of_nil in Ha.
  - split; [|done].
    apply elem_of_app. right. apply list_elem_of_fmap. exists x. split; [done|].
    by apply list_elem_of_filter.
Qed.

(** X19: when the pass returns with the provider import at the root, the
    provider source is a string that is not empty, and the import is made
    from it: in function-body format the names are read from
    [arguments[0]], otherwise they are imported from the source. *)
Theorem provider_import_has_source (tree tree' : Program) :
  transform isIdentifierName analyze specifiersToObjectPattern options tree = Ok tree' →
  ∃ stmts st,
    visit_list isIdentifierName options (analyze tree) (body tree) initialState
    = Ok (stmts, st)
    ∧ (importProvider st = true →
       ∃ source more,
         providerImportSource options = Some source ∧ source ≠ ""
         ∧ body tree'
           = (if bool_decide (outputFormat options = Some "function-body")
              then VariableDeclaration "const"
                     [VariableDeclarator
                        (specifiersToObjectPattern
                           [ImportSpecifier (Identifier "useMDXComponents")
                              (Identifier "_provideComponents")])
                        (MemberExpression (Identifier "arguments")
                           (Literal (LNumber 0)) true)]
              else ImportDeclaration
                     [ImportSpecifier (Identifier "useMDXComponents")
                        (Identifier "_provideComponents")]
                     (Literal (LString source)))
             :: more).
Proof.
  unfold transform. intros ([stmts st] & E & [= <-])%bind_Ok.
  exists stmts, st. split; [done|]. intros Hi.
  destruct (visit_list_provider_source isIdentifierName options _ _ _ _ _ E Hi)
    as [?|Ht]; [done|].
  destruct (providerImportSource options) as [source|] eqn:Hs; [|done].
  simpl in Ht. apply negb_true_iff, bool_decide_eq_false in Ht.
  exists source. rewrite Hi. simpl. eexists. split; [done|]. split; [done|].
  unfold createImportProvider. by case_bool_decide.
Qed.

End further_root.

(** ** Running the defaults object *)







(** * Examples

    The properties above at concrete programs.  The identifier test is
    [asciiIdentifierName]; where no provider import in function-body format
    is made, [ObjectPattern] stands in for [specifiersToObjectPattern],
    which is then never called. *)

(** [<h1>...</h1>], not marked as explicit JSX, met inside a function. *)
Lemma tag_routed_through_components_h1 :
  let isIdentifierName := asciiIdentifierName in
  let options := Options None None in
  let topScope := (∅ : gset string) in
  let x := "h1" in
  let attributes := ([] : list node) in
  let kids := ([] : list node) in
  let closing := Some (JSXName (JSXIdentifier "h1")) in
  let s := emptyScope in
  let rest := ([] : list scope) in
  let u := false in
  let i := false in
  (startsLowercase x = true)
  ∧ (onenter isIdentifierName topScope
        (TJSXElement (JSXName (JSXIdentifier x)) closing false) (State (s :: rest) u i)
      = (TJSXElement (JSXName (JSXMemberExpression (JSXIdentifier "_components") x))
           (match closing with
            | Some _ => Some (JSXName (JSXMemberExpression (JSXIdentifier "_components") x))
            | None => None
            end)
           false,
         State
           (Scope (objects s) (components s)
              (if includes (tags s) x then tags s else tags s ++ [x])
            :: rest)
           u i)
      ∧ (∃ attributes' kids' s' u',
           visit isIdentifierName options topScope
             (JSXElement (JSXName (JSXIdentifier x)) attributes closing false kids)
             (State (s :: rest) u i)
           = Ok (JSXElement (JSXName (JSXMemberExpression (JSXIdentifier "_components") x))
                   attributes'
                   (match closing with
                    | Some _ =>
                        Some (JSXName (JSXMemberExpression (JSXIdentifier "_components") x))
                    | None => None
                    end)
                   false kids',
                 State (s' :: rest) u' i)
           ∧ visit_list isIdentifierName options topScope (attributes ++ kids)
               (State
                  (Scope (objects s) (components s)
                     (if includes (tags s) x then tags s else tags s ++ [x])
                   :: rest)
                  u i)
             = Ok (attributes' ++ kids', State (s' :: rest) u' i)
           ∧ x ∈ tags s'
           ∧ length attributes' = length attributes ∧ length kids' = length kids)
      ∧ (∀ f, x ∈ tags f →
           Property "init" false (Identifier x) (Literal (LString x)) ∈ defaultsOf f)
      ∧ (∀ type id params fbody u0 i0,
           occurs (JSXElement (JSXName (JSXIdentifier x)) attributes closing false kids)
             (Fn type id params fbody) →
           ∃ params' fbody' f u',
             visit_list isIdentifierName options topScope (params ++ [fbody])
               (State [emptyScope] u0 i0)
             = Ok (params' ++ [fbody'], State [f] u' i0)
             ∧ length params' = length params
             ∧ x ∈ tags f
             ∧ Property "init" false (Identifier x) (Literal (LString x)) ∈ defaultsOf f
             ∧ ((type = FunctionDeclaration → id ≠ None) →
                ∃ parts more kids',
                  visit isIdentifierName options topScope (Fn type id params fbody)
                    (State [] u0 i0)
                  = Ok (Fn type id params'
                          (BlockStatement
                             (VariableDeclaration "const"
                                (VariableDeclarator (Identifier "_components")
                                   (match parts with
                                    | [] => ObjectExpression (defaultsOf f)
                                    | _ =>
                                        CallExpression
                                          (MemberExpression (Identifier "Object")
                                             (Identifier "assign") false)
                                          (ObjectExpression (defaultsOf f) :: parts)
                                    end)
                                 :: more)
                              :: blockOf fbody')),
                        State [] u' (i0 || truthy (providerImportSource options)))
                  ∧ occurs
                      (Node
                         (TJSXElement
                            (JSXName (JSXMemberExpression (JSXIdentifier "_components") x))
                            (match closing with
                             | Some _ =>
                                 Some
                                   (JSXName
                                      (JSXMemberExpression (JSXIdentifier "_components") x))
                             | None => None
                             end)
                            false)
                         kids')
                      (Fn type id params'
                         (BlockStatement
                            (VariableDeclaration "const"
                               (VariableDeclarator (Identifier "_components")
                                  (match parts with
                                   | [] => ObjectExpression (defaultsOf f)
                                   | _ =>
                                       CallExpression
                                         (MemberExpression (Identifier "Object")
                                            (Identifier "assign") false)
                                         (ObjectExpression (defaultsOf f) :: parts)
                                   end)
                                :: more)
                             :: blockOf fbody')))
                  ∧ length kids' = length (attributes ++ kids))
             ∧ (type = FunctionDeclaration → id = None →
                visit isIdentifierName options topScope (Fn type id params fbody)
                  (State [] u0 i0)
                = Throw (TypeError "Cannot read properties of null (reading 'name')")))).
Proof.
  intros isIdentifierName options topScope x attributes kids closing s rest u i.
  assert (startsLowercase x = true)
    as H1 by (reflexivity).
  exact (conj H1 (tag_routed_through_components isIdentifierName options topScope x
    attributes kids closing s rest u i H1)).
Defined.

(** C2 as stated fails: inside [function f() { return <foo/> }] of a program
    whose top scope binds [foo], the name [foo] is added to the tags of the
    frame. *)
Lemma top_scope_name_recorded_as_tag :
  "foo" ∈ ({["foo"; "f"]} : gset string)
  ∧ onenter asciiIdentifierName {["foo"; "f"]}
      (TJSXElement (JSXName (JSXIdentifier "foo")) None false)
      (onenter asciiIdentifierName {["foo"; "f"]}
         (TFunction FunctionDeclaration (Some "f")) initialState).2
    = (TJSXElement (JSXName (JSXMemberExpression (JSXIdentifier "_components") "foo"))
         None false,
       State [Scope [] [] ["foo"]] false false).
Proof. split; [by vm_compute|reflexivity]. Qed.

(** Inside [function f() { return <Foo><Bar/><foo/></Foo> }] of a program
    whose top scope binds [Foo] and [foo]: entering [<Foo>] leaves the frame
    as it is, entering [<Bar/>] adds a component, and entering [<foo/>]
    adds a tag although the top scope binds the name. *)
Lemma top_scope_names_not_tracked_in_function :
  reachable asciiIdentifierName (Options None None) {["Foo"; "foo"]}
    (State [Scope [] ["Bar"] ["foo"]] true false)
  ∧ "Foo" ∈ ({["Foo"; "foo"]} : gset string)
  ∧ ("Foo" ∉ objects (Scope [] ["Bar"] ["foo"]))
  ∧ ("Foo" ∉ components (Scope [] ["Bar"] ["foo"]))
  ∧ onenter asciiIdentifierName {["Foo"; "foo"]}
      (TJSXElement (JSXName (JSXIdentifier "Foo")) None false)
      (State [emptyScope] false false)
    = (TJSXElement (JSXName (JSXIdentifier "Foo")) None false,
       State [emptyScope] false false)
  ∧ onenter asciiIdentifierName {["Foo"; "foo"]}
      (TJSXElement (JSXName (JSXMemberExpression (JSXIdentifier "Foo") "Baz")) None false)
      (State [emptyScope] false false)
    = (TJSXElement (JSXName (JSXMemberExpression (JSXIdentifier "Foo") "Baz")) None false,
       State [emptyScope] false false)
  ∧ "foo" ∈ ({["Foo"; "foo"]} : gset string)
  ∧ ∃ h1,
      onenter asciiIdentifierName {["Foo"; "foo"]}
        (TJSXElement (JSXName (JSXIdentifier "foo")) None false)
        (State [Scope [] ["Bar"] []] true false)
      = (h1, State [Scope [] ["Bar"] ["foo"]] true false)
      ∧ "foo" ∈ ["foo"].
Proof.
  assert (reachable asciiIdentifierName (Options None None) {["Foo"; "foo"]}
            (State [Scope [] ["Bar"] ["foo"]] true false)) as Hr.
  { exact (reachable_enter asciiIdentifierName (Options None None) {["Foo"; "foo"]}
             (TJSXElement (JSXName (JSXIdentifier "foo")) None false) _
             (reachable_enter asciiIdentifierName (Options None None) {["Foo"; "foo"]}
                (TJSXElement (JSXName (JSXIdentifier "Bar")) None false) _
                (reachable_enter asciiIdentifierName (Options None None)
                   {["Foo"; "foo"]}
                   (TJSXElement (JSXName (JSXIdentifier "Foo")) None false) _
                   (reachable_enter asciiIdentifierName (Options None None)
                      {["Foo"; "foo"]}
                      (TFunction FunctionDeclaration (Some "f")) _
                      (reachable_initial _ _ _))))). }
  assert ("Foo" ∈ ({["Foo"; "foo"]} : gset string)) as HFoo by (by vm_compute).
  assert ("foo" ∈ ({["Foo"; "foo"]} : gset string)) as Hfoo by (by vm_compute).
  destruct (top_scope_names_not_tracked asciiIdentifierName (Options None None)
              {["Foo"; "foo"]}) as (Hframes & Hcomponent & Hobject & Htag).
  destruct (Hframes (State [Scope [] ["Bar"] ["foo"]] true false)
              (Scope [] ["Bar"] ["foo"]) "Foo" Hr (list_elem_of_here _ _) HFoo)
    as [Ho Hc].
  split; [exact Hr|]. split; [exact HFoo|]. split; [exact Ho|]. split; [exact Hc|].
  split; [exact (Hcomponent "Foo" None false (State [emptyScope] false false) HFoo
                   eq_refl)|].
  split; [exact (Hobject (JSXIdentifier "Foo") "Baz" None false
                   (State [emptyScope] false false) HFoo)|].
  split; [exact Hfoo|].
  exact (Htag "foo" None (Scope [] ["Bar"] []) [] true false eq_refl).
Defined.

(** C3 at the failing input
    [function Page() { return <MDXLayout><MDXLayout.A/></MDXLayout> }]: the
    pattern binds [MDXLayout] from the key [wrapper] and again, shorthand,
    from the key [MDXLayout], so the declaration binds the same constant
    twice.  The loop over the objects of the frame has no case for
    [MDXLayout]; the loop over its components has. *)
Lemma mdxlayout_bound_from_its_own_key :
  transform asciiIdentifierName (λ _, {["Page"]}) ObjectPattern (Options None None)
    (mkProgram
       [Fn FunctionDeclaration (Some "Page") []
          (BlockStatement
             [ReturnStatement
                (JSXElement (JSXName (JSXIdentifier "MDXLayout")) []
                   (Some (JSXName (JSXIdentifier "MDXLayout"))) false
                   [JSXElement
                      (JSXName (JSXMemberExpression (JSXIdentifier "MDXLayout") "A"))
                      [] None false []])])])
  = Ok
      (mkProgram
         [Fn FunctionDeclaration (Some "Page") []
            (BlockStatement
               [VariableDeclaration "const"
                  [VariableDeclarator (Identifier "_components") (ObjectExpression []);
                   VariableDeclarator
                     (ObjectPattern
                        [Property "init" false (Identifier "wrapper")
                           (Identifier "MDXLayout");
                         Property "init" true (Identifier "MDXLayout")
                           (Identifier "MDXLayout")])
                     (Identifier "_components")];
                ReturnStatement
                  (JSXElement (JSXName (JSXIdentifier "MDXLayout")) []
                     (Some (JSXName (JSXIdentifier "MDXLayout"))) false
                     [JSXElement
                        (JSXName (JSXMemberExpression (JSXIdentifier "MDXLayout") "A"))
                        [] None false []])])]).
Proof. by vm_compute. Qed.

(** C5 as stated fails: for [function MDXContent(props) { return <h1/> }]
    the last part of the initializer is [_props.components], and the first
    parameter of the function is [props]. *)
Lemma mdxcontent_props_not_first_parameter :
  transform asciiIdentifierName (λ _, {["MDXContent"]}) ObjectPattern
    (Options None None)
    (mkProgram
       [Fn FunctionDeclaration (Some "MDXContent") [Identifier "props"]
          (BlockStatement
             [ReturnStatement
                (JSXElement (JSXName (JSXIdentifier "h1")) [] None false [])])])
  = Ok
      (mkProgram
         [Fn FunctionDeclaration (Some "MDXContent") [Identifier "props"]
            (BlockStatement
               [VariableDeclaration "const"
                  [VariableDeclarator (Identifier "_components")
                     (CallExpression
                        (MemberExpression (Identifier "Object") (Identifier "assign")
                           false)
                        [ObjectExpression
                           [Property "init" false (Identifier "h1")
                              (Literal (LString "h1"))];
                         MemberExpression (Identifier "_props")
                           (Identifier "components") false])];
                ReturnStatement
                  (JSXElement (viaComponents "h1") [] None false [])])])
  ∧ MemberExpression (Identifier "_props") (Identifier "components") false
    ≠ MemberExpression (Identifier "props") (Identifier "components") false.
Proof. split; [by vm_compute|discriminate]. Qed.

(** The same function with the frame that the walk leaves it with. *)
Lemma mdxcontent_props_last_h1 :
  (tags (Scope [] [] ["h1"]) ≠ [] ∨ components (Scope [] [] ["h1"]) ≠ []
   ∨ objects (Scope [] [] ["h1"]) ≠ [])
  ∧ ∃ parts more,
      onleave (Options None None)
        (Fn FunctionDeclaration (Some "MDXContent") [Identifier "props"]
           (BlockStatement []))
        (State ([] ++ [Scope [] [] ["h1"]]) false false)
      = Ok (Fn FunctionDeclaration (Some "MDXContent") [Identifier "props"]
              (BlockStatement
                 (VariableDeclaration "const"
                    (VariableDeclarator (Identifier "_components")
                       (CallExpression
                          (MemberExpression (Identifier "Object")
                             (Identifier "assign") false)
                          (parts
                           ++ [MemberExpression (Identifier "_props")
                                 (Identifier "components") false]))
                     :: more)
                  :: blockOf (BlockStatement []))),
            State [] false (false || truthy (providerImportSource (Options None None)))).
Proof.
  assert (tags (Scope [] [] ["h1"]) ≠ [] ∨ components (Scope [] [] ["h1"]) ≠ []
          ∨ objects (Scope [] [] ["h1"]) ≠ []) as H by (left; discriminate).
  split; [exact H|].
  exact (mdxcontent_props_last (Options None None) [Identifier "props"]
           (BlockStatement []) [] (Scope [] [] ["h1"]) false false H).
Defined.

(** C8 as stated fails: inside a function of a program whose top scope binds
    [Foo], entering [<Foo.Bar/>] adds nothing to the objects of the frame. *)
Lemma top_scope_object_not_added :
  "Foo" ∈ ({["Foo"]} : gset string)
  ∧ leftmost (JSXMemberExpression (JSXIdentifier "Foo") "Bar") = "Foo"
  ∧ onenter asciiIdentifierName {["Foo"]}
      (TJSXElement (JSXName (JSXMemberExpression (JSXIdentifier "Foo") "Bar")) None false)
      (State [Scope [] [] []] false false)
    = (TJSXElement (JSXName (JSXMemberExpression (JSXIdentifier "Foo") "Bar")) None false,
       State [Scope [] [] []] false false).
Proof. split; [by vm_compute|]. split; reflexivity. Qed.

(** An arrow function [() => x] left with the tag [h1] and a provider
    source: [const _components = Object.assign({h1: "h1"}, _provideComponents())]. *)
Lemma components_initializer_h1 :
  (tags (Scope [] [] ["h1"]) ≠ [] ∨ components (Scope [] [] ["h1"]) ≠ []
   ∨ objects (Scope [] [] ["h1"]) ≠ [])
  ∧ isMDXContent ArrowFunctionExpression None = Ok false
  ∧ ∃ parts init more,
      parts
      = [ObjectExpression
           [Property "init" false (Identifier "h1") (Literal (LString "h1"))]]
        ++ [CallExpression (Identifier "_provideComponents") []] ++ []
      ∧ init
        = match parts with
          | [part] => part
          | _ =>
              CallExpression
                (MemberExpression (Identifier "Object") (Identifier "assign") false)
                parts
          end
      ∧ onleave (Options None (Some "@mdx-js/react"))
          (Fn ArrowFunctionExpression None [] (Identifier "x"))
          (State ([] ++ [Scope [] [] ["h1"]]) false false)
        = Ok (Fn ArrowFunctionExpression None []
                (BlockStatement
                   (VariableDeclaration "const"
                      (VariableDeclarator (Identifier "_components") init :: more)
                    :: [ReturnStatement (Identifier "x")])),
              State [] false true)
      ∧ (∀ fuel env target values sources,
           1 < length parts →
           env !! "Object" = None →
           evalAll (eval fuel env) parts = Some (inl (VObject target :: values)) →
           mapM asSource values = Some sources →
           eval (S fuel) env init
           = Some (Value (VObject (objectAssign target sources))))
      ∧ (∀ target sources o k,
           objectAssign target (sources ++ [o]) !! k
           = match o !! k with
             | Some v => Some v
             | None => objectAssign target sources !! k
             end).
Proof.
  assert (tags (Scope [] [] ["h1"]) ≠ [] ∨ components (Scope [] [] ["h1"]) ≠ []
          ∨ objects (Scope [] [] ["h1"]) ≠ []) as H by (left; discriminate).
  split; [exact H|]. split; [reflexivity|].
  exact (components_initializer (Options None (Some "@mdx-js/react"))
           ArrowFunctionExpression None [] (Identifier "x") []
           (Scope [] [] ["h1"]) false false false H eq_refl).
Defined.

(** The scenario comes out with the provider import first, the helper
    second, and the rewritten function after them. *)
Lemma root_statements_scenario :
  transform asciiIdentifierName (λ _, {["MDXContent"]}) ObjectPattern scenarioOptions
    scenario
  = Ok scenarioResult
  ∧ ∃ stmts st,
      visit_list asciiIdentifierName scenarioOptions {["MDXContent"]} (body scenario)
        initialState
      = Ok (stmts, st)
      ∧ length stmts = length (body scenario)
      ∧ body scenarioResult
        = (if importProvider st
           then [createImportProvider ObjectPattern
                   (providerImportSource scenarioOptions) (outputFormat scenarioOptions)]
           else [])
          ++ (if useMissingComponentHelper st then [createMissingComponentHelper] else [])
          ++ stmts
      ∧ (importProvider st = true →
         truthy (providerImportSource scenarioOptions) = true
         ∧ ∃ k m, k ∈ stmts ∧ occurs m k ∧ providerMerged m).
Proof.
  assert (transform asciiIdentifierName (λ _, {["MDXContent"]}) ObjectPattern
            scenarioOptions scenario
          = Ok scenarioResult) as H by (vm_compute; reflexivity).
  split; [exact H|].
  exact (root_statements asciiIdentifierName (λ _, {["MDXContent"]}) ObjectPattern
           scenarioOptions scenario scenarioResult H).
Defined.

(** Run with the helper, a provider and props, the initializer of the
    scenario is an object in which [div] keeps its default, [h1] is the
    provider's, and [Foo], which the defaults, the provider and the props
    all give, is the one of the props. *)
Lemma scenario_initializer_merged :
  ∃ helper o,
    declared createMissingComponentHelper = Some ("_missingComponent", helper)
    ∧ eval 8 (scenarioEnvironment helper) scenarioInitializer = Some (Value (VObject o))
    ∧ o !! "div" = Some (VString "div")
    ∧ o !! "h1" = Some (VString "Heading")
    ∧ o !! "Foo" = Some (VString "GivenFoo").
Proof. eexists _, _. split; [reflexivity|]. split; [by vm_compute|]. by vm_compute. Qed.

(** Leaving a function declaration that has no name, as in
    [export default function () { return <h1/> }], throws when its frame is
    not empty: the test for [MDXContent] reads the name of its [id]. *)
Lemma anonymous_declaration_throws :
  transform asciiIdentifierName (λ _, ∅) ObjectPattern (Options None None)
    (mkProgram
       [Node (TOther "ExportDefaultDeclaration")
          [Fn FunctionDeclaration None []
             (BlockStatement
                [ReturnStatement
                   (JSXElement (JSXName (JSXIdentifier "h1")) [] None false [])])]])
  = Throw (TypeError "Cannot read properties of null (reading 'name')").
Proof. reflexivity. Qed.

(** Two functions that both use the provider: the import is at the root
    once, before both. *)
Lemma provider_import_once :
  transform asciiIdentifierName (λ _, {["a"; "b"]}) ObjectPattern scenarioOptions
    (mkProgram
       [Fn FunctionDeclaration (Some "a") []
          (BlockStatement
             [ReturnStatement (JSXElement (JSXName (JSXIdentifier "p")) [] None false [])]);
        Fn FunctionDeclaration (Some "b") []
          (BlockStatement
             [ReturnStatement (JSXElement (JSXName (JSXIdentifier "p")) [] None false [])])])
  = Ok
      (mkProgram
         [ImportDeclaration
            [ImportSpecifier (Identifier "useMDXComponents")
               (Identifier "_provideComponents")]
            (Literal (LString "@mdx-js/react"));
          Fn FunctionDeclaration (Some "a") []
            (BlockStatement
               [VariableDeclaration "const"
                  [VariableDeclarator (Identifier "_components")
                     (CallExpression
                        (MemberExpression (Identifier "Object") (Identifier "assign")
                           false)
                        [ObjectExpression
                           [Property "init" false (Identifier "p")
                              (Literal (LString "p"))];
                         CallExpression (Identifier "_provideComponents") []])];
                ReturnStatement (JSXElement (viaComponents "p") [] None false [])]);
          Fn FunctionDeclaration (Some "b") []
            (BlockStatement
               [VariableDeclaration "const"
                  [VariableDeclarator (Identifier "_components")
                     (CallExpression
                        (MemberExpression (Identifier "Object") (Identifier "assign")
                           false)
                        [ObjectExpression
                           [Property "init" false (Identifier "p")
                              (Literal (LString "p"))];
                         CallExpression (Identifier "_provideComponents") []])];
                ReturnStatement (JSXElement (viaComponents "p") [] None false [])])]).
Proof. by vm_compute. Qed.

(** ** The further properties at concrete programs *)

(** A node occurs in a tree: here, or below one of the first three
    children. *)
Ltac occurs_in :=
  solve
    [ apply occurs_here
    | eapply occurs_child; [apply list_elem_of_here|occurs_in]
    | eapply occurs_child; [apply list_elem_of_further, list_elem_of_here|occurs_in]
    | eapply occurs_child;
        [apply list_elem_of_further, list_elem_of_further, list_elem_of_here|occurs_in] ].

(** Inside the function expression in [function Page() { return <h1>{function
    () {}}</h1> }]: the frame of the inner function is empty. *)
Lemma inner_frames_stay_empty_nested :
  let isIdentifierName := asciiIdentifierName in
  let options := Options None None in
  let topScope := (∅ : gset string) in
  let st := State [Scope [] [] ["h1"]; emptyScope] false false in
  let k := 0 in
  let f := emptyScope in
  (reachable isIdentifierName options topScope st)
  ∧ (stack st !! S k = Some f)
  ∧ (f = emptyScope).
Proof.
  intros isIdentifierName options topScope st k f.
  assert (reachable isIdentifierName options topScope st)
    as H1 by (exact (reachable_enter asciiIdentifierName (Options None None) ∅
              (TFunction FunctionExpression None) _
              (reachable_enter asciiIdentifierName (Options None None) ∅
                 (TJSXElement (JSXName (JSXIdentifier "h1")) None false) _
                 (reachable_enter asciiIdentifierName (Options None None) ∅
                    (TFunction FunctionDeclaration (Some "Page")) _
                    (reachable_initial _ _ _))))).
  assert (stack st !! S k = Some f)
    as H2 by (reflexivity).
  exact (conj H1 (conj H2 (inner_frames_stay_empty isIdentifierName options topScope st
    k f H1 H2))).
Defined.

(** The pass returns on the scenario, whose one function is a named
    declaration. *)
Lemma transform_returns_scenario :
  let isIdentifierName := asciiIdentifierName in
  let analyze := (λ _ : Program, ({["MDXContent"]} : gset string)) in
  let specifiersToObjectPattern := ObjectPattern in
  let options := scenarioOptions in
  let tree := scenario in
  (Forall (λ k, outermostNamed k = true) (body tree))
  ∧ (∃ stmts u i,
        visit_list isIdentifierName options (analyze tree) (body tree) initialState
        = Ok (stmts, State [] u i)
        ∧ transform isIdentifierName analyze specifiersToObjectPattern options tree
          = Ok (mkProgram
                  ((if i
                    then [createImportProvider specifiersToObjectPattern
                            (providerImportSource options) (outputFormat options)]
                    else [])
                   ++ (if u then [createMissingComponentHelper] else [])
                   ++ stmts))).
Proof.
  intros isIdentifierName analyze specifiersToObjectPattern options tree.
  assert (Forall (λ k, outermostNamed k = true) (body tree))
    as H1 by (repeat constructor).
  exact (conj H1 (transform_returns isIdentifierName analyze specifiersToObjectPattern
    options tree H1)).
Defined.

(** [function () { return <h1/> }] as a declaration without a name. *)
Lemma unnamed_declaration_with_tag_throws_h1 :
  let isIdentifierName := asciiIdentifierName in
  let options := Options None None in
  let topScope := (∅ : gset string) in
  let x := "h1" in
  let closing := (None : option jsxname) in
  let kids := ([] : list node) in
  let params := ([] : list node) in
  let fbody := BlockStatement [ReturnStatement (h1Element)] in
  let u := false in
  let i := false in
  (startsLowercase x = true)
  ∧ (occurs (Node (TJSXElement (JSXName (JSXIdentifier x)) closing false) kids)
        (Fn FunctionDeclaration None params fbody))
  ∧ (visit isIdentifierName options topScope (Fn FunctionDeclaration None params fbody)
        (State [] u i)
      = Throw (TypeError "Cannot read properties of null (reading 'name')")).
Proof.
  intros isIdentifierName options topScope x closing kids params fbody u i.
  assert (startsLowercase x = true)
    as H1 by (reflexivity).
  assert (occurs (Node (TJSXElement (JSXName (JSXIdentifier x)) closing false) kids)
        (Fn FunctionDeclaration None params fbody))
    as H2 by (occurs_in).
  exact (conj H1 (conj H2 (unnamed_declaration_with_tag_throws isIdentifierName options
    topScope x closing kids params fbody u i H1 H2))).
Defined.

(** The program [<h1/>;], which holds no function. *)
Lemma program_without_functions_unchanged_h1 :
  let isIdentifierName := asciiIdentifierName in
  let analyze := (λ _ : Program, ({["Page"]} : gset string)) in
  let specifiersToObjectPattern := ObjectPattern in
  let options := Options None None in
  let tree := mkProgram [Node (TOther "ExpressionStatement") [h1Element]] in
  (Forall (λ k, hasFunction k = false) (body tree))
  ∧ (transform isIdentifierName analyze specifiersToObjectPattern options tree = Ok tree).
Proof.
  intros isIdentifierName analyze specifiersToObjectPattern options tree.
  assert (Forall (λ k, hasFunction k = false) (body tree))
    as H1 by (repeat constructor).
  exact (conj H1 (program_without_functions_unchanged isIdentifierName analyze
    specifiersToObjectPattern options tree H1)).
Defined.

(** The component [Foo] of [page]. *)
Lemma component_bound_from_components_page :
  let isIdentifierName := asciiIdentifierName in
  let options := Options None None in
  let topScope := (∅ : gset string) in
  let x := "Foo" in
  let closing := (None : option jsxname) in
  let explicit := false in
  let kids := pageChildren in
  let type := FunctionDeclaration in
  let id := Some "Page" in
  let params := ([] : list node) in
  let fbody := pageBody in
  let u := false in
  let i := false in
  (isIdentifierName x = true)
  ∧ (startsLowercase x = false)
  ∧ (x ∉ topScope)
  ∧ (x ≠ "MDXLayout")
  ∧ (occurs (Node (TJSXElement (JSXName (JSXIdentifier x)) closing explicit) kids)
        (Fn type id params fbody))
  ∧ (∃ params' fbody' f,
        visit_list isIdentifierName options topScope (params ++ [fbody])
          (State [emptyScope] u i)
        = Ok (params' ++ [fbody'], State [f] true i)
        ∧ length params' = length params
        ∧ Property "init" false (Identifier x)
            (CallExpression (Identifier "_missingComponent") [Literal (LString x)])
          ∈ defaultsOf f
        ∧ Property "init" true (Identifier x) (Identifier x) ∈ actualOf f
        ∧ ((type = FunctionDeclaration → id ≠ None) →
           ∃ mdx,
             visit isIdentifierName options topScope (Fn type id params fbody) (State [] u i)
             = Ok (Fn type id params'
                     (BlockStatement
                        (VariableDeclaration "const"
                           [VariableDeclarator (Identifier "_components")
                              (initOf (parametersOf options (defaultsOf f) mdx));
                            VariableDeclarator (ObjectPattern (actualOf f))
                              (Identifier "_components")]
                         :: blockOf fbody')),
                   State [] true (i || truthy (providerImportSource options))))
        ∧ (type = FunctionDeclaration → id = None →
           visit isIdentifierName options topScope (Fn type id params fbody) (State [] u i)
           = Throw (TypeError "Cannot read properties of null (reading 'name')"))).
Proof.
  intros isIdentifierName options topScope x closing explicit kids type id params fbody
    u i.
  assert (isIdentifierName x = true)
    as H1 by (reflexivity).
  assert (startsLowercase x = false)
    as H2 by (reflexivity).
  assert (x ∉ topScope)
    as H3 by (apply not_elem_of_empty).
  assert (x ≠ "MDXLayout")
    as H4 by (done).
  assert (occurs (Node (TJSXElement (JSXName (JSXIdentifier x)) closing explicit) kids)
        (Fn type id params fbody))
    as H5 by (occurs_in).
  exact (conj H1 (conj H2 (conj H3 (conj H4 (conj H5 (component_bound_from_components
    isIdentifierName options topScope x closing explicit kids type id params fbody u i
    H1 H2 H3 H4 H5)))))).
Defined.

(** The element [Foo.Bar] of [page]. *)
Lemma object_bound_from_components_page :
  let isIdentifierName := asciiIdentifierName in
  let options := Options None None in
  let topScope := (∅ : gset string) in
  let object := JSXIdentifier "Foo" in
  let property := "Bar" in
  let closing := (None : option jsxname) in
  let explicit := false in
  let kids := ([] : list node) in
  let type := FunctionDeclaration in
  let id := Some "Page" in
  let params := ([] : list node) in
  let fbody := pageBody in
  let u := false in
  let i := false in
  (leftmost object ∉ topScope)
  ∧ (occurs (Node (TJSXElement (JSXName (JSXMemberExpression object property)) closing
                      explicit) kids)
        (Fn type id params fbody))
  ∧ (∃ params' fbody' f u',
        visit_list isIdentifierName options topScope (params ++ [fbody])
          (State [emptyScope] u i)
        = Ok (params' ++ [fbody'], State [f] u' i)
        ∧ length params' = length params
        ∧ Property "init" true (Identifier (leftmost object)) (Identifier (leftmost object))
          ∈ actualOf f
        ∧ ((type = FunctionDeclaration → id ≠ None) →
           ∃ mdx,
             visit isIdentifierName options topScope (Fn type id params fbody) (State [] u i)
             = Ok (Fn type id params'
                     (BlockStatement
                        (VariableDeclaration "const"
                           [VariableDeclarator (Identifier "_components")
                              (initOf (parametersOf options (defaultsOf f) mdx));
                            VariableDeclarator (ObjectPattern (actualOf f))
                              (Identifier "_components")]
                         :: blockOf fbody')),
                   State [] u' (i || truthy (providerImportSource options))))
        ∧ (type = FunctionDeclaration → id = None →
           visit isIdentifierName options topScope (Fn type id params fbody) (State [] u i)
           = Throw (TypeError "Cannot read properties of null (reading 'name')"))).
Proof.
  intros isIdentifierName options topScope object property closing explicit kids type id
    params fbody u i.
  assert (leftmost object ∉ topScope)
    as H1 by (apply not_elem_of_empty).
  assert (occurs (Node (TJSXElement (JSXName (JSXMemberExpression object property)) closing
                      explicit) kids)
        (Fn type id params fbody))
    as H2 by (occurs_in).
  exact (conj H1 (conj H2 (object_bound_from_components isIdentifierName options
    topScope object property closing explicit kids type id params fbody u i H1 H2))).
Defined.

(** The state inside a function after the element [<Foo/>]. *)
Lemma helper_flag_follows_components_Foo :
  let isIdentifierName := asciiIdentifierName in
  let options := Options None None in
  let topScope := (∅ : gset string) in
  let st := State [Scope [] ["Foo"] []] true false in
  let s := Scope [] ["Foo"] [] in
  let rest := ([] : list scope) in
  let x := "Foo" in
  (reachable isIdentifierName options topScope st)
  ∧ (stack st = s :: rest)
  ∧ (x ∈ components s)
  ∧ (x ≠ "MDXLayout")
  ∧ (useMissingComponentHelper st = true).
Proof.
  intros isIdentifierName options topScope st s rest x.
  assert (reachable isIdentifierName options topScope st)
    as H1 by (exact (reachable_enter asciiIdentifierName (Options None None) ∅
              (TJSXElement (JSXName (JSXIdentifier "Foo")) None false) _
              (reachable_enter asciiIdentifierName (Options None None) ∅
                 (TFunction FunctionDeclaration (Some "Page")) _
                 (reachable_initial _ _ _)))).
  assert (stack st = s :: rest)
    as H2 by (reflexivity).
  assert (x ∈ components s)
    as H3 by (apply list_elem_of_here).
  assert (x ≠ "MDXLayout")
    as H4 by (done).
  exact (conj H1 (conj H2 (conj H3 (conj H4 (helper_flag_follows_components
    isIdentifierName options topScope st s rest x H1 H2 H3 H4))))).
Defined.

(** The state inside a function after the elements [<h1/>] and [<Foo/>]. *)
Lemma defaults_keys_distinct_h1_Foo :
  let isIdentifierName := asciiIdentifierName in
  let options := Options None None in
  let topScope := (∅ : gset string) in
  let st := State [Scope [] ["Foo"] ["h1"]] true false in
  let s := Scope [] ["Foo"] ["h1"] in
  (reachable isIdentifierName options topScope st)
  ∧ (s ∈ stack st)
  ∧ (NoDup (tags s) ∧ NoDup (components s)
      ∧ (∀ x, x ∈ tags s → x ∉ components s)
      ∧ NoDup (omap propertyKey (defaultsOf s))).
Proof.
  intros isIdentifierName options topScope st s.
  assert (reachable isIdentifierName options topScope st)
    as H1 by (exact (reachable_enter asciiIdentifierName (Options None None) ∅
              (TJSXElement (JSXName (JSXIdentifier "Foo")) None false) _
              (reachable_enter asciiIdentifierName (Options None None) ∅
                 (TJSXElement (JSXName (JSXIdentifier "h1")) None false) _
                 (reachable_enter asciiIdentifierName (Options None None) ∅
                    (TFunction FunctionDeclaration (Some "Page")) _
                    (reachable_initial _ _ _))))).
  assert (s ∈ stack st)
    as H2 by (apply list_elem_of_here).
  exact (conj H1 (conj H2 (defaults_keys_distinct isIdentifierName options topScope st s
    H1 H2))).
Defined.

(** [<h1/>] marked as explicit JSX, inside a function. *)
Lemma explicit_tag_left_alone_h1 :
  let isIdentifierName := asciiIdentifierName in
  let options := Options None None in
  let topScope := (∅ : gset string) in
  let x := "h1" in
  let closing := (None : option jsxname) in
  let kids := ([] : list node) in
  let st := State [emptyScope] false false in
  (isIdentifierName x && negb (startsLowercase x) = false)
  ∧ (onenter isIdentifierName topScope
        (TJSXElement (JSXName (JSXIdentifier x)) closing true) st
      = (TJSXElement (JSXName (JSXIdentifier x)) closing true, st)
      ∧ visit isIdentifierName options topScope
          (Node (TJSXElement (JSXName (JSXIdentifier x)) closing true) kids) st
        = '(kids', st') ← visit_list isIdentifierName options topScope kids st;
          Ok (Node (TJSXElement (JSXName (JSXIdentifier x)) closing true) kids', st')).
Proof.
  intros isIdentifierName options topScope x closing kids st.
  assert (isIdentifierName x && negb (startsLowercase x) = false)
    as H1 by (reflexivity).
  exact (conj H1 (explicit_tag_left_alone isIdentifierName options topScope x closing
    kids st H1)).
Defined.

(** The element [<A-b/>] of [page]: its name is no identifier name, and it
    starts with an uppercase letter. *)
Lemma name_that_is_no_identifier_is_a_tag_page :
  let isIdentifierName := asciiIdentifierName in
  let options := Options None None in
  let topScope := (∅ : gset string) in
  let x := "A-b" in
  let closing := (None : option jsxname) in
  let kids := ([] : list node) in
  let type := FunctionDeclaration in
  let id := Some "Page" in
  let params := ([] : list node) in
  let fbody := pageBody in
  let u := false in
  let i := false in
  (isIdentifierName x = false)
  ∧ (occurs (Node (TJSXElement (JSXName (JSXIdentifier x)) closing false) kids)
        (Fn type id params fbody))
  ∧ ((∀ s rest u0 i0,
         onenter isIdentifierName topScope
           (TJSXElement (JSXName (JSXIdentifier x)) closing false) (State (s :: rest) u0 i0)
         = (TJSXElement (JSXName (JSXMemberExpression (JSXIdentifier "_components") x))
              (match closing with
               | Some _ =>
                   Some (JSXName (JSXMemberExpression (JSXIdentifier "_components") x))
               | None => None
               end)
              false,
            State
              (Scope (objects s) (components s)
                 (if includes (tags s) x then tags s else tags s ++ [x])
               :: rest)
              u0 i0))
      ∧ ∃ params' fbody' f u',
          visit_list isIdentifierName options topScope (params ++ [fbody])
            (State [emptyScope] u i)
          = Ok (params' ++ [fbody'], State [f] u' i)
          ∧ length params' = length params
          ∧ Property "init" false (Identifier x) (Literal (LString x)) ∈ defaultsOf f
          ∧ ((type = FunctionDeclaration → id ≠ None) →
             ∃ parts more,
               visit isIdentifierName options topScope (Fn type id params fbody)
                 (State [] u i)
               = Ok (Fn type id params'
                       (BlockStatement
                          (VariableDeclaration "const"
                             (VariableDeclarator (Identifier "_components")
                                (match parts with
                                 | [] => ObjectExpression (defaultsOf f)
                                 | _ =>
                                     CallExpression
                                       (MemberExpression (Identifier "Object")
                                          (Identifier "assign") false)
                                       (ObjectExpression (defaultsOf f) :: parts)
                                 end)
                              :: more)
                           :: blockOf fbody')),
                     State [] u' (i || truthy (providerImportSource options))))
          ∧ (type = FunctionDeclaration → id = None →
             visit isIdentifierName options topScope (Fn type id params fbody) (State [] u i)
             = Throw (TypeError "Cannot read properties of null (reading 'name')"))).
Proof.
  intros isIdentifierName options topScope x closing kids type id params fbody u i.
  assert (isIdentifierName x = false)
    as H1 by (reflexivity).
  assert (occurs (Node (TJSXElement (JSXName (JSXIdentifier x)) closing false) kids)
        (Fn type id params fbody))
    as H2 by (occurs_in).
  exact (conj H1 (conj H2 (name_that_is_no_identifier_is_a_tag isIdentifierName options
    topScope x closing kids type id params fbody u i H1 H2))).
Defined.


(** The walk of [() => <h1/>] outside every function. *)
Lemma walk_is_balanced_arrow :
  let isIdentifierName := asciiIdentifierName in
  let options := Options None None in
  let topScope := (∅ : gset string) in
  let n := Fn ArrowFunctionExpression None [] (h1Element) in
  let st := State [] false false in
  let n' := Fn ArrowFunctionExpression None []
               (BlockStatement
                  [VariableDeclaration "const"
                     [VariableDeclarator (Identifier "_components")
                        (ObjectExpression
                           [Property "init" false (Identifier "h1")
                              (Literal (LString "h1"))])];
                   ReturnStatement
                     (Node (TJSXElement (viaComponents "h1") None false) [])]) in
  let st' := State [] false false in
  (visit isIdentifierName options topScope n st = Ok (n', st'))
  ∧ (length (stack st') = length (stack st) ∧ tail (stack st') = tail (stack st)).
Proof.
  intros isIdentifierName options topScope n st n' st'.
  assert (visit isIdentifierName options topScope n st = Ok (n', st'))
    as H1 by (by vm_compute).
  exact (conj H1 (walk_is_balanced isIdentifierName options topScope n st n' st' H1)).
Defined.

(** The program that holds [page] alone: [Foo] is a component of it. *)
Lemma helper_declared_at_root_page :
  let isIdentifierName := asciiIdentifierName in
  let analyze := (λ _ : Program, ({["Page"]} : gset string)) in
  let specifiersToObjectPattern := ObjectPattern in
  let options := Options None None in
  let tree := mkProgram [page] in
  let x := "Foo" in
  let closing := (None : option jsxname) in
  let explicit := false in
  let kids := pageChildren in
  let type := FunctionDeclaration in
  let id := Some "Page" in
  let params := ([] : list node) in
  let fbody := pageBody in
  (Forall (λ k, outermostNamed k = true) (body tree))
  ∧ (Fn type id params fbody ∈ body tree)
  ∧ (isIdentifierName x = true)
  ∧ (startsLowercase x = false)
  ∧ (x ∉ analyze tree)
  ∧ (x ≠ "MDXLayout")
  ∧ (occurs (Node (TJSXElement (JSXName (JSXIdentifier x)) closing explicit) kids)
        (Fn type id params fbody))
  ∧ (∃ pre stmts,
        transform isIdentifierName analyze specifiersToObjectPattern options tree
        = Ok (mkProgram (pre ++ createMissingComponentHelper :: stmts))
        ∧ length stmts = length (body tree)
        ∧ (pre = []
           ∨ pre = [createImportProvider specifiersToObjectPattern
                      (providerImportSource options) (outputFormat options)])).
Proof.
  intros isIdentifierName analyze specifiersToObjectPattern options tree x closing
    explicit kids type id params fbody.
  assert (Forall (λ k, outermostNamed k = true) (body tree))
    as H1 by (repeat constructor).
  assert (Fn type id params fbody ∈ body tree)
    as H2 by (apply list_elem_of_here).
  assert (isIdentifierName x = true)
    as H3 by (reflexivity).
  assert (startsLowercase x = false)
    as H4 by (reflexivity).
  assert (x ∉ analyze tree)
    as H5 by (change ("Foo" ∉ ({["Page"]} : gset string)); by apply not_elem_of_singleton).
  assert (x ≠ "MDXLayout")
    as H6 by (done).
  assert (occurs (Node (TJSXElement (JSXName (JSXIdentifier x)) closing explicit) kids)
        (Fn type id params fbody))
    as H7 by (occurs_in).
  exact (conj H1 (conj H2 (conj H3 (conj H4 (conj H5 (conj H6 (conj H7
    (helper_declared_at_root isIdentifierName analyze specifiersToObjectPattern options
    tree x closing explicit kids type id params fbody H1 H2 H3 H4 H5 H6 H7)))))))).
Defined.

(** [Foo] in [page], a component in [<Foo>] and the leftmost identifier of
    [<Foo.Bar/>]. *)
Lemma component_and_object_bound_twice_page :
  let isIdentifierName := asciiIdentifierName in
  let options := Options None None in
  let topScope := (∅ : gset string) in
  let x := "Foo" in
  let object := JSXIdentifier "Foo" in
  let property := "Bar" in
  let closing1 := (None : option jsxname) in
  let closing2 := (None : option jsxname) in
  let explicit1 := false in
  let explicit2 := false in
  let kids1 := pageChildren in
  let kids2 := ([] : list node) in
  let type := FunctionDeclaration in
  let id := Some "Page" in
  let params := ([] : list node) in
  let fbody := pageBody in
  let u := false in
  let i := false in
  (isIdentifierName x = true)
  ∧ (startsLowercase x = false)
  ∧ (x ∉ topScope)
  ∧ (leftmost object = x)
  ∧ (occurs (Node (TJSXElement (JSXName (JSXIdentifier x)) closing1 explicit1) kids1)
        (Fn type id params fbody))
  ∧ (occurs (Node (TJSXElement (JSXName (JSXMemberExpression object property)) closing2
                      explicit2) kids2)
        (Fn type id params fbody))
  ∧ (∃ params' fbody' f u' j k shorthand key,
        visit_list isIdentifierName options topScope (params ++ [fbody])
          (State [emptyScope] u i)
        = Ok (params' ++ [fbody'], State [f] u' i)
        ∧ length params' = length params
        ∧ j < k
        ∧ actualOf f !! j = Some (Property "init" shorthand (Identifier key) (Identifier x))
        ∧ actualOf f !! k = Some (Property "init" true (Identifier x) (Identifier x))
        ∧ ((type = FunctionDeclaration → id ≠ None) →
           ∃ mdx,
             visit isIdentifierName options topScope (Fn type id params fbody) (State [] u i)
             = Ok (Fn type id params'
                     (BlockStatement
                        (VariableDeclaration "const"
                           [VariableDeclarator (Identifier "_components")
                              (initOf (parametersOf options (defaultsOf f) mdx));
                            VariableDeclarator (ObjectPattern (actualOf f))
                              (Identifier "_components")]
                         :: blockOf fbody')),
                   State [] u' (i || truthy (providerImportSource options))))
        ∧ (type = FunctionDeclaration → id = None →
           visit isIdentifierName options topScope (Fn type id params fbody) (State [] u i)
           = Throw (TypeError "Cannot read properties of null (reading 'name')"))).
Proof.
  intros isIdentifierName options topScope x object property closing1 closing2 explicit1
    explicit2 kids1 kids2 type id params fbody u i.
  assert (isIdentifierName x = true)
    as H1 by (reflexivity).
  assert (startsLowercase x = false)
    as H2 by (reflexivity).
  assert (x ∉ topScope)
    as H3 by (apply not_elem_of_empty).
  assert (leftmost object = x)
    as H4 by (reflexivity).
  assert (occurs (Node (TJSXElement (JSXName (JSXIdentifier x)) closing1 explicit1) kids1)
        (Fn type id params fbody))
    as H5 by (occurs_in).
  assert (occurs (Node (TJSXElement (JSXName (JSXMemberExpression object property)) closing2
                      explicit2) kids2)
        (Fn type id params fbody))
    as H6 by (occurs_in).
  exact (conj H1 (conj H2 (conj H3 (conj H4 (conj H5 (conj H6
    (component_and_object_bound_twice isIdentifierName options topScope x object
    property closing1 closing2 explicit1 explicit2 kids1 kids2 type id params fbody u i
    H1 H2 H3 H4 H5 H6))))))).
Defined.

(** The program that holds [page] alone, with a provider source: [h1] is a tag
    of it. *)
Lemma provider_imported_at_root_page :
  let isIdentifierName := asciiIdentifierName in
  let analyze := (λ _ : Program, ({["Page"]} : gset string)) in
  let specifiersToObjectPattern := ObjectPattern in
  let options := scenarioOptions in
  let tree := mkProgram [page] in
  let x := "h1" in
  let closing := (None : option jsxname) in
  let kids := ([] : list node) in
  let type := FunctionDeclaration in
  let id := Some "Page" in
  let params := ([] : list node) in
  let fbody := pageBody in
  (truthy (providerImportSource options) = true)
  ∧ (Forall (λ k, outermostNamed k = true) (body tree))
  ∧ (Fn type id params fbody ∈ body tree)
  ∧ (startsLowercase x = true)
  ∧ (occurs (Node (TJSXElement (JSXName (JSXIdentifier x)) closing false) kids)
        (Fn type id params fbody))
  ∧ (∃ stmts,
        transform isIdentifierName analyze specifiersToObjectPattern options tree
        = Ok (mkProgram
                (createImportProvider specifiersToObjectPattern
                   (providerImportSource options) (outputFormat options)
                 :: stmts))).
Proof.
  intros isIdentifierName analyze specifiersToObjectPattern options tree x closing kids
    type id params fbody.
  assert (truthy (providerImportSource options) = true)
    as H1 by (reflexivity).
  assert (Forall (λ k, outermostNamed k = true) (body tree))
    as H2 by (repeat constructor).
  assert (Fn type id params fbody ∈ body tree)
    as H3 by (apply list_elem_of_here).
  assert (startsLowercase x = true)
    as H4 by (reflexivity).
  assert (occurs (Node (TJSXElement (JSXName (JSXIdentifier x)) closing false) kids)
        (Fn type id params fbody))
    as H5 by (occurs_in).
  exact (conj H1 (conj H2 (conj H3 (conj H4 (conj H5 (provider_imported_at_root
    isIdentifierName analyze specifiersToObjectPattern options tree x closing kids type
    id params fbody H1 H2 H3 H4 H5)))))).
Defined.

(** Entering [<h1/>] inside a function. *)
Lemma only_tags_are_renamed_h1 :
  let isIdentifierName := asciiIdentifierName in
  let topScope := (∅ : gset string) in
  let h := TJSXElement (JSXName (JSXIdentifier "h1")) None false in
  let st := State [emptyScope] false false in
  ((onenter isIdentifierName topScope h st).1 ≠ h)
  ∧ (∃ x closing,
        h = TJSXElement (JSXName (JSXIdentifier x)) closing false
        ∧ isIdentifierName x && negb (startsLowercase x) = false
        ∧ stack st ≠ []
        ∧ (onenter isIdentifierName topScope h st).1
          = TJSXElement (viaComponents x) ((λ _, viaComponents x) <$> closing) false).
Proof.
  intros isIdentifierName topScope h st.
  assert ((onenter isIdentifierName topScope h st).1 ≠ h)
    as H1 by (by vm_compute).
  exact (conj H1 (only_tags_are_renamed isIdentifierName topScope h st H1)).
Defined.

(** The scenario, whose result starts with the provider import. *)
Lemma provider_import_has_source_scenario :
  let isIdentifierName := asciiIdentifierName in
  let analyze := (λ _ : Program, ({["MDXContent"]} : gset string)) in
  let specifiersToObjectPattern := ObjectPattern in
  let options := scenarioOptions in
  let tree := scenario in
  let tree' := scenarioResult in
  (transform isIdentifierName analyze specifiersToObjectPattern options tree = Ok tree')
  ∧ (∃ stmts st,
        visit_list isIdentifierName options (analyze tree) (body tree) initialState
        = Ok (stmts, st)
        ∧ (importProvider st = true →
           ∃ source more,
             providerImportSource options = Some source ∧ source ≠ ""
             ∧ body tree'
               = (if bool_decide (outputFormat options = Some "function-body")
                  then VariableDeclaration "const"
                         [VariableDeclarator
                            (specifiersToObjectPattern
                               [ImportSpecifier (Identifier "useMDXComponents")
                                  (Identifier "_provideComponents")])
                            (MemberExpression (Identifier "arguments")
                               (Literal (LNumber 0)) true)]
                  else ImportDeclaration
                         [ImportSpecifier (Identifier "useMDXComponents")
                            (Identifier "_provideComponents")]
                         (Literal (LString source)))
                 :: more)).
Proof.
  intros isIdentifierName analyze specifiersToObjectPattern options tree tree'.
  assert (transform isIdentifierName analyze specifiersToObjectPattern options tree = Ok tree')
    as H1 by (by vm_compute).
  exact (conj H1 (provider_import_has_source isIdentifierName analyze
    specifiersToObjectPattern options tree tree' H1)).
Defined.

(** The scenario, whose result declares the helper. *)
Lemma helper_declared_only_when_called_scenario :
  let isIdentifierName := asciiIdentifierName in
  let analyze := (λ _ : Program, ({["MDXContent"]} : gset string)) in
  let specifiersToObjectPattern := ObjectPattern in
  let options := scenarioOptions in
  let tree := scenario in
  let tree' := scenarioResult in
  (transform isIdentifierName analyze specifiersToObjectPattern options tree = Ok tree')
  ∧ (∃ stmts st,
        visit_list isIdentifierName options (analyze tree) (body tree) initialState
        = Ok (stmts, st)
        ∧ body tree'
          = (if importProvider st
             then [createImportProvider specifiersToObjectPattern
                     (providerImportSource options) (outputFormat options)]
             else [])
            ++ (if useMissingComponentHelper st then [createMissingComponentHelper] else [])
            ++ stmts
        ∧ (useMissingComponentHelper st = true →
           ∃ k m type id params f mdx rest x,
             k ∈ stmts ∧ occurs m k
             ∧ m = Fn type id params
                     (BlockStatement
                        (VariableDeclaration "const"
                           (VariableDeclarator (Identifier "_components")
                              (initOf (parametersOf options (defaultsOf f) mdx))
                            :: [VariableDeclarator (ObjectPattern (actualOf f))
                                  (Identifier "_components")])
                         :: rest))
             ∧ Property "init" false (Identifier x)
                 (CallExpression (Identifier "_missingComponent") [Literal (LString x)])
               ∈ defaultsOf f
             ∧ Property "init" true (Identifier x) (Identifier x) ∈ actualOf f)).
Proof.
  intros isIdentifierName analyze specifiersToObjectPattern options tree tree'.
  assert (transform isIdentifierName analyze specifiersToObjectPattern options tree = Ok tree')
    as H1 by (by vm_compute).
  exact (conj H1 (helper_declared_only_when_called isIdentifierName analyze
    specifiersToObjectPattern options tree tree' H1)).
Defined.

(** The element [MDXLayout] of [layoutPage], the only component of that
    function. *)
Lemma mdxlayout_read_from_wrapper_page :
  let isIdentifierName := asciiIdentifierName in
  let options := Options None None in
  let topScope := (∅ : gset string) in
  let closing := (None : option jsxname) in
  let explicit := false in
  let kids := [h1Element] in
  let type := FunctionDeclaration in
  let id := Some "Page" in
  let params := ([] : list node) in
  let fbody := layoutBody in
  let u := false in
  let i := false in
  (isIdentifierName "MDXLayout" = true)
  ∧ ("MDXLayout" ∉ topScope)
  ∧ (occurs (Node (TJSXElement (JSXName (JSXIdentifier "MDXLayout")) closing explicit) kids)
        (Fn type id params fbody))
  ∧ (∃ params' fbody' f u',
        visit_list isIdentifierName options topScope (params ++ [fbody])
          (State [emptyScope] u i)
        = Ok (params' ++ [fbody'], State [f] u' i)
        ∧ length params' = length params
        ∧ Property "init" false (Identifier "wrapper") (Identifier "MDXLayout") ∈ actualOf f
        ∧ (∀ kind shorthand callee args,
             Property kind shorthand (Identifier "MDXLayout") (CallExpression callee args)
             ∉ defaultsOf f)
        ∧ (∀ kind shorthand key,
             Property kind shorthand key
               (CallExpression (Identifier "_missingComponent")
                  [Literal (LString "MDXLayout")])
             ∉ defaultsOf f)
        ∧ ((∀ y, y ∈ components f → y = "MDXLayout") → u' = u)
        ∧ ((type = FunctionDeclaration → id ≠ None) →
           ∃ mdx,
             visit isIdentifierName options topScope (Fn type id params fbody) (State [] u i)
             = Ok (Fn type id params'
                     (BlockStatement
                        (VariableDeclaration "const"
                           [VariableDeclarator (Identifier "_components")
                              (initOf (parametersOf options (defaultsOf f) mdx));
                            VariableDeclarator (ObjectPattern (actualOf f))
                              (Identifier "_components")]
                         :: blockOf fbody')),
                   State [] u' (i || truthy (providerImportSource options))))
        ∧ (type = FunctionDeclaration → id = None →
           visit isIdentifierName options topScope (Fn type id params fbody) (State [] u i)
           = Throw (TypeError "Cannot read properties of null (reading 'name')"))).
Proof.
  intros isIdentifierName options topScope closing explicit kids type id params fbody u
    i.
  assert (isIdentifierName "MDXLayout" = true)
    as H1 by (reflexivity).
  assert ("MDXLayout" ∉ topScope)
    as H2 by (apply not_elem_of_empty).
  assert (occurs (Node (TJSXElement (JSXName (JSXIdentifier "MDXLayout")) closing explicit) kids)
        (Fn type id params fbody))
    as H3 by (occurs_in).
  exact (conj H1 (conj H2 (conj H3 (mdxlayout_read_from_wrapper isIdentifierName options
    topScope closing explicit kids type id params fbody u i H1 H2 H3)))).
Defined.
